(** * aws-c-http, source/connection.c: the connection core

    A shallow embedding of the functions of [source/connection.c] that
    decide the properties checked below: stream-id allocation, reference
    counting, the HTTP/2-only guards, server configuration, version
    negotiation in [s_connection_new], the server accept / release
    choreography and the client connect bootstrap.

    Conventions.
    - A C function that reads or writes through a pointer becomes a
      computation in the monad [M], a state monad over [world] that can
      also crash (a failed assertion, a NULL or dangling dereference).
    - [struct aws_http_connection] objects live in a heap keyed by their
      address, because the same connection is reachable from the server's
      map, from the local variable of the accept callback and from user
      code.
    - Calls into collaborators (channel, listener, allocator) are recorded
      in the [trace] of the world; what a collaborator answers is read from
      an environment record.
    - User callbacks and vtable implementations are foreign code: a function
      [extern] over the heap and the thread's last error, which every
      definition that runs such code takes as its first argument. *)

From Stdlib Require Import ZArith String List Lia Bool.
From stdpp Require Import base option list gmap.

Open Scope Z_scope.

(** ** Error codes, versions, pointers *)

(** The error enumerations of aws-c-common and aws-c-http, restricted to the
    codes [connection.c] names.  [AWS_ERROR_SUCCESS] is the C value 0; every
    other enumerator is a distinct non-zero [int].  [AWS_ERROR_OTHER] stands
    for the codes of other enumerations (socket, TLS, ...), which reach this
    file only through [error_code] arguments and [aws_last_error()]. *)
Inductive error_code : Type :=
  | AWS_ERROR_SUCCESS
  | AWS_ERROR_UNKNOWN
  | AWS_ERROR_INVALID_ARGUMENT
  | AWS_ERROR_INVALID_STATE
  | AWS_ERROR_HTTP_UNSUPPORTED_PROTOCOL
  | AWS_ERROR_HTTP_CONNECTION_CLOSED
  | AWS_ERROR_HTTP_STREAM_IDS_EXHAUSTED
  | AWS_ERROR_HTTP_REACTION_REQUIRED
  | AWS_ERROR_OTHER (code : positive).

#[global] Instance error_code_eq_dec : EqDecision error_code.
Proof. solve_decision. Defined.

(** The C test [if (error_code)]. *)
Definition is_error (e : error_code) : bool :=
  match e with AWS_ERROR_SUCCESS => false | _ => true end.

Definition AWS_OP_SUCCESS : Z := 0.
Definition AWS_OP_ERR : Z := -1.

(** [enum aws_http_version] (declared in aws/http/http.h). *)
Inductive aws_http_version : Type :=
  | AWS_HTTP_VERSION_UNKNOWN
  | AWS_HTTP_VERSION_1_0
  | AWS_HTTP_VERSION_1_1
  | AWS_HTTP_VERSION_2.

#[global] Instance aws_http_version_eq_dec : EqDecision aws_http_version.
Proof. solve_decision. Defined.

(** Addresses.  A channel and a connection are known to this file only by
    identity; function pointers and [void *user_data] are opaque. *)
Abbreviation channel := positive (only parsing).
Abbreviation conn_id := positive (only parsing).
Abbreviation fn_ptr := positive (only parsing).
Abbreviation ptr := Z (only parsing).

(** ** Machine integers *)

Definition UINT32_MAX : Z := 2 ^ 32 - 1.

(** [static const uint32_t MAX_STREAM_ID = UINT32_MAX >> 1;] *)
Definition MAX_STREAM_ID : Z := Z.shiftr UINT32_MAX 1.

(** Arithmetic on [uint32_t] and on [size_t] (64-bit) wraps around. *)
Definition uint32 (z : Z) : Z := z mod 2 ^ 32.
Definition size_t (z : Z) : Z := z mod 2 ^ 64.

(** ** The connection object *)

(** [struct aws_http_connection_server_data]: the two callbacks set by
    [aws_http_connection_configure_server]. *)
Record aws_http_connection_server_data : Type := mk_server_data {
  on_incoming_request : option fn_ptr;
  on_shutdown : option fn_ptr;
}.

(** The union [client_or_server_data] together with the two pointers
    [client_data] and [server_data], exactly one of which is non-NULL. *)
Inductive client_or_server_data : Type :=
  | client
  | server (sd : aws_http_connection_server_data).

(** The fields of [struct aws_http_connection] that [connection.c] touches. *)
Record aws_http_connection : Type := mk_connection {
  channel_slot : channel;            (* channel_slot->channel *)
  http_version : aws_http_version;
  proxy_request_transform : option fn_ptr;
  user_data : ptr;
  refcount : Z;                      (* struct aws_atomic_var, a size_t *)
  next_stream_id : Z;                (* uint32_t *)
  role : client_or_server_data;
}.

Definition client_data (c : aws_http_connection) : bool :=
  match role c with client => true | server _ => false end.

Definition server_data (c : aws_http_connection)
  : option aws_http_connection_server_data :=
  match role c with client => None | server sd => Some sd end.

Definition set_refcount (r : Z) (c : aws_http_connection) :=
  mk_connection (channel_slot c) (http_version c) (proxy_request_transform c)
                (user_data c) r (next_stream_id c) (role c).

Definition set_next_stream_id (n : Z) (c : aws_http_connection) :=
  mk_connection (channel_slot c) (http_version c) (proxy_request_transform c)
                (user_data c) (refcount c) n (role c).

Definition set_user_data (u : ptr) (c : aws_http_connection) :=
  mk_connection (channel_slot c) (http_version c) (proxy_request_transform c)
                u (refcount c) (next_stream_id c) (role c).

Definition set_proxy_request_transform (f : option fn_ptr) (c : aws_http_connection) :=
  mk_connection (channel_slot c) (http_version c) f
                (user_data c) (refcount c) (next_stream_id c) (role c).

Definition set_role (r : client_or_server_data) (c : aws_http_connection) :=
  mk_connection (channel_slot c) (http_version c) (proxy_request_transform c)
                (user_data c) (refcount c) (next_stream_id c) r.

(** ** Observable calls *)

(** The operations of the connection vtable that the HTTP/2-only entry
    points dispatch to. *)
Inductive vtable_op : Type :=
  | vt_change_settings (settings_array : list (Z * Z))
                       (on_completed : option fn_ptr) (ud : ptr)
  | vt_send_ping (optional_opaque_data : option string)
                 (on_ack : option fn_ptr) (ud : ptr)
  | vt_send_goaway (http2_error : Z) (allow_more_streams : bool)
                   (optional_debug_data : option string)
  | vt_get_sent_goaway (out_http2_error out_last_stream_id : ptr)
  | vt_get_received_goaway (out_http2_error out_last_stream_id : ptr)
  | vt_get_local_settings (out_settings : ptr)
  | vt_get_remote_settings (out_settings : ptr).

(** Foreign code run by this file: user callbacks (with the arguments they
    receive) and vtable implementations. *)
Inductive call : Type :=
  | call_on_setup (f : fn_ptr) (connection : option conn_id) (e : error_code) (ud : ptr)
  | call_on_shutdown (f : fn_ptr) (connection : option conn_id) (e : error_code) (ud : ptr)
  | call_on_incoming_connection (f : fn_ptr) (connection : option conn_id) (e : error_code) (ud : ptr)
  | call_on_destroy_complete (f : fn_ptr) (ud : ptr)
  | call_connection_on_shutdown (f : fn_ptr) (connection : conn_id) (e : error_code) (ud : ptr)
  | call_vtable (connection : conn_id) (op : vtable_op).

(** Everything this file does that is visible from outside, in order. *)
Inductive event : Type :=
  | ev_call (c : call)
  | ev_channel_shutdown (ch : channel) (e : error_code)
  | ev_channel_release_hold (ch : channel)
  | ev_channel_slot_remove (ch : channel)
  | ev_channel_handler_destroy (connection : conn_id)
  | ev_on_channel_handler_installed (connection : conn_id)
  | ev_channel_set_statistics_handler (ch : channel)
  | ev_server_lock
  | ev_server_unlock
  | ev_destroy_socket_listener
  | ev_mem_release_server
  | ev_mem_release_bootstrap.

#[global] Instance vtable_op_eq_dec : EqDecision vtable_op.
Proof. solve_decision. Defined.
#[global] Instance call_eq_dec : EqDecision call.
Proof. solve_decision. Defined.
#[global] Instance event_eq_dec : EqDecision event.
Proof. solve_decision. Defined.

(** ** The world and the monad *)

Record world : Type := mk_world {
  last_error : error_code;                     (* aws_last_error(), per thread *)
  heap : gmap conn_id aws_http_connection;     (* live connection objects *)
  trace : list event;
}.

(** A computation: [None] is a crash. *)
Definition M (A : Type) : Type := world -> option (A * world).

Definition ret {A} (a : A) : M A := fun w => Some (a, w).

Definition bind {A B} (m : M A) (k : A -> M B) : M B :=
  fun w => match m w with
           | Some (a, w') => k a w'
           | None => None
           end.

Notation "'let*' x ':=' m 'in' k" := (bind m (fun x => k))
  (at level 10, x name, m at level 100, k at level 200).
Notation "m ';;' k" := (bind m (fun _ => k))
  (at level 100, k at level 200, right associativity).

Definition crash {A} : M A := fun _ => None.

(** [AWS_ASSERT], [AWS_PRECONDITION] and [AWS_FATAL_ASSERT]. *)
Definition aws_assert (b : bool) : M unit :=
  if b then ret tt else crash.

(** [aws_raise_error]: records the error for the thread and returns
    [AWS_OP_ERR]. *)
Definition aws_raise_error (e : error_code) : M Z :=
  fun w => Some (AWS_OP_ERR, mk_world e (heap w) (trace w)).

Definition aws_last_error : M error_code :=
  fun w => Some (last_error w, w).

Definition emit (ev : event) : M unit :=
  fun w => Some (tt, mk_world (last_error w) (heap w) (trace w ++ [ev])).

(** [*connection]: crashes on a pointer to no live object. *)
Definition deref (connection : conn_id) : M aws_http_connection :=
  fun w => match heap w !! connection with
           | Some c => Some (c, w)
           | None => None
           end.

Definition store (connection : conn_id) (c : aws_http_connection) : M unit :=
  fun w => Some (tt, mk_world (last_error w) (<[connection := c]> (heap w)) (trace w)).

(** ** Stream ids *)

(** [aws_http_connection_get_next_stream_id] *)
Definition aws_http_connection_get_next_stream_id (connection : conn_id) : M Z :=
  let* c := deref connection in
  let next_id := next_stream_id c in
  if MAX_STREAM_ID <? next_id then
    aws_raise_error AWS_ERROR_HTTP_STREAM_IDS_EXHAUSTED ;;
    ret 0
  else
    store connection (set_next_stream_id (uint32 (next_stream_id c + 2)) c) ;;
    ret next_id.

(** [n] consecutive calls on the same connection, results in call order. *)
Fixpoint get_next_stream_ids (n : nat) (connection : conn_id) : M (list Z) :=
  match n with
  | O => ret []
  | S n' =>
      let* id := aws_http_connection_get_next_stream_id connection in
      let* ids := get_next_stream_ids n' connection in
      ret (id :: ids)
  end.

(** The ids [s, s+2, ..., s+2(n-1)]. *)
Definition ids_from (s : Z) (n : nat) : list Z :=
  map (fun k => s + 2 * Z.of_nat k) (seq 0 n).

(** The number of ids a fresh client connection can hand out. *)
Definition stream_id_capacity : nat := Z.to_nat (2 ^ 30).

(** ** Reference counting *)

(** [aws_http_connection_acquire]: [aws_atomic_fetch_add(&refcount, 1)]. *)
Definition aws_http_connection_acquire (connection : conn_id) : M unit :=
  let* c := deref connection in
  store connection (set_refcount (size_t (refcount c + 1)) c).

(** [aws_http_connection_release] *)
Definition aws_http_connection_release (connection : conn_id) : M unit :=
  let* c := deref connection in
  let prev_refcount := refcount c in
  store connection (set_refcount (size_t (prev_refcount - 1)) c) ;;
  if prev_refcount =? 1 then
    (* Channel might already be shut down, but make sure *)
    emit (ev_channel_shutdown (channel_slot c) AWS_ERROR_SUCCESS) ;;
    emit (ev_channel_release_hold (channel_slot c))
  else
    aws_assert (negb (prev_refcount =? 0)).

(** A sequence of [acquire] and [release] calls on one connection. *)
Inductive refcount_op : Type :=
  | op_acquire
  | op_release.

Fixpoint run_refcount_ops (ops : list refcount_op) (connection : conn_id)
  : M unit :=
  match ops with
  | [] => ret tt
  | op_acquire :: rest =>
      aws_http_connection_acquire connection ;;
      run_refcount_ops rest connection
  | op_release :: rest =>
      aws_http_connection_release connection ;;
      run_refcount_ops rest connection
  end.

(** The count after one call, and after a sequence of calls, from [r]. *)
Definition refcount_after (r : Z) (op : refcount_op) : Z :=
  match op with
  | op_acquire => r + 1
  | op_release => r - 1
  end.

Definition refcount_after_all (r : Z) (ops : list refcount_op) : Z :=
  fold_left refcount_after ops r.

(** The count stays above zero after every call of the sequence. *)
Fixpoint stays_referenced (r : Z) (ops : list refcount_op) : bool :=
  match ops with
  | [] => true
  | op :: rest =>
      (0 <? refcount_after r op) && stays_referenced (refcount_after r op) rest
  end.

(** ** Foreign code *)

(** What user callbacks and vtable implementations can see and change: the
    thread's last error and the connection objects. *)
Abbreviation memory := (error_code * gmap conn_id aws_http_connection)%type.

Abbreviation foreign := (call -> memory -> Z * memory).

(** Runs a callback or a vtable entry and records that it ran. *)
Definition invoke (extern : foreign) (c : call) : M Z :=
  fun w =>
    let '(r, (e, h)) := extern c (last_error w, heap w) in
    Some (r, mk_world e h (trace w ++ [ev_call c])).

(** ** HTTP/2-only entry points *)

(** [s_check_http2_connection] *)
Definition s_check_http2_connection (http2_connection : conn_id) : M Z :=
  let* c := deref http2_connection in
  if decide (http_version c = AWS_HTTP_VERSION_2) then
    ret AWS_OP_SUCCESS
  else
    aws_raise_error AWS_ERROR_INVALID_STATE.

(** The shape shared by the entry points that return what the vtable
    returns: check the version, then dispatch. *)
Definition h2_dispatch (extern : foreign) (http2_connection : conn_id)
    (op : vtable_op) : M Z :=
  let* err := s_check_http2_connection http2_connection in
  if negb (err =? 0) then ret AWS_OP_ERR
  else invoke extern (call_vtable http2_connection op).

(** The shape of the two settings getters, whose vtable entry is [void]. *)
Definition h2_dispatch_void (extern : foreign) (http2_connection : conn_id)
    (op : vtable_op) : M Z :=
  let* err := s_check_http2_connection http2_connection in
  if negb (err =? 0) then ret AWS_OP_ERR
  else invoke extern (call_vtable http2_connection op) ;; ret AWS_OP_SUCCESS.

Definition aws_http2_connection_change_settings (extern : foreign)
    (http2_connection : conn_id) (settings_array : list (Z * Z))
    (on_completed : option fn_ptr) (ud : ptr) : M Z :=
  h2_dispatch extern http2_connection
    (vt_change_settings settings_array on_completed ud).

Definition aws_http2_connection_ping (extern : foreign)
    (http2_connection : conn_id) (optional_opaque_data : option string)
    (on_ack : option fn_ptr) (ud : ptr) : M Z :=
  h2_dispatch extern http2_connection
    (vt_send_ping optional_opaque_data on_ack ud).

Definition aws_http2_connection_send_goaway (extern : foreign)
    (http2_connection : conn_id) (http2_error : Z) (allow_more_streams : bool)
    (optional_debug_data : option string) : M Z :=
  h2_dispatch extern http2_connection
    (vt_send_goaway http2_error allow_more_streams optional_debug_data).

(** The two GOAWAY getters first require their out-pointers to be non-NULL
    ([AWS_PRECONDITION]). *)
Definition aws_http2_connection_get_sent_goaway (extern : foreign)
    (http2_connection : conn_id) (out_http2_error out_last_stream_id : ptr) : M Z :=
  aws_assert (negb (out_http2_error =? 0)) ;;
  aws_assert (negb (out_last_stream_id =? 0)) ;;
  h2_dispatch extern http2_connection
    (vt_get_sent_goaway out_http2_error out_last_stream_id).

Definition aws_http2_connection_get_received_goaway (extern : foreign)
    (http2_connection : conn_id) (out_http2_error out_last_stream_id : ptr) : M Z :=
  aws_assert (negb (out_http2_error =? 0)) ;;
  aws_assert (negb (out_last_stream_id =? 0)) ;;
  h2_dispatch extern http2_connection
    (vt_get_received_goaway out_http2_error out_last_stream_id).

Definition aws_http2_connection_get_local_settings (extern : foreign)
    (http2_connection : conn_id) (out_settings : ptr) : M Z :=
  h2_dispatch_void extern http2_connection (vt_get_local_settings out_settings).

Definition aws_http2_connection_get_remote_settings (extern : foreign)
    (http2_connection : conn_id) (out_settings : ptr) : M Z :=
  h2_dispatch_void extern http2_connection (vt_get_remote_settings out_settings).

(** The seven entry points, by name, applied to some arguments. *)
Inductive h2_entry : Type :=
  | change_settings (settings_array : list (Z * Z))
                    (on_completed : option fn_ptr) (ud : ptr)
  | ping (optional_opaque_data : option string) (on_ack : option fn_ptr) (ud : ptr)
  | send_goaway (http2_error : Z) (allow_more_streams : bool)
                (optional_debug_data : option string)
  | get_sent_goaway (out_http2_error out_last_stream_id : ptr)
  | get_received_goaway (out_http2_error out_last_stream_id : ptr)
  | get_local_settings (out_settings : ptr)
  | get_remote_settings (out_settings : ptr).

Definition run_h2_entry (extern : foreign) (http2_connection : conn_id)
    (e : h2_entry) : M Z :=
  match e with
  | change_settings a f u =>
      aws_http2_connection_change_settings extern http2_connection a f u
  | ping d f u => aws_http2_connection_ping extern http2_connection d f u
  | send_goaway e a d =>
      aws_http2_connection_send_goaway extern http2_connection e a d
  | get_sent_goaway p q =>
      aws_http2_connection_get_sent_goaway extern http2_connection p q
  | get_received_goaway p q =>
      aws_http2_connection_get_received_goaway extern http2_connection p q
  | get_local_settings p =>
      aws_http2_connection_get_local_settings extern http2_connection p
  | get_remote_settings p =>
      aws_http2_connection_get_remote_settings extern http2_connection p
  end.

(** The caller's side of the preconditions of an entry point. *)
Definition h2_entry_args_ok (e : h2_entry) : bool :=
  match e with
  | get_sent_goaway p q | get_received_goaway p q =>
      negb (p =? 0) && negb (q =? 0)
  | _ => true
  end.

(** ** Server configuration *)

(** [struct aws_http_server_connection_options] *)
Record aws_http_server_connection_options : Type := mk_server_connection_options {
  connection_user_data : ptr;
  opt_on_incoming_request : option fn_ptr;
  opt_on_shutdown : option fn_ptr;
}.

(** [aws_http_connection_configure_server]; both pointer arguments may be
    NULL. *)
Definition aws_http_connection_configure_server
    (connection : option conn_id)
    (options : option aws_http_server_connection_options) : M Z :=
  match connection, options with
  | Some connection, Some options =>
      match opt_on_incoming_request options with
      | None => aws_raise_error AWS_ERROR_INVALID_ARGUMENT
      | Some handler =>
          let* c := deref connection in
          match server_data c with
          | None =>
              (* Server-only function invoked on client, ignoring call. *)
              aws_raise_error AWS_ERROR_INVALID_STATE
          | Some sd =>
              match on_incoming_request sd with
              | Some _ =>
                  (* Connection is already configured, ignoring call. *)
                  aws_raise_error AWS_ERROR_INVALID_STATE
              | None =>
                  store connection
                    (set_role
                       (server (mk_server_data (Some handler) (opt_on_shutdown options)))
                       (set_user_data (connection_user_data options) c)) ;;
                  ret AWS_OP_SUCCESS
              end
          end
      end
  | _, _ => aws_raise_error AWS_ERROR_INVALID_ARGUMENT
  end.

(** ** Creating a connection on a channel *)

(** The answer of a collaborator call that can fail; a failing call raises
    its error ([aws_raise_error]) before it returns. *)
Inductive outcome : Type :=
  | ok
  | fails (e : error_code).

Definition collaborator (o : outcome) : M bool :=
  match o with
  | ok => ret true
  | fails e => aws_raise_error e ;; ret false
  end.

(** What the channel answers while [s_connection_new] runs. *)
Record channel_env : Type := mk_channel_env {
  env_slot_new : outcome;            (* aws_channel_slot_new *)
  env_slot_insert_end : outcome;     (* aws_channel_slot_insert_end *)
  (* the handler of the slot to the left, given by the protocol string that
     aws_tls_handler_protocol reports for it (empty: nothing negotiated);
     None when there is no such slot or it has no handler *)
  env_tls_protocol : option string;
  env_connection_new : outcome;      (* aws_http_connection_new_http*_* *)
  env_slot_set_handler : outcome;    (* aws_channel_slot_set_handler *)
  (* whether aws_channel_slot_set_handler, when it fails, has already stored
     the handler in the slot (connection_slot->handler) *)
  env_slot_handler_stored : bool;
}.

Definition s_alpn_protocol_http_1_1 : string := "http/1.1".
Definition s_alpn_protocol_http_2 : string := "h2".

(** [aws_string_eq_byte_buf] (aws-c-common): same length and same bytes. *)
Definition aws_string_eq_byte_buf (s : string) (buf : string) : bool :=
  String.eqb s buf.

(** Modelled from the spec: the constructors
    [aws_http_connection_new_http1_1_server], [..._http1_1_client],
    [..._http2_server] and [..._http2_client] are defined in
    h1_connection.c and h2_connection.c.  The object they return has the
    version and the role of the constructor, one reference (the user's) and,
    on a client, 1 as next stream id (2 on a server). *)
Definition connection_init (version : aws_http_version) (is_server : bool)
    (ch : channel) : aws_http_connection :=
  mk_connection ch version None 0 1
    (if is_server then 2 else 1)
    (if is_server then server (mk_server_data None None) else client).

(** The allocator returns an address that holds no live connection. *)
Definition alloc_connection (c : aws_http_connection) : M conn_id :=
  fun w =>
    let a := fresh (dom (heap w)) in
    Some (a, mk_world (last_error w) (<[a := c]> (heap w)) (trace w)).

Definition free_connection (connection : conn_id) : M unit :=
  fun w => Some (tt, mk_world (last_error w) (delete connection (heap w)) (trace w)).

(** The block "Determine HTTP version" of [s_connection_new]; [None] is the
    jump to [error]. *)
Definition determine_http_version (is_using_tls : bool) (env : channel_env)
  : M (option aws_http_version) :=
  if is_using_tls then
    match env_tls_protocol env with
    | None =>
        aws_raise_error AWS_ERROR_INVALID_STATE ;;
        ret None
    | Some protocol =>
        if negb (Nat.eqb (String.length protocol) 0) then
          if aws_string_eq_byte_buf s_alpn_protocol_http_1_1 protocol then
            ret (Some AWS_HTTP_VERSION_1_1)
          else if aws_string_eq_byte_buf s_alpn_protocol_http_2 protocol then
            ret (Some AWS_HTTP_VERSION_2)
          else
            (* Unrecognized ALPN protocol. Assuming HTTP/1.1 *)
            ret (Some AWS_HTTP_VERSION_1_1)
        else
          ret (Some AWS_HTTP_VERSION_1_1)
    end
  else
    ret (Some AWS_HTTP_VERSION_1_1).

(** [s_connection_new]; the result is the new connection, or [None] for the
    C function's NULL.  The allocator and the window and HTTP/2 options are
    only handed on to the constructors. *)
Definition s_connection_new (ch : channel) (is_server is_using_tls : bool)
    (env : channel_env) : M (option conn_id) :=
  let* slot := collaborator (env_slot_new env) in
  if negb slot then ret None
  else
    let* inserted := collaborator (env_slot_insert_end env) in
    if negb inserted then emit (ev_channel_slot_remove ch) ;; ret None
    else
      let* version := determine_http_version is_using_tls env in
      match version with
      | None => emit (ev_channel_slot_remove ch) ;; ret None
      | Some (AWS_HTTP_VERSION_1_1 as version)
      | Some (AWS_HTTP_VERSION_2 as version) =>
          let* created := collaborator (env_connection_new env) in
          if negb created then emit (ev_channel_slot_remove ch) ;; ret None
          else
            let* connection := alloc_connection (connection_init version is_server ch) in
            let* installed := collaborator (env_slot_set_handler env) in
            if negb installed then
              (* the handler is destroyed here, or with the slot that holds it *)
              (if negb (env_slot_handler_stored env)
               then emit (ev_channel_handler_destroy connection)
               else ret tt) ;;
              free_connection connection ;;
              emit (ev_channel_slot_remove ch) ;;
              ret None
            else
              emit (ev_on_channel_handler_installed connection) ;;
              ret (Some connection)
      | Some _ =>
          aws_raise_error AWS_ERROR_HTTP_UNSUPPORTED_PROTOCOL ;;
          emit (ev_channel_slot_remove ch) ;;
          ret None
      end.

(** ** The server *)

(** [struct aws_http_server]; the last two fields are its [synced_data].
    The allocator, the bootstrap, the socket and the window options are only
    handed on to collaborators. *)
Record aws_http_server : Type := mk_server {
  srv_is_using_tls : bool;
  srv_user_data : ptr;
  srv_on_incoming_connection : fn_ptr;
  srv_on_destroy_complete : option fn_ptr;
  is_shutting_down : bool;
  channel_to_connection_map : gmap channel conn_id;
}.

Definition set_is_shutting_down (b : bool) (s : aws_http_server) :=
  mk_server (srv_is_using_tls s) (srv_user_data s) (srv_on_incoming_connection s)
            (srv_on_destroy_complete s) b (channel_to_connection_map s).

Definition set_channel_to_connection_map (m : gmap channel conn_id)
    (s : aws_http_server) :=
  mk_server (srv_is_using_tls s) (srv_user_data s) (srv_on_incoming_connection s)
            (srv_on_destroy_complete s) (is_shutting_down s) m.

Definition s_server_lock_synced_data : M unit := emit ev_server_lock.
Definition s_server_unlock_synced_data : M unit := emit ev_server_unlock.

(** The label [error:] of [s_server_bootstrap_on_accept_channel_setup], with
    the local variables it reads. *)
Definition accept_channel_setup_error (extern : foreign) (s : aws_http_server)
    (error_code : error_code) (user_cb_invoked : bool)
    (ch : option channel) (connection : option conn_id) : M unit :=
  let* error_code :=
    (if is_error error_code then ret error_code else aws_last_error) in
  (if user_cb_invoked then ret tt
   else
     invoke extern (call_on_incoming_connection (srv_on_incoming_connection s)
                      None error_code (srv_user_data s)) ;;
     ret tt) ;;
  match ch with
  | Some ch => emit (ev_channel_shutdown ch error_code)
  | None => ret tt
  end ;;
  match connection with
  | Some connection =>
      (* release the ref count for the user side *)
      aws_http_connection_release connection
  | None => ret tt
  end.

(** [s_server_bootstrap_on_accept_channel_setup]; [put] is the answer of
    [aws_hash_table_put].  Returns the server as the call leaves it. *)
Definition s_server_bootstrap_on_accept_channel_setup (extern : foreign)
    (s : aws_http_server) (error_code : error_code) (ch : option channel)
    (env : channel_env) (put : outcome) : M aws_http_server :=
  if is_error error_code then
    accept_channel_setup_error extern s error_code false ch None ;;
    ret s
  else
    match ch with
    | None => crash
    | Some ch =>
        let* connection := s_connection_new ch true (srv_is_using_tls s) env in
        match connection with
        | None =>
            accept_channel_setup_error extern s error_code false (Some ch) None ;;
            ret s
        | Some connection =>
            (* BEGIN CRITICAL SECTION *)
            s_server_lock_synced_data ;;
            let error_code :=
              if is_shutting_down s then AWS_ERROR_HTTP_CONNECTION_CLOSED
              else error_code in
            let* stored :=
              (if negb (is_error error_code) then collaborator put
               else ret true) in
            let s' :=
              if negb (is_error error_code) && stored then
                set_channel_to_connection_map
                  (<[ch := connection]> (channel_to_connection_map s)) s
              else s in
            s_server_unlock_synced_data ;;
            (* END CRITICAL SECTION *)
            if is_error error_code then
              accept_channel_setup_error extern s' error_code false
                (Some ch) (Some connection) ;;
              ret s'
            else if negb stored then
              accept_channel_setup_error extern s' error_code false
                (Some ch) (Some connection) ;;
              ret s'
            else
              (* Tell user of successful connection. *)
              invoke extern (call_on_incoming_connection
                               (srv_on_incoming_connection s') (Some connection)
                               AWS_ERROR_SUCCESS (srv_user_data s')) ;;
              let user_cb_invoked := true in
              let* c := deref connection in
              match server_data c with
              | None => crash
              | Some sd =>
                  match on_incoming_request sd with
                  | None =>
                      aws_raise_error AWS_ERROR_HTTP_REACTION_REQUIRED ;;
                      accept_channel_setup_error extern s' error_code
                        user_cb_invoked (Some ch) (Some connection) ;;
                      ret s'
                  | Some _ => ret s'
                  end
              end
        end
    end.

(** [s_http_server_clean_up]; the server is gone when it returns. *)
Definition s_http_server_clean_up (extern : foreign)
    (s : option aws_http_server) : M unit :=
  match s with
  | None => ret tt
  | Some s =>
      match srv_on_destroy_complete s with
      | Some f => invoke extern (call_on_destroy_complete f (srv_user_data s)) ;; ret tt
      | None => ret tt
      end ;;
      emit ev_mem_release_server
  end.

(** [s_server_bootstrap_on_accept_channel_shutdown] *)
Definition s_server_bootstrap_on_accept_channel_shutdown (extern : foreign)
    (s : aws_http_server) (error_code : error_code) (ch : channel)
  : M aws_http_server :=
  (* BEGIN CRITICAL SECTION *)
  s_server_lock_synced_data ;;
  let map_elem := channel_to_connection_map s !! ch in
  let s' := set_channel_to_connection_map (delete ch (channel_to_connection_map s)) s in
  s_server_unlock_synced_data ;;
  (* END CRITICAL SECTION *)
  match map_elem with
  | Some connection =>
      let* c := deref connection in
      match server_data c with
      | None => crash
      | Some sd =>
          match on_shutdown sd with
          | Some f =>
              invoke extern (call_connection_on_shutdown f connection error_code
                               (user_data c)) ;;
              ret s'
          | None => ret s'
          end
      end
  | None => ret s'
  end.

(** [s_server_bootstrap_on_server_listener_destroy] *)
Definition s_server_bootstrap_on_server_listener_destroy (extern : foreign)
    (s : aws_http_server) : M unit :=
  s_http_server_clean_up extern (Some s).

(** [struct aws_http_server_options]; a pointer that is only tested against
    NULL is kept as that test. *)
Record aws_http_server_options : Type := mk_server_options {
  so_self_size : Z;
  so_allocator : bool;
  so_bootstrap : bool;
  so_endpoint : bool;
  so_socket_options : bool;
  so_tls_options : bool;
  so_server_user_data : ptr;
  so_on_incoming_connection : option fn_ptr;
  so_on_destroy_complete : option fn_ptr;
}.

(** What the allocator, the mutex, the hash table and the listener answer
    while [aws_http_server_new] runs. *)
Record server_env : Type := mk_server_env {
  env_mem_calloc : outcome;
  env_mutex_init : outcome;
  env_hash_table_init : outcome;
  env_new_socket_listener : outcome;
}.

(** [aws_http_server_new] *)
Definition aws_http_server_new (options : option aws_http_server_options)
    (env : server_env) : M (option aws_http_server) :=
  match options with
  | None => aws_raise_error AWS_ERROR_INVALID_ARGUMENT ;; ret None
  | Some options =>
      match so_on_incoming_connection options with
      | None => aws_raise_error AWS_ERROR_INVALID_ARGUMENT ;; ret None
      | Some on_incoming_connection =>
          if (so_self_size options =? 0) || negb (so_allocator options)
             || negb (so_bootstrap options) || negb (so_socket_options options)
             || negb (so_endpoint options)
          then aws_raise_error AWS_ERROR_INVALID_ARGUMENT ;; ret None
          else
            let* allocated := collaborator (env_mem_calloc env) in
            if negb allocated then ret None
            else
              let s := mk_server (so_tls_options options)
                         (so_server_user_data options) on_incoming_connection
                         (so_on_destroy_complete options) false ∅ in
              let* mutex := collaborator (env_mutex_init env) in
              if negb mutex then emit ev_mem_release_server ;; ret None
              else
                let* table := collaborator (env_hash_table_init env) in
                if negb table then emit ev_mem_release_server ;; ret None
                else
                  (* Protect against callbacks firing before server->socket is set *)
                  s_server_lock_synced_data ;;
                  let* socket := collaborator (env_new_socket_listener env) in
                  s_server_unlock_synced_data ;;
                  if negb socket then emit ev_mem_release_server ;; ret None
                  else ret (Some s)
      end
  end.

(** The [for] loop of [aws_http_server_release] over the hash table. *)
Fixpoint shutdown_channels (chs : list (channel * conn_id)) : M unit :=
  match chs with
  | [] => ret tt
  | (ch, _) :: rest =>
      emit (ev_channel_shutdown ch AWS_ERROR_HTTP_CONNECTION_CLOSED) ;;
      shutdown_channels rest
  end.

(** [aws_http_server_release]; returns the server as the call leaves it. *)
Definition aws_http_server_release (s : option aws_http_server)
  : M (option aws_http_server) :=
  match s with
  | None => ret None
  | Some s =>
      (* BEGIN CRITICAL SECTION *)
      s_server_lock_synced_data ;;
      let already_shutting_down := is_shutting_down s in
      let s' := if already_shutting_down then s else set_is_shutting_down true s in
      (if negb already_shutting_down then
         (* shutdown all existing channels *)
         shutdown_channels (map_to_list (channel_to_connection_map s'))
       else ret tt) ;;
      s_server_unlock_synced_data ;;
      (* END CRITICAL SECTION *)
      if already_shutting_down then
        (* The service is already shutting down, not shutting it down again *)
        ret (Some s')
      else
        emit ev_destroy_socket_listener ;;
        ret (Some s')
  end.

(** [n] calls of [aws_http_server_release] on the same server. *)
Fixpoint server_release_times (n : nat) (s : aws_http_server)
  : M aws_http_server :=
  match n with
  | O => ret s
  | S n' =>
      let* r := aws_http_server_release (Some s) in
      match r with
      | Some s' => server_release_times n' s'
      | None => crash
      end
  end.

(** How often an event occurs in a trace. *)
Definition occurrences (P : event -> bool) (tr : list event) : nat :=
  length (List.filter P tr).

Definition is_destroy_socket_listener (ev : event) : bool :=
  match ev with ev_destroy_socket_listener => true | _ => false end.

Definition is_on_destroy_complete (ev : event) : bool :=
  match ev with ev_call (call_on_destroy_complete _ _) => true | _ => false end.

Definition is_channel_shutdown (ev : event) : bool :=
  match ev with ev_channel_shutdown _ _ => true | _ => false end.

Definition is_on_incoming_connection (ev : event) : bool :=
  match ev with ev_call (call_on_incoming_connection _ _ _ _) => true | _ => false end.

Definition get_trace : M (list event) := fun w => Some (trace w, w).

Fixpoint listener_destroyed (extern : foreign) (k : nat) (s : aws_http_server)
  : M unit :=
  match k with
  | O => ret tt
  | S k' =>
      s_server_bootstrap_on_server_listener_destroy extern s ;;
      listener_destroyed extern k' s
  end.

(** Modelled from the spec: the listener is a collaborator (aws-c-io).  Each
    request to destroy it ([aws_server_bootstrap_destroy_socket_listener]) is
    answered, once the listener is gone, by one destroy notification; the
    life of a server that is released [n] times is the [n] calls followed by
    these notifications. *)
Definition server_released (extern : foreign) (n : nat) (s : aws_http_server)
  : M unit :=
  let* before := get_trace in
  let* s' := server_release_times n s in
  let* after := get_trace in
  listener_destroyed extern
    (occurrences is_destroy_socket_listener after
     - occurrences is_destroy_socket_listener before)%nat s'.

(** ** The client bootstrap *)

(** [struct aws_http_client_bootstrap].  The monitoring options are kept as
    the answer of [aws_http_connection_monitoring_options_is_valid] on them. *)
Record aws_http_client_bootstrap : Type := mk_bootstrap {
  bs_is_using_tls : bool;
  bs_monitoring_options_is_valid : bool;
  bs_user_data : ptr;
  bs_on_setup : option fn_ptr;
  bs_on_shutdown : option fn_ptr;
  bs_proxy_request_transform : option fn_ptr;
  bs_connection : option conn_id;
}.

Definition set_bs_connection (c : option conn_id) (b : aws_http_client_bootstrap) :=
  mk_bootstrap (bs_is_using_tls b) (bs_monitoring_options_is_valid b)
               (bs_user_data b) (bs_on_setup b) (bs_on_shutdown b)
               (bs_proxy_request_transform b) c.

Definition set_bs_on_setup (f : option fn_ptr) (b : aws_http_client_bootstrap) :=
  mk_bootstrap (bs_is_using_tls b) (bs_monitoring_options_is_valid b)
               (bs_user_data b) f (bs_on_shutdown b)
               (bs_proxy_request_transform b) (bs_connection b).

(** A call through a function pointer that may be NULL. *)
Definition invoke_ptr (extern : foreign) (f : option fn_ptr)
    (c : fn_ptr -> call) : M unit :=
  match f with
  | Some f => invoke extern (c f) ;; ret tt
  | None => crash
  end.

(** [s_client_bootstrap_on_channel_setup]; [monitor] is the answer of
    [aws_crt_statistics_handler_new_http_connection_monitor].  Returns the
    bootstrap as the call leaves it, [None] once its memory is released. *)
Definition s_client_bootstrap_on_channel_setup (extern : foreign)
    (http_bootstrap : aws_http_client_bootstrap) (error_code : error_code)
    (ch : option channel) (env : channel_env) (monitor : outcome)
  : M (option aws_http_client_bootstrap) :=
  (* Contract for setup callbacks is: channel is NULL if error_code is non-zero. *)
  aws_assert (eqb (is_error error_code)
                  (match ch with None => true | Some _ => false end)) ;;
  if is_error error_code then
    (* Immediately tell user of failed connection.
       No channel exists, so there will be no channel_shutdown callback. *)
    invoke_ptr extern (bs_on_setup http_bootstrap)
      (fun f => call_on_setup f None error_code (bs_user_data http_bootstrap)) ;;
    (* Clean up the http_bootstrap, it has no more work to do. *)
    emit ev_mem_release_bootstrap ;;
    ret None
  else
    match ch with
    | None => crash
    | Some ch =>
        let* connection :=
          s_connection_new ch false (bs_is_using_tls http_bootstrap) env in
        let http_bootstrap := set_bs_connection connection http_bootstrap in
        let error :=
          (* Something went wrong. Invoke channel shutdown. Then wait for
             channel shutdown to complete before informing the user that
             setup failed and cleaning up the http_bootstrap. *)
          let* e := aws_last_error in
          emit (ev_channel_shutdown ch e) ;;
          ret (Some http_bootstrap) in
        match connection with
        | None => error
        | Some connection =>
            let* monitored :=
              (if bs_monitoring_options_is_valid http_bootstrap
               then collaborator monitor else ret true) in
            if negb monitored then error
            else
              (if bs_monitoring_options_is_valid http_bootstrap
               then emit (ev_channel_set_statistics_handler ch) else ret tt) ;;
              let* c := deref connection in
              store connection
                (set_user_data (bs_user_data http_bootstrap)
                   (set_proxy_request_transform
                      (bs_proxy_request_transform http_bootstrap) c)) ;;
              (* Tell user of successful connection.
                 Then clear the on_setup callback so that we know it's been
                 called *)
              invoke_ptr extern (bs_on_setup http_bootstrap)
                (fun f => call_on_setup f (Some connection) AWS_ERROR_SUCCESS
                            (bs_user_data http_bootstrap)) ;;
              ret (Some (set_bs_on_setup None http_bootstrap))
        end
    end.

(** [s_client_bootstrap_on_channel_shutdown]; the bootstrap is released when
    it returns. *)
Definition s_client_bootstrap_on_channel_shutdown (extern : foreign)
    (http_bootstrap : aws_http_client_bootstrap) (error_code : error_code)
  : M unit :=
  match bs_on_setup http_bootstrap with
  | Some on_setup =>
      (* make super duper sure that failed setup receives a non-zero error_code *)
      let error_code :=
        if negb (is_error error_code) then AWS_ERROR_UNKNOWN else error_code in
      invoke extern (call_on_setup on_setup None error_code
                       (bs_user_data http_bootstrap)) ;;
      ret tt
  | None =>
      match bs_on_shutdown http_bootstrap with
      | Some on_shutdown =>
          invoke extern (call_on_shutdown on_shutdown (bs_connection http_bootstrap)
                           error_code (bs_user_data http_bootstrap)) ;;
          ret tt
      | None => ret tt
      end
  end ;;
  emit ev_mem_release_bootstrap.

(** [struct aws_http_client_connection_options]; a pointer that is only
    tested against NULL is kept as that test.  [co_http2_options] holds
    [num_initial_settings] and whether [initial_settings_array] is non-NULL;
    [co_monitoring_options] holds the answer of
    [aws_http_connection_monitoring_options_is_valid]. *)
Record aws_http_client_connection_options : Type := mk_client_options {
  co_self_size : Z;
  co_allocator : bool;
  co_host_name : string;
  co_socket_options : bool;
  co_tls_options : bool;
  co_user_data : ptr;
  co_on_setup : option fn_ptr;
  co_on_shutdown : option fn_ptr;
  co_http2_options : option (Z * bool);
  co_monitoring_options : option bool;
  co_proxy_options : bool;
}.

(** [s_validate_http_client_connection_options] *)
Definition s_validate_http_client_connection_options
    (options : option aws_http_client_connection_options) : M Z :=
  match options with
  | None => aws_raise_error AWS_ERROR_INVALID_ARGUMENT
  | Some options =>
      (* AWS_HTTP2_CONNECTION_OPTIONS_INIT: no initial settings *)
      let http2_options :=
        match co_http2_options options with
        | Some o => o
        | None => (0, false)
        end in
      if co_self_size options =? 0 then
        aws_raise_error AWS_ERROR_INVALID_ARGUMENT
      else if negb (co_allocator options) then
        aws_raise_error AWS_ERROR_INVALID_ARGUMENT
      else if Nat.eqb (String.length (co_host_name options)) 0 then
        aws_raise_error AWS_ERROR_INVALID_ARGUMENT
      else if negb (co_socket_options options) then
        aws_raise_error AWS_ERROR_INVALID_ARGUMENT
      else if match co_on_setup options with None => true | Some _ => false end then
        aws_raise_error AWS_ERROR_INVALID_ARGUMENT
      else if negb (fst http2_options =? 0) && negb (snd http2_options) then
        aws_raise_error AWS_ERROR_INVALID_ARGUMENT
      else if match co_monitoring_options options with
              | Some valid => negb valid
              | None => false
              end then
        aws_raise_error AWS_ERROR_INVALID_ARGUMENT
      else ret AWS_OP_SUCCESS
  end.

(** What the allocator and the transport answer while
    [aws_http_client_connect_internal] runs. *)
Record connect_env : Type := mk_connect_env {
  env_string_new : outcome;          (* aws_string_new_from_array *)
  env_mem_acquire_many : outcome;    (* aws_mem_acquire_many *)
  env_new_socket_channel : outcome;  (* s_system_vtable_ptr->new_socket_channel *)
}.

(** [aws_http_client_connect_internal]; returns, next to the C result, the
    bootstrap that was handed to the transport as [user_data]. *)
Definition aws_http_client_connect_internal
    (options : option aws_http_client_connection_options)
    (proxy_request_transform : option fn_ptr) (env : connect_env)
  : M (Z * option aws_http_client_bootstrap) :=
  let* invalid := s_validate_http_client_connection_options options in
  if negb (invalid =? 0) then ret (AWS_OP_ERR, None)
  else
    match options with
    | None => crash
    | Some options =>
        aws_assert (negb (co_proxy_options options)) ;;
        let* host_name := collaborator (env_string_new env) in
        if negb host_name then ret (AWS_OP_ERR, None)
        else
          let* acquired := collaborator (env_mem_acquire_many env) in
          if negb acquired then ret (AWS_OP_ERR, None)
          else
            let http_bootstrap :=
              mk_bootstrap (co_tls_options options)
                (match co_monitoring_options options with
                 | Some valid => valid
                 | None => false
                 end)
                (co_user_data options) (co_on_setup options)
                (co_on_shutdown options) proxy_request_transform None in
            let* started := collaborator (env_new_socket_channel env) in
            if negb started then
              emit ev_mem_release_bootstrap ;;
              ret (AWS_OP_ERR, None)
            else ret (AWS_OP_SUCCESS, Some http_bootstrap)
    end.

(** What the transport does with one connect attempt. *)
Inductive transport_outcome : Type :=
  (* no channel could be set up *)
  | transport_failure (e : error_code)
  (* a channel was set up; later it shuts down for [reason] *)
  | transport_success (ch : channel) (env : channel_env) (monitor : outcome)
                      (reason : error_code).

(** Modelled from the spec: the channel bootstrap is a collaborator
    (aws-c-io).  It calls the setup callback once and, when it did set up a
    channel, calls the shutdown callback once, after that channel has shut
    down. *)
Definition client_connect_attempt (extern : foreign)
    (http_bootstrap : aws_http_client_bootstrap) (t : transport_outcome)
  : M unit :=
  match t with
  | transport_failure e =>
      s_client_bootstrap_on_channel_setup extern http_bootstrap e None
        (mk_channel_env ok ok None ok ok false) ok ;;
      ret tt
  | transport_success ch env monitor reason =>
      let* b := s_client_bootstrap_on_channel_setup extern http_bootstrap
                  AWS_ERROR_SUCCESS (Some ch) env monitor in
      match b with
      | Some b => s_client_bootstrap_on_channel_shutdown extern b reason
      | None => crash
      end
  end.

(** [on_setup] calls, split by what they report, and [on_shutdown] calls. *)
Definition is_on_setup (ev : event) : bool :=
  match ev with ev_call (call_on_setup _ _ _ _) => true | _ => false end.

Definition is_on_setup_success (ev : event) : bool :=
  match ev with
  | ev_call (call_on_setup _ (Some _) AWS_ERROR_SUCCESS _) => true
  | _ => false
  end.

Definition is_on_setup_zero_failure (ev : event) : bool :=
  match ev with
  | ev_call (call_on_setup _ None AWS_ERROR_SUCCESS _) => true
  | _ => false
  end.

Definition is_on_shutdown (ev : event) : bool :=
  match ev with ev_call (call_on_shutdown _ _ _ _) => true | _ => false end.

(** ** Worlds used in the statements *)

(** The world [w] with the connection object at [connection] replaced. *)
Definition with_connection (connection : conn_id) (c : aws_http_connection)
    (w : world) : world :=
  mk_world (last_error w) (<[connection := c]> (heap w)) (trace w).

(** The world [w] after an error was raised. *)
Definition with_last_error (e : error_code) (w : world) : world :=
  mk_world e (heap w) (trace w).

(** The world [w] after more events. *)
Definition with_events (evs : list event) (w : world) : world :=
  mk_world (last_error w) (heap w) (trace w ++ evs).

(** ** Sample objects *)

(** A client connection as the HTTP/1.1 constructor leaves it, on channel 7,
    alone in the heap at address 1. *)
Definition sample_client : aws_http_connection :=
  connection_init AWS_HTTP_VERSION_1_1 false 7%positive.

Definition sample_client_world : world :=
  mk_world AWS_ERROR_SUCCESS {[ 1%positive := sample_client ]} [].

(** A client connection that has handed out every stream id. *)
Definition sample_exhausted_client : aws_http_connection :=
  set_next_stream_id (2 ^ 31 + 1) sample_client.

Definition sample_exhausted_world : world :=
  mk_world AWS_ERROR_SUCCESS {[ 1%positive := sample_exhausted_client ]} [].

(** A server connection as the HTTP/1.1 constructor leaves it, on channel 7,
    alone in the heap at address 1. *)
Definition sample_server_connection : aws_http_connection :=
  connection_init AWS_HTTP_VERSION_1_1 true 7%positive.

Definition sample_server_world : world :=
  mk_world AWS_ERROR_SUCCESS {[ 1%positive := sample_server_connection ]} [].

(** Foreign code that does nothing and returns 0. *)
Definition extern_idle : foreign := fun _ m => (0, m).

(** Options with a request handler (valid) and without one (invalid). *)
Definition sample_options : aws_http_server_connection_options :=
  mk_server_connection_options 100 (Some 11%positive) (Some 12%positive).

Definition sample_options_no_handler : aws_http_server_connection_options :=
  mk_server_connection_options 100 None (Some 12%positive).

(** The connection object [c] after [aws_http_connection_configure_server]
    stored [options], whose request handler is [handler]. *)
Definition configured (options : aws_http_server_connection_options)
    (handler : fn_ptr) (c : aws_http_connection) : aws_http_connection :=
  set_role (server (mk_server_data (Some handler) (opt_on_shutdown options)))
    (set_user_data (connection_user_data options) c).

(** The version [s_connection_new] settles on when the TLS handler, if TLS
    is in use, reports [protocol]. *)
Definition version_for (is_using_tls : bool) (protocol : string)
  : aws_http_version :=
  if is_using_tls && String.eqb s_alpn_protocol_http_2 protocol
  then AWS_HTTP_VERSION_2 else AWS_HTTP_VERSION_1_1.

(** The world after [s_connection_new] succeeded with [version]: one new
    object at a fresh address, and its installation hook called. *)
Definition with_new_connection (version : aws_http_version) (is_server : bool)
    (ch : channel) (w : world) : world :=
  let a := fresh (dom (heap w)) in
  mk_world (last_error w)
           (<[a := connection_init version is_server ch]> (heap w))
           (trace w ++ [ev_on_channel_handler_installed a]).

(** A channel on which everything succeeds, without and with TLS. *)
Definition env_plain : channel_env := mk_channel_env ok ok None ok ok false.

Definition env_tls (protocol : string) : channel_env :=
  mk_channel_env ok ok (Some protocol) ok ok false.

(** ** Outcomes of the accept path, for the statements *)

(** The error [s_connection_new] fails with on a channel that answers
    [env], [None] when it succeeds. *)
Definition construction_error (is_using_tls : bool) (env : channel_env)
  : option error_code :=
  match env_slot_new env, env_slot_insert_end env with
  | fails e, _ => Some e
  | ok, fails e => Some e
  | ok, ok =>
      match is_using_tls, env_tls_protocol env with
      | true, None => Some AWS_ERROR_INVALID_STATE
      | _, _ =>
          match env_connection_new env, env_slot_set_handler env with
          | fails e, _ => Some e
          | ok, fails e => Some e
          | ok, ok => None
          end
      end
  end.

(** The error the registration of a new connection in the server's map
    fails with, [None] when the connection is registered. *)
Definition registration_error (s : aws_http_server) (put : outcome)
  : option error_code :=
  if is_shutting_down s then Some AWS_ERROR_HTTP_CONNECTION_CLOSED
  else match put with
       | fails e => Some e
       | ok => None
       end.

(** The events by which [s_connection_new] undoes what it has built. *)
Definition is_rollback (ev : event) : bool :=
  match ev with
  | ev_channel_slot_remove _ | ev_channel_handler_destroy _ => true
  | _ => false
  end.

(** The events of [aws_http_connection_release] on a connection object. *)
Definition release_events (c : aws_http_connection) : list event :=
  if decide (refcount c = 1) then
    [ev_channel_shutdown (channel_slot c) AWS_ERROR_SUCCESS;
     ev_channel_release_hold (channel_slot c)]
  else [].

(** The memory that foreign code sees in [w], and what it leaves. *)
Definition memory_of (w : world) : memory := (last_error w, heap w).

Definition extern_memory (extern : foreign) (c : call) (w : world) : memory :=
  snd (extern c (memory_of w)).

(** The protocol string that decides the version on a channel that answers
    [env]. *)
Definition reported_protocol (env : channel_env) : string :=
  match env_tls_protocol env with
  | Some protocol => protocol
  | None => ""
  end.

(** The failure call of the server's [on_incoming_connection]. *)
Definition incoming_connection_failed (s : aws_http_server) (e : error_code)
  : call :=
  call_on_incoming_connection (srv_on_incoming_connection s) None e
    (srv_user_data s).

(** The success call of the server's [on_incoming_connection]. *)
Definition incoming_connection_established (s : aws_http_server)
    (connection : conn_id) : call :=
  call_on_incoming_connection (srv_on_incoming_connection s) (Some connection)
    AWS_ERROR_SUCCESS (srv_user_data s).

(** A server that listens without TLS, with no connection yet, running and
    shutting down. *)
Definition sample_server : aws_http_server :=
  mk_server false 300 21%positive (Some 22%positive) false ∅.

Definition sample_server_shutting_down : aws_http_server :=
  set_is_shutting_down true sample_server.

Definition empty_world : world := mk_world AWS_ERROR_SUCCESS ∅ [].

(** [w'] continues the trace of [w] with [n] calls of
    [on_incoming_connection] among the new events. *)
Definition calls_incoming_connection (n : nat) (w w' : world) : Prop :=
  exists evs, trace w' = trace w ++ evs
              /\ occurrences is_on_incoming_connection evs = n.

(** ** Events of a server release, for the statements *)

(** One shutdown request, with [AWS_ERROR_HTTP_CONNECTION_CLOSED], per entry
    of the map. *)
Definition broadcast_events (m : gmap channel conn_id) : list event :=
  (fun kv => ev_channel_shutdown (fst kv) AWS_ERROR_HTTP_CONNECTION_CLOSED)
    <$> map_to_list m.

(** The release that starts the shutdown. *)
Definition first_release_events (m : gmap channel conn_id) : list event :=
  [ev_server_lock] ++ broadcast_events m
  ++ [ev_server_unlock; ev_destroy_socket_listener].

(** [n] releases of a server that is already shutting down: each takes and
    drops the lock. *)
Fixpoint later_release_events (n : nat) : list event :=
  match n with
  | O => []
  | S n' => ev_server_lock :: ev_server_unlock :: later_release_events n'
  end.

(** The call of the server's [on_destroy_complete], if it has one. *)
Definition destroy_complete_events (s : aws_http_server) : list event :=
  match srv_on_destroy_complete s with
  | Some f => [ev_call (call_on_destroy_complete f (srv_user_data s))]
  | None => []
  end.

(** A running server with two connections in its map and no
    [on_destroy_complete]. *)
Definition sample_server_quiet : aws_http_server :=
  mk_server false 300 21%positive None false
    (<[7%positive := 1%positive]> (<[8%positive := 2%positive]> ∅)).

(** ** Outcomes of a connect attempt, for the statements *)

(** The error that the setup of a client connection fails with after the
    transport succeeded, [None] when [on_setup] reports success. *)
Definition setup_error (b : aws_http_client_bootstrap) (env : channel_env)
    (monitor : outcome) : option error_code :=
  match construction_error (bs_is_using_tls b) env with
  | Some e => Some e
  | None =>
      if bs_monitoring_options_is_valid b then
        match monitor with
        | fails e => Some e
        | ok => None
        end
      else None
  end.

(** An [on_setup] call that reports failure, with a non-zero code. *)
Definition is_on_setup_failure (ev : event) : bool :=
  match ev with
  | ev_call (call_on_setup _ None e _) => is_error e
  | _ => false
  end.

(** The contract of the transport: a failed setup comes with a non-zero
    code. *)
Definition transport_contract (t : transport_outcome) : bool :=
  match t with
  | transport_failure e => is_error e
  | transport_success _ _ _ _ => true
  end.

(** Whether [on_setup] reports success for a connect attempt. *)
Definition setup_succeeds (b : aws_http_client_bootstrap)
    (t : transport_outcome) : bool :=
  match t with
  | transport_failure _ => false
  | transport_success _ env monitor _ =>
      match setup_error b env monitor with
      | None => true
      | Some _ => false
      end
  end.

(** The code that [on_setup] reports when the channel shut down for
    [reason] before [on_setup] was called. *)
Definition setup_failure_code (reason : error_code) : error_code :=
  if is_error reason then reason else AWS_ERROR_UNKNOWN.

(** The events of a successful setup, after [s_connection_new]. *)
Definition statistics_events (b : aws_http_client_bootstrap) (ch : channel)
  : list event :=
  if bs_monitoring_options_is_valid b
  then [ev_channel_set_statistics_handler ch] else [].

Definition on_shutdown_events (b : aws_http_client_bootstrap)
    (connection : option conn_id) (reason : error_code) : list event :=
  match bs_on_shutdown b with
  | Some g => [ev_call (call_on_shutdown g connection reason (bs_user_data b))]
  | None => []
  end.

(** A bootstrap with both callbacks, and one without [on_shutdown]. *)
Definition sample_bootstrap : aws_http_client_bootstrap :=
  mk_bootstrap false false 400 (Some 31%positive) (Some 32%positive) None None.

Definition sample_bootstrap_no_shutdown : aws_http_client_bootstrap :=
  mk_bootstrap false false 400 (Some 31%positive) None None None.

(** The events of [s_connection_new], on success or failure. *)
Definition is_construction (ev : event) : bool :=
  match ev with
  | ev_channel_slot_remove _ | ev_channel_handler_destroy _
  | ev_on_channel_handler_installed _ => true
  | _ => false
  end.

(** Options as a caller may pass them: a server without
    [on_destroy_complete], a client without [on_shutdown]. *)
Definition sample_server_options : aws_http_server_options :=
  mk_server_options 64 true true true true false 300 (Some 21%positive) None.

Definition sample_client_options : aws_http_client_connection_options :=
  mk_client_options 64 true "example.com" true false 400
    (Some 31%positive) None None None false.

(** ** More of the file: queries and helpers for the statements *)

(** [aws_http_connection_is_client] and [aws_http_connection_is_server]:
    whether [client_data], respectively [server_data], is non-NULL. *)
Definition aws_http_connection_is_client (c : aws_http_connection) : bool :=
  client_data c.

Definition aws_http_connection_is_server (c : aws_http_connection) : bool :=
  match server_data c with Some _ => true | None => false end.

(** [aws_http_connection_get_version] *)
Definition aws_http_connection_get_version (c : aws_http_connection)
  : aws_http_version :=
  http_version c.


(** The vtable entry an HTTP/2-only entry point dispatches to, and whether
    that entry is [void] (the entry point then returns [AWS_OP_SUCCESS]). *)
Definition vtable_op_of (e : h2_entry) : vtable_op :=
  match e with
  | change_settings a f u => vt_change_settings a f u
  | ping d f u => vt_send_ping d f u
  | send_goaway e a d => vt_send_goaway e a d
  | get_sent_goaway p q => vt_get_sent_goaway p q
  | get_received_goaway p q => vt_get_received_goaway p q
  | get_local_settings p => vt_get_local_settings p
  | get_remote_settings p => vt_get_remote_settings p
  end.

Definition h2_entry_is_void (e : h2_entry) : bool :=
  match e with
  | get_local_settings _ | get_remote_settings _ => true
  | _ => false
  end.

(** A connection as the HTTP/2 client constructor leaves it, on channel 7,
    alone in the heap at address 1. *)
Definition sample_h2_client : aws_http_connection :=
  connection_init AWS_HTTP_VERSION_2 false 7%positive.

Definition sample_h2_world : world :=
  mk_world AWS_ERROR_SUCCESS {[ 1%positive := sample_h2_client ]} [].

(** A vtable whose every entry returns 5. *)
Definition extern_five : foreign := fun _ m => (5, m).

(** The test that opens [aws_http_server_new]. *)
Definition server_options_valid (options : option aws_http_server_options)
  : bool :=
  match options with
  | None => false
  | Some o =>
      negb (so_self_size o =? 0) && so_allocator o && so_bootstrap o
      && so_socket_options o && so_endpoint o
      && match so_on_incoming_connection o with Some _ => true | None => false end
  end.

Definition is_ok (o : outcome) : bool :=
  match o with ok => true | fails _ => false end.

Definition is_mem_release_server (ev : event) : bool :=
  match ev with ev_mem_release_server => true | _ => false end.

Definition is_server_lock (ev : event) : bool :=
  match ev with ev_server_lock => true | _ => false end.

Definition is_server_unlock (ev : event) : bool :=
  match ev with ev_server_unlock => true | _ => false end.

Definition is_call (ev : event) : bool :=
  match ev with ev_call _ => true | _ => false end.

(** A user of the server who configures every connection it is told about,
    with [sample_options], inside [on_incoming_connection]. *)
Definition extern_configure : foreign :=
  fun cl m =>
    match cl with
    | call_on_incoming_connection _ (Some a) _ _ =>
        match aws_http_connection_configure_server (Some a) (Some sample_options)
                (mk_world (fst m) (snd m) []) with
        | Some (r, w') => (r, (last_error w', heap w'))
        | None => (0, m)
        end
    | _ => (0, m)
    end.

(** ** Shapes of traces, for the statements *)

(** What the file tells the user or the channel about a connection. *)
Definition is_notification (ev : event) : bool :=
  match ev with
  | ev_call _ | ev_channel_shutdown _ _ | ev_channel_release_hold _ => true
  | _ => false
  end.

(** [w'] continues the trace of [w] with events that all satisfy [P]. *)
Definition appends (P : event -> bool) (w w' : world) : Prop :=
  exists evs, trace w' = trace w ++ evs /\ forallb P evs = true.

(** The discipline of the server's lock over a trace: the lock is not taken
    twice, not dropped unless held, and no user callback or vtable entry
    runs while it is held.  [Some held] is the state of the lock at the end,
    [None] a violation. *)
Fixpoint lock_discipline (held : bool) (evs : list event) : option bool :=
  match evs with
  | [] => Some held
  | ev_server_lock :: rest =>
      if held then None else lock_discipline true rest
  | ev_server_unlock :: rest =>
      if held then lock_discipline false rest else None
  | ev_call _ :: rest =>
      if held then None else lock_discipline false rest
  | _ :: rest => lock_discipline held rest
  end.

Definition is_lock_event (ev : event) : bool :=
  match ev with ev_server_lock | ev_server_unlock => true | _ => false end.

(** What happens to a server: it is released, a channel is accepted (or
    fails to be), a channel has shut down. *)
Inductive server_op : Type :=
  | op_server_release
  | op_accept_channel_setup (error_code : error_code) (ch : option channel)
                            (env : channel_env) (put : outcome)
  | op_accept_channel_shutdown (error_code : error_code) (ch : channel).

Definition run_server_op (extern : foreign) (op : server_op)
    (s : aws_http_server) : M aws_http_server :=
  match op with
  | op_server_release =>
      let* r := aws_http_server_release (Some s) in
      match r with
      | Some s' => ret s'
      | None => crash
      end
  | op_accept_channel_setup error_code ch env put =>
      s_server_bootstrap_on_accept_channel_setup extern s error_code ch env put
  | op_accept_channel_shutdown error_code ch =>
      s_server_bootstrap_on_accept_channel_shutdown extern s error_code ch
  end.

Fixpoint run_server_ops (extern : foreign) (ops : list server_op)
    (s : aws_http_server) : M aws_http_server :=
  match ops with
  | [] => ret s
  | op :: rest =>
      let* s' := run_server_op extern op s in
      run_server_ops extern rest s'
  end.

Definition is_server_release (op : server_op) : bool :=
  match op with op_server_release => true | _ => false end.

(** A life of [sample_server] with a user who configures its connections:
    a channel is accepted, the server is released, another channel arrives
    and is turned away, the server is released again, the first channel
    shuts down. *)
Definition sample_server_life : list server_op :=
  [op_accept_channel_setup AWS_ERROR_SUCCESS (Some 7%positive) env_plain ok;
   op_server_release;
   op_accept_channel_setup AWS_ERROR_SUCCESS (Some 8%positive) env_plain ok;
   op_server_release;
   op_accept_channel_shutdown AWS_ERROR_HTTP_CONNECTION_CLOSED 7%positive].

(** The conditions that [s_validate_http_client_connection_options] asks
    for, together. *)
Definition client_options_valid
    (options : option aws_http_client_connection_options) : bool :=
  match options with
  | None => false
  | Some o =>
      negb (co_self_size o =? 0)
      && co_allocator o
      && negb (Nat.eqb (String.length (co_host_name o)) 0)
      && co_socket_options o
      && match co_on_setup o with Some _ => true | None => false end
      && match co_http2_options o with
         | Some (num, array) => (num =? 0) || array
         | None => true
         end
      && match co_monitoring_options o with
         | Some valid => valid
         | None => true
         end
  end.

Definition is_mem_release_bootstrap (ev : event) : bool :=
  match ev with ev_mem_release_bootstrap => true | _ => false end.

(** Options whose monitoring options are present and malformed. *)
Definition sample_client_options_bad_monitor
  : aws_http_client_connection_options :=
  mk_client_options 64 true "example.com" true false 400
    (Some 31%positive) None None (Some false) false.

(** * Properties *)

(** ** Reasoning about computations *)

Lemma bind_Some {A B} (m : M A) (k : A -> M B) w a w' :
  m w = Some (a, w') -> bind m k w = k a w'.
Proof. intros H. unfold bind. now rewrite H. Qed.

Lemma bind_None {A B} (m : M A) (k : A -> M B) w :
  m w = None -> bind m k w = None.
Proof. intros H. unfold bind. now rewrite H. Qed.

Lemma deref_Some connection c w :
  heap w !! connection = Some c -> deref connection w = Some (c, w).
Proof. intros H. unfold deref. now rewrite H. Qed.

Lemma world_eta w : mk_world (last_error w) (heap w) (trace w) = w.
Proof. now destruct w. Qed.

Lemma invoke_spec extern c w :
  invoke extern c w
  = Some (fst (extern c (memory_of w)),
          mk_world (fst (extern_memory extern c w))
                   (snd (extern_memory extern c w))
                   (trace w ++ [ev_call c])).
Proof.
  unfold invoke, extern_memory, memory_of.
  now destruct (extern c (last_error w, heap w)) as [r [e h]].
Qed.

(** Equations that run a computation one step at a time. *)
Lemma bind_ret {A B} (a : A) (k : A -> M B) w : bind (ret a) k w = k a w.
Proof. reflexivity. Qed.

Lemma bind_bind {A B C} (m : M A) (k1 : A -> M B) (k2 : B -> M C) w :
  bind (bind m k1) k2 w = bind m (fun a => bind (k1 a) k2) w.
Proof. unfold bind. now destruct (m w) as [[a w1] |]. Qed.

Lemma bind_emit {B} ev (k : unit -> M B) w :
  bind (emit ev) k w = k tt (with_events [ev] w).
Proof. reflexivity. Qed.

Lemma bind_raise {B} e (k : Z -> M B) w :
  bind (aws_raise_error e) k w = k AWS_OP_ERR (with_last_error e w).
Proof. reflexivity. Qed.

Lemma bind_last_error {B} (k : error_code -> M B) w :
  bind aws_last_error k w = k (last_error w) w.
Proof. reflexivity. Qed.

Lemma bind_invoke {B} extern c (k : Z -> M B) w :
  bind (invoke extern c) k w
  = k (fst (extern c (memory_of w)))
      (mk_world (fst (extern_memory extern c w))
                (snd (extern_memory extern c w))
                (trace w ++ [ev_call c])).
Proof. unfold bind. now rewrite invoke_spec. Qed.

Lemma bind_store {B} connection c (k : unit -> M B) w :
  bind (store connection c) k w = k tt (with_connection connection c w).
Proof. reflexivity. Qed.

Ltac mstep :=
  first [ rewrite bind_bind | rewrite bind_ret | rewrite bind_emit
        | rewrite bind_raise | rewrite bind_last_error | rewrite bind_invoke
        | rewrite bind_store ].

(** Brings a concatenation of event lists into right-nested form. *)
Ltac norm_app :=
  repeat first [rewrite <- app_assoc | rewrite <- app_comm_cons];
  cbn [app].

Lemma MAX_STREAM_ID_eq : MAX_STREAM_ID = 2 ^ 31 - 1.
Proof. reflexivity. Qed.

Lemma stream_id_capacity_eq : Z.of_nat stream_id_capacity = 2 ^ 30.
Proof. unfold stream_id_capacity. rewrite Z2Nat.id; lia. Qed.

#[global] Arguments stream_id_capacity : simpl never.
#[global] Opaque stream_id_capacity.

(** ** Stream ids *)

Lemma ids_from_S s n : ids_from s (S n) = s :: ids_from (s + 2) n.
Proof.
  unfold ids_from. rewrite <- cons_seq, <- seq_shift. simpl.
  rewrite map_map. f_equal; [lia |]. apply map_ext. intros k. lia.
Qed.

Lemma ids_from_lookup s n (i : nat) x :
  ids_from s n !! i = Some x -> x = s + 2 * Z.of_nat i /\ (i < n)%nat.
Proof.
  revert s i. induction n as [| n IH]; intros s i H.
  - discriminate.
  - rewrite ids_from_S in H. destruct i as [| i]; simpl in H.
    + inversion H. split; lia.
    + apply IH in H. lia.
Qed.

Lemma ids_from_length s n : length (ids_from s n) = n.
Proof. unfold ids_from. now rewrite length_map, length_seq. Qed.

Lemma ids_from_last s n :
  last (ids_from s (S n)) = Some (s + 2 * Z.of_nat n).
Proof.
  revert s. induction n as [| n IH]; intros s.
  - rewrite ids_from_S. simpl. f_equal. lia.
  - rewrite ids_from_S. rewrite ids_from_S. rewrite <- ids_from_S.
    change (last (s :: ids_from (s + 2) (S n))) with (last (ids_from (s + 2) (S n))).
    rewrite IH. f_equal. lia.
Qed.

Lemma set_next_stream_id_id c : set_next_stream_id (next_stream_id c) c = c.
Proof. now destruct c. Qed.

Lemma set_next_stream_id_twice a b c :
  set_next_stream_id a (set_next_stream_id b c) = set_next_stream_id a c.
Proof. reflexivity. Qed.

Lemma with_connection_id connection c w :
  heap w !! connection = Some c -> with_connection connection c w = w.
Proof.
  intros H. unfold with_connection. rewrite insert_id by exact H.
  apply world_eta.
Qed.

(** One call below the limit returns the counter and advances it by 2. *)
Lemma get_next_stream_id_valid connection c w :
  heap w !! connection = Some c ->
  0 <= next_stream_id c <= MAX_STREAM_ID ->
  aws_http_connection_get_next_stream_id connection w
  = Some (next_stream_id c,
          with_connection connection
            (set_next_stream_id (next_stream_id c + 2) c) w).
Proof.
  intros Hc Hr. unfold aws_http_connection_get_next_stream_id.
  rewrite (bind_Some _ _ _ _ _ (deref_Some _ _ _ Hc)).
  destruct (Z.ltb_spec MAX_STREAM_ID (next_stream_id c)) as [Hlt | _]; [lia |].
  unfold bind, store, ret, with_connection, uint32. simpl.
  rewrite Z.mod_small; [reflexivity |].
  rewrite MAX_STREAM_ID_eq in Hr. lia.
Qed.

(** One call above the limit returns 0, raises the error and stores nothing. *)
Lemma get_next_stream_id_exhausted connection c w :
  heap w !! connection = Some c ->
  MAX_STREAM_ID < next_stream_id c ->
  aws_http_connection_get_next_stream_id connection w
  = Some (0, with_last_error AWS_ERROR_HTTP_STREAM_IDS_EXHAUSTED w).
Proof.
  intros Hc Hr. unfold aws_http_connection_get_next_stream_id.
  rewrite (bind_Some _ _ _ _ _ (deref_Some _ _ _ Hc)).
  destruct (Z.ltb_spec MAX_STREAM_ID (next_stream_id c)) as [_ | Hle]; [| lia].
  reflexivity.
Qed.

(** [n] calls that all stay below the limit. *)
Lemma get_next_stream_ids_valid n : forall connection c w,
  heap w !! connection = Some c ->
  0 <= next_stream_id c ->
  next_stream_id c + 2 * Z.of_nat n <= MAX_STREAM_ID + 2 ->
  get_next_stream_ids n connection w
  = Some (ids_from (next_stream_id c) n,
          with_connection connection
            (set_next_stream_id (next_stream_id c + 2 * Z.of_nat n) c) w).
Proof.
  induction n as [| n IH]; intros connection c w Hc H0 Hn.
  - simpl. unfold ret. rewrite Z.add_0_r, set_next_stream_id_id.
    now rewrite with_connection_id.
  - cbn [get_next_stream_ids].
    rewrite (bind_Some _ _ _ _ _
               (get_next_stream_id_valid connection c w Hc ltac:(lia))).
    set (c' := set_next_stream_id (next_stream_id c + 2) c).
    assert (Hc' : heap (with_connection connection c' w) !! connection = Some c')
      by apply lookup_insert_eq.
    rewrite (bind_Some _ _ _ _ _
               (IH connection c' _ Hc' ltac:(simpl; lia) ltac:(simpl; lia))).
    unfold ret. rewrite ids_from_S. do 2 f_equal.
    unfold with_connection. simpl. rewrite insert_insert_eq.
    replace (next_stream_id c + 2 + 2 * Z.of_nat n)
      with (next_stream_id c + 2 * Z.of_nat (S n)) by lia.
    reflexivity.
Qed.

(** Calls in a row compose. *)
Lemma get_next_stream_ids_app n m connection w :
  get_next_stream_ids (n + m) connection w
  = (let* l1 := get_next_stream_ids n connection in
     let* l2 := get_next_stream_ids m connection in
     ret (l1 ++ l2)) w.
Proof.
  revert w. induction n as [| n IH]; intros w.
  - simpl. unfold bind, ret.
    destruct (get_next_stream_ids m connection w) as [[l w'] |]; reflexivity.
  - cbn [Nat.add get_next_stream_ids]. unfold bind.
    destruct (aws_http_connection_get_next_stream_id connection w)
      as [[id w1] |]; [| reflexivity].
    rewrite IH. unfold bind, ret.
    destruct (get_next_stream_ids n connection w1) as [[l1 w2] |]; [| reflexivity].
    destruct (get_next_stream_ids m connection w2) as [[l2 w3] |]; reflexivity.
Qed.

(** Once the counter is above the limit, every call returns 0 and the
    connection stays as it is. *)
Lemma get_next_stream_ids_exhausted n : forall connection c w,
  heap w !! connection = Some c ->
  MAX_STREAM_ID < next_stream_id c ->
  get_next_stream_ids (S n) connection w
  = Some (repeat 0 (S n), with_last_error AWS_ERROR_HTTP_STREAM_IDS_EXHAUSTED w).
Proof.
  induction n as [| n IH]; intros connection c w Hc Hlt.
  - cbn [get_next_stream_ids].
    rewrite (bind_Some _ _ _ _ _ (get_next_stream_id_exhausted _ _ _ Hc Hlt)).
    reflexivity.
  - remember (S n) as k. cbn [get_next_stream_ids].
    rewrite (bind_Some _ _ _ _ _ (get_next_stream_id_exhausted _ _ _ Hc Hlt)).
    subst k.
    rewrite (bind_Some _ _ _ _ _
               (IH connection c
                  (with_last_error AWS_ERROR_HTTP_STREAM_IDS_EXHAUSTED w) Hc Hlt)).
    reflexivity.
Qed.

Lemma ids_from_NoDup s n : NoDup (ids_from s n).
Proof.
  apply NoDup_alt. intros i j x Hi Hj.
  apply ids_from_lookup in Hi, Hj. lia.
Qed.

(** C3.  On a client connection whose next stream id is 1, [n] calls in a
    row, for every [n] up to (2^31 - 1)/2, return 1, 3, 5, ...: the call
    number [i] (from 0) returns [2i + 1], an odd value, and later calls
    return larger values.  The connection hands out 2^30 ids in this way,
    none of them twice; the last is [MAX_STREAM_ID], and the call after it
    returns 0 and raises [AWS_ERROR_HTTP_STREAM_IDS_EXHAUSTED]. *)
Theorem get_next_stream_id_fresh_client
    (w : world) (connection : conn_id) (c : aws_http_connection) :
  heap w !! connection = Some c ->
  next_stream_id c = 1 ->
  (forall n : nat, Z.of_nat n <= (2 ^ 31 - 1) / 2 ->
     exists ids w',
       get_next_stream_ids n connection w = Some (ids, w')
       /\ length ids = n
       /\ (forall (i : nat) x, ids !! i = Some x ->
             x = 2 * Z.of_nat i + 1 /\ Z.odd x = true /\ 0 < x <= MAX_STREAM_ID)
       /\ (forall (i j : nat) x y, (i < j)%nat ->
             ids !! i = Some x -> ids !! j = Some y -> x < y))
  /\ (exists ids w',
        get_next_stream_ids (stream_id_capacity + 1) connection w
        = Some (ids ++ [0], w')
        /\ length ids = stream_id_capacity
        /\ last ids = Some MAX_STREAM_ID
        /\ NoDup ids
        /\ last_error w' = AWS_ERROR_HTTP_STREAM_IDS_EXHAUSTED).
Proof.
  intros Hc H1. pose proof stream_id_capacity_eq as Hcap.
  pose proof MAX_STREAM_ID_eq as HM.
  assert (Hhalf : (2 ^ 31 - 1) / 2 = 2 ^ 30 - 1) by reflexivity.
  split.
  - intros n Hn. rewrite Hhalf in Hn.
    exists (ids_from 1 n). eexists. split; [| split; [| split]].
    + rewrite <- H1. apply get_next_stream_ids_valid; [exact Hc | lia | lia].
    + apply ids_from_length.
    + intros i x Hi. apply ids_from_lookup in Hi. destruct Hi as [-> Hi].
      split; [lia |]. split; [| lia].
      rewrite Z.odd_add_mul_2. reflexivity.
    + intros i j x y Hij Hi Hj. apply ids_from_lookup in Hi, Hj. lia.
  - exists (ids_from 1 stream_id_capacity). eexists.
    rewrite get_next_stream_ids_app.
    rewrite (bind_Some _ _ _ _ _
               (get_next_stream_ids_valid stream_id_capacity connection c w Hc
                  ltac:(lia) ltac:(lia))).
    set (c' := set_next_stream_id _ c).
    assert (Hc' : heap (with_connection connection c' w) !! connection = Some c')
      by apply lookup_insert_eq.
    rewrite (bind_Some _ _ _ _ _
               (get_next_stream_ids_exhausted 0 connection c' _ Hc'
                  ltac:(simpl; lia))).
    unfold ret. rewrite H1. split; [reflexivity |].
    split; [apply ids_from_length |].
    split; [| split; [apply ids_from_NoDup | reflexivity]].
    destruct stream_id_capacity as [| k]; [lia |].
    rewrite ids_from_last. f_equal. lia.
Qed.

Lemma get_next_stream_id_fresh_client_witness :
  heap sample_client_world !! 1%positive = Some sample_client
  /\ next_stream_id sample_client = 1
  /\ exists w', get_next_stream_ids 3 1%positive sample_client_world
                = Some ([1; 3; 5], w').
Proof.
  split; [reflexivity |]. split; [reflexivity |].
  destruct (get_next_stream_id_fresh_client sample_client_world 1%positive
              sample_client eq_refl eq_refl) as [H _].
  destruct (H 3%nat ltac:(vm_compute; discriminate)) as (ids & w' & Hrun & _).
  exists w'. rewrite Hrun. f_equal. f_equal.
  vm_compute in Hrun. now inversion Hrun.
Defined.

(** C10.  When the next stream id is above [MAX_STREAM_ID], a call returns 0
    and raises [AWS_ERROR_HTTP_STREAM_IDS_EXHAUSTED]; nothing else changes,
    the counter included, so any number of further calls do the same. *)
Theorem get_next_stream_id_exhausted_stable
    (w : world) (connection : conn_id) (c : aws_http_connection) :
  heap w !! connection = Some c ->
  MAX_STREAM_ID < next_stream_id c ->
  let w' := with_last_error AWS_ERROR_HTTP_STREAM_IDS_EXHAUSTED w in
  aws_http_connection_get_next_stream_id connection w = Some (0, w')
  /\ heap w' = heap w
  /\ trace w' = trace w
  /\ heap w' !! connection = Some c
  /\ forall n : nat,
       get_next_stream_ids (S n) connection w = Some (repeat 0 (S n), w').
Proof.
  intros Hc Hlt w'. split; [now apply get_next_stream_id_exhausted with c |].
  repeat split; try exact Hc.
  intros n. now apply get_next_stream_ids_exhausted with c.
Qed.

Lemma get_next_stream_id_exhausted_stable_witness :
  heap sample_exhausted_world !! 1%positive = Some sample_exhausted_client
  /\ MAX_STREAM_ID < next_stream_id sample_exhausted_client
  /\ get_next_stream_ids 3 1%positive sample_exhausted_world
     = Some ([0; 0; 0],
             with_last_error AWS_ERROR_HTTP_STREAM_IDS_EXHAUSTED
               sample_exhausted_world).
Proof.
  assert (H1 : heap sample_exhausted_world !! 1%positive
               = Some sample_exhausted_client) by reflexivity.
  assert (H2 : MAX_STREAM_ID < next_stream_id sample_exhausted_client)
    by reflexivity.
  split; [exact H1 |]. split; [exact H2 |].
  exact (proj2 (proj2 (proj2 (proj2
           (get_next_stream_id_exhausted_stable _ _ _ H1 H2)))) 2%nat).
Defined.

(** ** Reference counting *)

Lemma size_t_small z : 0 <= z < 2 ^ 64 -> size_t z = z.
Proof. intros H. unfold size_t. now apply Z.mod_small. Qed.

Lemma acquire_spec connection c w :
  heap w !! connection = Some c ->
  aws_http_connection_acquire connection w
  = Some (tt, with_connection connection
                (set_refcount (size_t (refcount c + 1)) c) w).
Proof.
  intros Hc. unfold aws_http_connection_acquire.
  now rewrite (bind_Some _ _ _ _ _ (deref_Some _ _ _ Hc)).
Qed.

Lemma release_last connection c w :
  heap w !! connection = Some c ->
  refcount c = 1 ->
  aws_http_connection_release connection w
  = Some (tt, with_events
                [ev_channel_shutdown (channel_slot c) AWS_ERROR_SUCCESS;
                 ev_channel_release_hold (channel_slot c)]
                (with_connection connection (set_refcount 0 c) w)).
Proof.
  intros Hc H1. unfold aws_http_connection_release.
  rewrite (bind_Some _ _ _ _ _ (deref_Some _ _ _ Hc)). rewrite H1.
  unfold bind, store, emit, with_events, with_connection. simpl.
  now rewrite <- app_assoc.
Qed.

Lemma release_not_last connection c w :
  heap w !! connection = Some c ->
  1 < refcount c < 2 ^ 64 ->
  aws_http_connection_release connection w
  = Some (tt, with_connection connection
                (set_refcount (refcount c - 1) c) w).
Proof.
  intros Hc Hr. unfold aws_http_connection_release.
  rewrite (bind_Some _ _ _ _ _ (deref_Some _ _ _ Hc)).
  destruct (Z.eqb_spec (refcount c) 1) as [? | _]; [lia |].
  destruct (Z.eqb_spec (refcount c) 0) as [? | _]; [lia |].
  unfold bind, store, aws_assert, ret, with_connection. simpl.
  rewrite size_t_small by lia. reflexivity.
Qed.

(** Calls that never bring the count to zero only change the count. *)
Lemma refcount_ops_quiet ops : forall connection c w,
  heap w !! connection = Some c ->
  0 < refcount c ->
  refcount c + Z.of_nat (length ops) < 2 ^ 64 ->
  stays_referenced (refcount c) ops = true ->
  run_refcount_ops ops connection w
  = Some (tt, with_connection connection
                (set_refcount (refcount_after_all (refcount c) ops) c) w).
Proof.
  induction ops as [| op ops IH]; intros connection c w Hc Hpos Hmax Hstay.
  - cbn. unfold ret.
    replace (set_refcount (refcount c) c) with c by now destruct c.
    now rewrite with_connection_id.
  - cbn [stays_referenced] in Hstay. apply andb_prop in Hstay.
    destruct Hstay as [Hop Hstay]. apply Z.ltb_lt in Hop.
    cbn [length] in Hmax.
    assert (Hstep : (match op with
                     | op_acquire => aws_http_connection_acquire connection
                     | op_release => aws_http_connection_release connection
                     end) w
                    = Some (tt, with_connection connection
                                  (set_refcount (refcount_after (refcount c) op) c) w)).
    { destruct op; cbn [refcount_after] in *.
      - rewrite (acquire_spec _ _ _ Hc), size_t_small by lia. reflexivity.
      - apply release_not_last; [exact Hc | lia]. }
    set (c' := set_refcount (refcount_after (refcount c) op) c) in *.
    assert (Hc' : heap (with_connection connection c' w) !! connection = Some c')
      by apply lookup_insert_eq.
    assert (Hrest := IH connection c' _ Hc'
                       ltac:(exact Hop)
                       ltac:(destruct op; cbn [refcount_after c' refcount set_refcount] in *; lia)
                       Hstay).
    destruct op; cbn [run_refcount_ops]; rewrite (bind_Some _ _ _ _ _ Hstep);
      rewrite Hrest; unfold with_connection; cbn;
      rewrite insert_insert_eq; reflexivity.
Qed.

(** C4.  [acquire] adds one to the reference count and [release] takes one
    away.  The [release] that brings the count to zero, and no other,
    requests the shutdown of the channel and then releases the channel's
    hold, in this order; [release] itself never destroys the connection
    object.  So over a sequence of calls that keeps the count above zero and
    a last [release] that brings it to zero, only that last call acts on the
    channel. *)
Theorem connection_acquire_release
    (w : world) (connection : conn_id) (c : aws_http_connection) :
  heap w !! connection = Some c ->
  0 < refcount c < 2 ^ 64 - 1 ->
  aws_http_connection_acquire connection w
  = Some (tt, with_connection connection (set_refcount (refcount c + 1) c) w)
  /\ (exists w',
        aws_http_connection_release connection w = Some (tt, w')
        /\ heap w' = <[connection := set_refcount (refcount c - 1) c]> (heap w)
        /\ last_error w' = last_error w
        /\ (if decide (refcount c - 1 = 0) then
              trace w' = trace w
                         ++ [ev_channel_shutdown (channel_slot c) AWS_ERROR_SUCCESS;
                             ev_channel_release_hold (channel_slot c)]
            else trace w' = trace w))
  /\ (forall ops,
        refcount c + Z.of_nat (length ops) < 2 ^ 64 ->
        stays_referenced (refcount c) ops = true ->
        refcount_after_all (refcount c) ops = 1 ->
        exists w1 w',
          run_refcount_ops ops connection w = Some (tt, w1)
          /\ trace w1 = trace w
          /\ aws_http_connection_release connection w1 = Some (tt, w')
          /\ trace w' = trace w
                        ++ [ev_channel_shutdown (channel_slot c) AWS_ERROR_SUCCESS;
                            ev_channel_release_hold (channel_slot c)]
          /\ exists c', heap w' !! connection = Some c' /\ refcount c' = 0).
Proof.
  intros Hc Hr. split; [| split].
  - rewrite (acquire_spec _ _ _ Hc), size_t_small by lia. reflexivity.
  - destruct (decide (refcount c - 1 = 0)) as [H0 | H0].
    + eexists. split; [apply release_last; [exact Hc | lia] |].
      simpl. rewrite H0. repeat split.
    + eexists. split; [apply release_not_last; [exact Hc | lia] |].
      simpl. repeat split.
  - intros ops Hmax Hstay Hlast.
    pose proof (refcount_ops_quiet ops connection c w Hc ltac:(lia) Hmax Hstay)
      as Hrun.
    rewrite Hlast in Hrun.
    set (c1 := set_refcount 1 c) in *.
    assert (Hc1 : heap (with_connection connection c1 w) !! connection = Some c1)
      by apply lookup_insert_eq.
    eexists _, _. split; [exact Hrun |]. split; [reflexivity |].
    split; [apply (release_last _ _ _ Hc1 eq_refl) |].
    split; [reflexivity |].
    eexists. split; [apply lookup_insert_eq | reflexivity].
Qed.

Lemma connection_acquire_release_witness :
  heap sample_client_world !! 1%positive = Some sample_client
  /\ 0 < refcount sample_client < 2 ^ 64 - 1
  /\ aws_http_connection_release 1%positive sample_client_world
     = Some (tt, with_events
                   [ev_channel_shutdown 7%positive AWS_ERROR_SUCCESS;
                    ev_channel_release_hold 7%positive]
                   (with_connection 1%positive (set_refcount 0 sample_client)
                      sample_client_world)).
Proof.
  assert (H1 : heap sample_client_world !! 1%positive = Some sample_client)
    by reflexivity.
  assert (H2 : 0 < refcount sample_client < 2 ^ 64 - 1) by (simpl; lia).
  split; [exact H1 |]. split; [exact H2 |].
  destruct (connection_acquire_release _ _ _ H1 H2) as (_ & (w' & Hrel & _) & _).
  rewrite Hrel. vm_compute in Hrel. inversion Hrel. reflexivity.
Defined.

(** ** HTTP/2-only entry points *)

Lemma s_check_http2_connection_other connection c w :
  heap w !! connection = Some c ->
  http_version c <> AWS_HTTP_VERSION_2 ->
  s_check_http2_connection connection w
  = Some (AWS_OP_ERR, with_last_error AWS_ERROR_INVALID_STATE w).
Proof.
  intros Hc Hv. unfold s_check_http2_connection.
  rewrite (bind_Some _ _ _ _ _ (deref_Some _ _ _ Hc)).
  now destruct (decide (http_version c = AWS_HTTP_VERSION_2)).
Qed.

Lemma s_check_http2_connection_h2 connection c w :
  heap w !! connection = Some c ->
  http_version c = AWS_HTTP_VERSION_2 ->
  s_check_http2_connection connection w = Some (AWS_OP_SUCCESS, w).
Proof.
  intros Hc Hv. unfold s_check_http2_connection.
  rewrite (bind_Some _ _ _ _ _ (deref_Some _ _ _ Hc)).
  now destruct (decide (http_version c = AWS_HTTP_VERSION_2)).
Qed.

Lemma h2_dispatch_other extern connection c op w :
  heap w !! connection = Some c ->
  http_version c <> AWS_HTTP_VERSION_2 ->
  h2_dispatch extern connection op w
  = Some (AWS_OP_ERR, with_last_error AWS_ERROR_INVALID_STATE w).
Proof.
  intros Hc Hv. unfold h2_dispatch.
  now rewrite (bind_Some _ _ _ _ _ (s_check_http2_connection_other _ _ _ Hc Hv)).
Qed.

Lemma h2_dispatch_void_other extern connection c op w :
  heap w !! connection = Some c ->
  http_version c <> AWS_HTTP_VERSION_2 ->
  h2_dispatch_void extern connection op w
  = Some (AWS_OP_ERR, with_last_error AWS_ERROR_INVALID_STATE w).
Proof.
  intros Hc Hv. unfold h2_dispatch_void.
  now rewrite (bind_Some _ _ _ _ _ (s_check_http2_connection_other _ _ _ Hc Hv)).
Qed.

(** On an HTTP/2 connection the entry points do reach the vtable. *)
Lemma change_settings_on_h2 extern connection c a f u w :
  heap w !! connection = Some c ->
  http_version c = AWS_HTTP_VERSION_2 ->
  aws_http2_connection_change_settings extern connection a f u w
  = invoke extern (call_vtable connection (vt_change_settings a f u)) w.
Proof.
  intros Hc Hv. unfold aws_http2_connection_change_settings, h2_dispatch.
  now rewrite (bind_Some _ _ _ _ _ (s_check_http2_connection_h2 _ _ _ Hc Hv)).
Qed.

(** C7.  Each of the seven HTTP/2-only entry points, called on a connection
    of another version, returns [AWS_OP_ERR] with
    [AWS_ERROR_INVALID_STATE] raised.  The vtable is not called, whatever
    its implementation is, and the connection objects stay as they were. *)
Theorem h2_only_entry_on_other_version
    (extern : foreign) (w : world) (connection : conn_id)
    (c : aws_http_connection) (e : h2_entry) :
  heap w !! connection = Some c ->
  http_version c <> AWS_HTTP_VERSION_2 ->
  h2_entry_args_ok e = true ->
  let w' := with_last_error AWS_ERROR_INVALID_STATE w in
  run_h2_entry extern connection e w = Some (AWS_OP_ERR, w')
  /\ heap w' = heap w
  /\ trace w' = trace w.
Proof.
  intros Hc Hv Hargs w'. split; [| split; reflexivity].
  destruct e; simpl in *;
    unfold aws_http2_connection_change_settings, aws_http2_connection_ping,
      aws_http2_connection_send_goaway, aws_http2_connection_get_sent_goaway,
      aws_http2_connection_get_received_goaway,
      aws_http2_connection_get_local_settings,
      aws_http2_connection_get_remote_settings;
    try (apply andb_prop in Hargs; destruct Hargs as [Hp Hq];
         unfold bind at 1 2, aws_assert; rewrite Hp, Hq; simpl);
    first [ now apply h2_dispatch_other with c
          | now apply h2_dispatch_void_other with c ].
Qed.

Lemma h2_only_entry_on_other_version_witness :
  heap sample_client_world !! 1%positive = Some sample_client
  /\ http_version sample_client <> AWS_HTTP_VERSION_2
  /\ h2_entry_args_ok (get_sent_goaway 200 204) = true
  /\ run_h2_entry extern_idle 1%positive (get_sent_goaway 200 204)
       sample_client_world
     = Some (AWS_OP_ERR,
             with_last_error AWS_ERROR_INVALID_STATE sample_client_world).
Proof.
  assert (H1 : heap sample_client_world !! 1%positive = Some sample_client)
    by reflexivity.
  assert (H2 : http_version sample_client <> AWS_HTTP_VERSION_2)
    by discriminate.
  assert (H3 : h2_entry_args_ok (get_sent_goaway 200 204) = true)
    by reflexivity.
  split; [exact H1 |]. split; [exact H2 |]. split; [exact H3 |].
  exact (proj1 (h2_only_entry_on_other_version extern_idle _ _ _ _ H1 H2 H3)).
Defined.

(** ** Server configuration *)

Lemma configure_server_unconfigured connection c options handler sd w :
  heap w !! connection = Some c ->
  opt_on_incoming_request options = Some handler ->
  server_data c = Some sd ->
  on_incoming_request sd = None ->
  aws_http_connection_configure_server (Some connection) (Some options) w
  = Some (AWS_OP_SUCCESS,
          with_connection connection (configured options handler c) w).
Proof.
  intros Hc Hh Hsd Hreq. unfold aws_http_connection_configure_server.
  rewrite Hh, (bind_Some _ _ _ _ _ (deref_Some _ _ _ Hc)), Hsd, Hreq.
  reflexivity.
Qed.

Lemma configure_server_invalid_state connection c options handler w :
  heap w !! connection = Some c ->
  opt_on_incoming_request options = Some handler ->
  server_data c = None \/
  (exists sd g, server_data c = Some sd /\ on_incoming_request sd = Some g) ->
  aws_http_connection_configure_server (Some connection) (Some options) w
  = Some (AWS_OP_ERR, with_last_error AWS_ERROR_INVALID_STATE w).
Proof.
  intros Hc Hh Hsd. unfold aws_http_connection_configure_server.
  rewrite Hh, (bind_Some _ _ _ _ _ (deref_Some _ _ _ Hc)).
  destruct Hsd as [-> | (sd & g & -> & ->)]; reflexivity.
Qed.

Lemma configure_server_invalid_argument connection options w :
  opt_on_incoming_request options = None ->
  aws_http_connection_configure_server (Some connection) (Some options) w
  = Some (AWS_OP_ERR, with_last_error AWS_ERROR_INVALID_ARGUMENT w).
Proof.
  intros Hh. unfold aws_http_connection_configure_server. now rewrite Hh.
Qed.

(** C8 as stated fails: a call on a client connection whose options carry no
    request handler is rejected as an invalid argument, before the role of
    the connection is looked at. *)
Lemma configure_server_on_client_without_handler :
  let r := aws_http_connection_configure_server (Some 1%positive)
             (Some sample_options_no_handler) sample_client_world in
  client_data sample_client = true
  /\ r = Some (AWS_OP_ERR,
               with_last_error AWS_ERROR_INVALID_ARGUMENT sample_client_world)
  /\ ~ (exists w', r = Some (AWS_OP_ERR, w')
                   /\ last_error w' = AWS_ERROR_INVALID_STATE).
Proof.
  split; [reflexivity |]. split; [reflexivity |].
  intros (w' & Hr & He). vm_compute in Hr. inversion Hr. subst w'.
  discriminate He.
Qed.

(** C8, amended.  With options that carry a request handler: the call on a
    server connection that has none yet succeeds and stores the handler, the
    shutdown callback and the user data, and a second such call then fails
    with [AWS_ERROR_INVALID_STATE]; the call on a client connection, or on a
    server connection that has a handler, fails with
    [AWS_ERROR_INVALID_STATE].  With options that carry no request handler
    the call fails with [AWS_ERROR_INVALID_ARGUMENT], on any connection.
    Every failing call leaves the connection objects as they were. *)
Theorem configure_server_once
    (w : world) (connection : conn_id) (c : aws_http_connection)
    (options : aws_http_server_connection_options) :
  heap w !! connection = Some c ->
  let run := aws_http_connection_configure_server (Some connection) in
  (forall handler sd,
      opt_on_incoming_request options = Some handler ->
      server_data c = Some sd ->
      on_incoming_request sd = None ->
      let w1 := with_connection connection (configured options handler c) w in
      run (Some options) w = Some (AWS_OP_SUCCESS, w1)
      /\ (exists c1, heap w1 !! connection = Some c1
            /\ server_data c1
               = Some (mk_server_data (Some handler) (opt_on_shutdown options))
            /\ user_data c1 = connection_user_data options)
      /\ forall options2 handler2,
           opt_on_incoming_request options2 = Some handler2 ->
           run (Some options2) w1
           = Some (AWS_OP_ERR, with_last_error AWS_ERROR_INVALID_STATE w1))
  /\ (forall handler,
        opt_on_incoming_request options = Some handler ->
        client_data c = true
        \/ (exists sd g, server_data c = Some sd /\ on_incoming_request sd = Some g) ->
        run (Some options) w
        = Some (AWS_OP_ERR, with_last_error AWS_ERROR_INVALID_STATE w))
  /\ (opt_on_incoming_request options = None ->
      run (Some options) w
      = Some (AWS_OP_ERR, with_last_error AWS_ERROR_INVALID_ARGUMENT w)).
Proof.
  intros Hc run. split; [| split].
  - intros handler sd Hh Hsd Hreq w1. split; [| split].
    + now apply configure_server_unconfigured with sd.
    + exists (configured options handler c). split; [apply lookup_insert_eq |].
      split; reflexivity.
    + intros options2 handler2 Hh2.
      apply configure_server_invalid_state
        with (c := configured options handler c) (handler := handler2);
        [apply lookup_insert_eq | exact Hh2 |].
      right. eexists _, handler. split; reflexivity.
  - intros handler Hh Hrole.
    apply configure_server_invalid_state with (c := c) (handler := handler);
      [exact Hc | exact Hh |].
    destruct Hrole as [Hcl | Hsd]; [left | now right].
    unfold client_data in Hcl. unfold server_data.
    now destruct (role c).
  - intros Hh. now apply configure_server_invalid_argument.
Qed.

Lemma configure_server_once_witness :
  heap sample_server_world !! 1%positive = Some sample_server_connection
  /\ aws_http_connection_configure_server (Some 1%positive)
       (Some sample_options) sample_server_world
     = Some (AWS_OP_SUCCESS,
             with_connection 1%positive
               (configured sample_options 11%positive sample_server_connection)
               sample_server_world).
Proof.
  assert (H1 : heap sample_server_world !! 1%positive
               = Some sample_server_connection) by reflexivity.
  split; [exact H1 |].
  destruct (configure_server_once _ _ _ sample_options H1) as [H _].
  exact (proj1 (H 11%positive (mk_server_data None None)
                  eq_refl eq_refl eq_refl)).
Defined.

(** ** Version negotiation *)

Lemma determine_http_version_spec is_using_tls env protocol w :
  (is_using_tls = true -> env_tls_protocol env = Some protocol) ->
  determine_http_version is_using_tls env w
  = Some (Some (version_for is_using_tls protocol), w).
Proof.
  intros Htls. unfold determine_http_version, version_for.
  destruct is_using_tls; [| reflexivity].
  rewrite (Htls eq_refl). cbn [andb].
  unfold aws_string_eq_byte_buf.
  destruct (String.eqb_spec s_alpn_protocol_http_1_1 protocol) as [<- | H1];
    [reflexivity |].
  destruct (String.eqb_spec s_alpn_protocol_http_2 protocol) as [<- | H2];
    [reflexivity |].
  now destruct (negb (String.length protocol =? 0)%nat).
Qed.

Lemma version_for_cases is_using_tls protocol :
  version_for is_using_tls protocol = AWS_HTTP_VERSION_1_1
  \/ version_for is_using_tls protocol = AWS_HTTP_VERSION_2.
Proof.
  unfold version_for.
  destruct (is_using_tls && String.eqb s_alpn_protocol_http_2 protocol); auto.
Qed.

Lemma s_connection_new_success ch is_server is_using_tls env protocol w :
  env_slot_new env = ok ->
  env_slot_insert_end env = ok ->
  env_connection_new env = ok ->
  env_slot_set_handler env = ok ->
  (is_using_tls = true -> env_tls_protocol env = Some protocol) ->
  s_connection_new ch is_server is_using_tls env w
  = Some (Some (fresh (dom (heap w))),
          with_new_connection (version_for is_using_tls protocol) is_server ch w).
Proof.
  intros H1 H2 H3 H4 Htls. unfold s_connection_new.
  rewrite H1, H2, H3, H4. unfold collaborator.
  unfold bind at 1. unfold ret at 1. cbn [negb].
  unfold bind at 1. unfold ret at 1. cbn [negb].
  rewrite (bind_Some _ _ _ _ _
             (determine_http_version_spec _ _ _ _ Htls)).
  destruct (version_for_cases is_using_tls protocol) as [-> | ->];
    unfold with_new_connection; rewrite <- (world_eta w) at 1; reflexivity.
Qed.

(** C2.  On a channel where the slot, the constructor and the handler
    installation succeed, [s_connection_new] returns a connection and raises
    no error, and its version is: HTTP/1.1 without TLS; with TLS, HTTP/1.1
    when the TLS handler reports exactly "http/1.1", HTTP/2 when it reports
    exactly "h2", and HTTP/1.1 for every other string, the empty one (no
    protocol negotiated) included. *)
Theorem connection_version_negotiated
    (w : world) (ch : channel) (is_server is_using_tls : bool)
    (env : channel_env) (protocol : string) :
  env_slot_new env = ok ->
  env_slot_insert_end env = ok ->
  env_connection_new env = ok ->
  env_slot_set_handler env = ok ->
  (is_using_tls = true -> env_tls_protocol env = Some protocol) ->
  exists connection c w',
    s_connection_new ch is_server is_using_tls env w = Some (Some connection, w')
    /\ heap w' !! connection = Some c
    /\ last_error w' = last_error w
    /\ determine_http_version is_using_tls env w = Some (Some (http_version c), w)
    /\ (is_using_tls = false -> http_version c = AWS_HTTP_VERSION_1_1)
    /\ (is_using_tls = true -> protocol = "http/1.1"%string ->
        http_version c = AWS_HTTP_VERSION_1_1)
    /\ (is_using_tls = true -> protocol = "h2"%string ->
        http_version c = AWS_HTTP_VERSION_2)
    /\ (is_using_tls = true -> protocol <> "http/1.1"%string ->
        protocol <> "h2"%string ->
        http_version c = AWS_HTTP_VERSION_1_1).
Proof.
  intros H1 H2 H3 H4 Htls.
  exists (fresh (dom (heap w))),
         (connection_init (version_for is_using_tls protocol) is_server ch).
  eexists.
  split; [apply (s_connection_new_success _ _ _ _ protocol); assumption |].
  split; [apply lookup_insert_eq |]. split; [reflexivity |].
  split; [now apply determine_http_version_spec |].
  cbn [http_version connection_init]. unfold version_for.
  repeat split.
  - now intros ->.
  - now intros -> ->.
  - now intros -> ->.
  - intros -> _ Hh2. cbn [andb].
    destruct (String.eqb_spec s_alpn_protocol_http_2 protocol) as [E | _];
      [| reflexivity].
    now contradiction Hh2.
Qed.

Lemma connection_version_negotiated_witness :
  exists connection c w',
    s_connection_new 7%positive false true (env_tls "h2") sample_client_world
    = Some (Some connection, w')
    /\ heap w' !! connection = Some c
    /\ http_version c = AWS_HTTP_VERSION_2.
Proof.
  destruct (connection_version_negotiated sample_client_world 7%positive
              false true (env_tls "h2") "h2"
              eq_refl eq_refl eq_refl eq_refl (fun _ => eq_refl))
    as (connection & c & w' & Hrun & Hc & _ & _ & _ & _ & Hh2 & _).
  exists connection, c, w'. split; [exact Hrun |]. split; [exact Hc |].
  exact (Hh2 eq_refl eq_refl).
Defined.

(** ** Creating a connection: failure *)

Lemma fresh_not_live (h : gmap conn_id aws_http_connection) :
  h !! fresh (dom h) = None.
Proof. apply not_elem_of_dom. apply is_fresh. Qed.

Lemma s_connection_new_failure ch is_server is_using_tls env e w :
  construction_error is_using_tls env = Some e ->
  exists evs,
    s_connection_new ch is_server is_using_tls env w
    = Some (None, mk_world e (heap w) (trace w ++ evs))
    /\ forallb is_rollback evs = true.
Proof.
  unfold construction_error, s_connection_new. intros He.
  destruct (env_slot_new env) as [| e1] eqn:E1.
  2:{ inversion He; subst. exists []. rewrite app_nil_r. now split. }
  destruct (env_slot_insert_end env) as [| e2] eqn:E2.
  2:{ inversion He; subst. exists [ev_channel_slot_remove ch]. now split. }
  unfold collaborator. unfold bind at 1. unfold ret at 1. cbn [negb].
  unfold bind at 1. unfold ret at 1. cbn [negb].
  assert (Hcases :
            (is_using_tls = true /\ env_tls_protocol env = None)
            \/ exists protocol,
                 is_using_tls = true -> env_tls_protocol env = Some protocol).
  { destruct is_using_tls; [| right; now exists ""%string].
    destruct (env_tls_protocol env) as [p |]; [right; now exists p | now left]. }
  destruct Hcases as [[-> Ep] | [protocol Htls]].
  { rewrite Ep in He. inversion He; subst.
    exists [ev_channel_slot_remove ch]. split; [| reflexivity].
    unfold determine_http_version. rewrite Ep. reflexivity. }
  assert (He' : match env_connection_new env, env_slot_set_handler env with
                | fails e, _ => Some e
                | ok, fails e => Some e
                | ok, ok => None
                end = Some e).
  { destruct is_using_tls; [| exact He].
    now rewrite (Htls eq_refl) in He. }
  clear He.
  rewrite (bind_Some _ _ _ _ _
             (determine_http_version_spec is_using_tls env protocol w Htls)).
  destruct (env_connection_new env) as [| e3] eqn:E3.
  2:{ inversion He'; subst. exists [ev_channel_slot_remove ch].
      split; [| reflexivity].
      now destruct (version_for_cases is_using_tls protocol) as [-> | ->]. }
  destruct (env_slot_set_handler env) as [| e4] eqn:E4; [discriminate |].
  inversion He'; subst.
  exists ((if env_slot_handler_stored env then []
           else [ev_channel_handler_destroy (fresh (dom (heap w)))])
          ++ [ev_channel_slot_remove ch]).
  split; [| now destruct (env_slot_handler_stored env)].
  destruct (version_for_cases is_using_tls protocol) as [-> | ->];
    destruct (env_slot_handler_stored env);
    unfold bind, ret, alloc_connection, free_connection, emit,
      aws_raise_error; simpl;
    rewrite delete_insert_id by apply fresh_not_live;
    now rewrite <- ?app_assoc.
Qed.

Lemma s_connection_new_ok ch is_server is_using_tls env w :
  construction_error is_using_tls env = None ->
  s_connection_new ch is_server is_using_tls env w
  = Some (Some (fresh (dom (heap w))),
          with_new_connection (version_for is_using_tls (reported_protocol env))
            is_server ch w).
Proof.
  unfold construction_error, reported_protocol. intros He.
  destruct (env_slot_new env) eqn:E1; [| discriminate].
  destruct (env_slot_insert_end env) eqn:E2; [| discriminate].
  assert (Htls : is_using_tls = true ->
                 env_tls_protocol env
                 = Some (match env_tls_protocol env with
                         | Some p => p | None => ""%string end)).
  { intros ->. now destruct (env_tls_protocol env). }
  apply s_connection_new_success; try assumption.
  - destruct is_using_tls, (env_tls_protocol env);
      destruct (env_connection_new env); try discriminate; reflexivity.
  - destruct is_using_tls, (env_tls_protocol env);
      destruct (env_connection_new env), (env_slot_set_handler env);
      try discriminate; reflexivity.
Qed.

(** ** The server's accept path *)

(** The [error:] label when no user callback has run yet: the callback
    receives the code, then the channel is shut down with it. *)
Lemma accept_channel_setup_error_spec extern s e ch connection w :
  accept_channel_setup_error extern s e false (Some ch) connection w
  = let code := if is_error e then e else last_error w in
    let cb := incoming_connection_failed s code in
    let w' := mk_world (fst (extern_memory extern cb w))
                       (snd (extern_memory extern cb w))
                       (trace w ++ [ev_call cb; ev_channel_shutdown ch code]) in
    match connection with
    | Some connection => aws_http_connection_release connection w'
    | None => Some (tt, w')
    end.
Proof.
  unfold accept_channel_setup_error, incoming_connection_failed.
  assert (Hcode : (if is_error e then ret e else aws_last_error) w
                  = Some (if is_error e then e else last_error w, w))
    by now destruct (is_error e).
  rewrite (bind_Some _ _ _ _ _ Hcode). cbn zeta.
  set (code := if is_error e then e else last_error w).
  unfold bind at 1. unfold bind at 1. rewrite invoke_spec.
  unfold ret at 1. unfold bind at 1. unfold emit at 1. cbn [trace heap last_error].
  rewrite <- app_assoc. cbn [app].
  now destruct connection.
Qed.

(** The same label after the success callback has run: no second call. *)
Lemma accept_channel_setup_error_invoked extern s ch connection w :
  accept_channel_setup_error extern s AWS_ERROR_SUCCESS true (Some ch)
    (Some connection) w
  = aws_http_connection_release connection
      (with_events [ev_channel_shutdown ch (last_error w)] w).
Proof. reflexivity. Qed.

Lemma accept_construction_failure extern s ch env put e w :
  construction_error (srv_is_using_tls s) env = Some e ->
  exists evs w',
    s_server_bootstrap_on_accept_channel_setup extern s AWS_ERROR_SUCCESS
      (Some ch) env put w = Some (s, w')
    /\ forallb is_rollback evs = true
    /\ trace w' = trace w ++ evs
                  ++ [ev_call (incoming_connection_failed s e);
                      ev_channel_shutdown ch e].
Proof.
  intros He.
  destruct (s_connection_new_failure ch true _ env e w He) as (evs & Hnew & Hevs).
  exists evs. eexists. split; [| split; [exact Hevs |]].
  - unfold s_server_bootstrap_on_accept_channel_setup. cbn [is_error].
    rewrite (bind_Some _ _ _ _ _ Hnew).
    unfold bind. rewrite accept_channel_setup_error_spec. cbn. reflexivity.
  - cbn. now rewrite <- app_assoc.
Qed.

(** A registration failure, whatever the callback does: the callback and the
    channel shutdown, then the release of the connection. *)
Lemma accept_registration_failure extern s ch env put code w :
  let a := fresh (dom (heap w)) in
  let v := version_for (srv_is_using_tls s) (reported_protocol env) in
  construction_error (srv_is_using_tls s) env = None ->
  registration_error s put = Some code ->
  exists w2 m,
    trace w2 = trace w
               ++ [ev_on_channel_handler_installed a;
                   ev_server_lock; ev_server_unlock;
                   ev_call (incoming_connection_failed s code);
                   ev_channel_shutdown ch code]
    /\ snd m = <[a := connection_init v true ch]> (heap w)
    /\ heap w2 = snd (snd (extern (incoming_connection_failed s code) m))
    /\ s_server_bootstrap_on_accept_channel_setup extern s AWS_ERROR_SUCCESS
         (Some ch) env put w
       = (aws_http_connection_release a ;; ret s) w2.
Proof.
  intros a v Hok Hreg.
  unfold s_server_bootstrap_on_accept_channel_setup. cbn [is_error].
  rewrite (bind_Some _ _ _ _ _ (s_connection_new_ok ch true _ env w Hok)).
  fold a. fold v. unfold registration_error in Hreg.
  unfold s_server_lock_synced_data, s_server_unlock_synced_data.
  rewrite bind_emit.
  destruct (is_shutting_down s) eqn:Hsd.
  - inversion Hreg; subst code. cbn [is_error negb andb].
    rewrite bind_ret, bind_emit.
    eexists _, (_, _). split; [| split; [| split]].
    4:{ unfold bind. rewrite accept_channel_setup_error_spec.
        cbn [is_error]. cbv zeta. reflexivity. }
    + cbn. norm_app. reflexivity.
    + reflexivity.
    + reflexivity.
  - destruct put as [| e]; [discriminate |]. inversion Hreg; subst code.
    cbn [is_error negb andb collaborator].
    rewrite bind_bind, bind_raise, bind_ret. cbn [negb andb].
    rewrite bind_emit.
    eexists _, (_, _). split; [| split; [| split]].
    4:{ unfold bind. rewrite accept_channel_setup_error_spec.
        cbn [is_error last_error with_events with_last_error]. cbv zeta.
        reflexivity. }
    + cbn. norm_app. reflexivity.
    + reflexivity.
    + reflexivity.
Qed.

(** C6.  Take a channel that was accepted without error.  When the server
    is already shutting down at the time the new connection is to be put
    into the map, the map stays as it is, [on_incoming_connection] is called
    with no connection and the non-zero code
    [AWS_ERROR_HTTP_CONNECTION_CLOSED], the channel is shut down with that
    code, and then the reference to the connection is released (which, the
    callback having left the new connection alone, drops the last reference).
    When instead the insertion into the map fails, or the construction of
    the connection fails, the callback is called in the same way with the
    error that was raised, and the channel is shut down with it. *)
Theorem accept_failure_delivered
    (extern : foreign) (s : aws_http_server) (ch : channel)
    (env : channel_env) (put : outcome) (w : world) :
  let a := fresh (dom (heap w)) in
  let v := version_for (srv_is_using_tls s) (reported_protocol env) in
  let run := s_server_bootstrap_on_accept_channel_setup extern s
               AWS_ERROR_SUCCESS (Some ch) env put w in
  let untouched code :=
    forall m, snd (snd (extern (incoming_connection_failed s code) m)) !! a
              = snd m !! a in
  let registration_failed code :=
    (exists w2 m,
        trace w2 = trace w
                   ++ [ev_on_channel_handler_installed a;
                       ev_server_lock; ev_server_unlock;
                       ev_call (incoming_connection_failed s code);
                       ev_channel_shutdown ch code]
        /\ snd m = <[a := connection_init v true ch]> (heap w)
        /\ heap w2 = snd (snd (extern (incoming_connection_failed s code) m))
        /\ run = (aws_http_connection_release a ;; ret s) w2)
    /\ (untouched code ->
        exists w',
          run = Some (s, w')
          /\ trace w' = trace w
                        ++ [ev_on_channel_handler_installed a;
                            ev_server_lock; ev_server_unlock;
                            ev_call (incoming_connection_failed s code);
                            ev_channel_shutdown ch code;
                            ev_channel_shutdown ch AWS_ERROR_SUCCESS;
                            ev_channel_release_hold ch]
          /\ exists c, heap w' !! a = Some c /\ refcount c = 0) in
  (construction_error (srv_is_using_tls s) env = None ->
   is_shutting_down s = true ->
   registration_failed AWS_ERROR_HTTP_CONNECTION_CLOSED
   /\ is_error AWS_ERROR_HTTP_CONNECTION_CLOSED = true)
  /\ (forall e,
        construction_error (srv_is_using_tls s) env = None ->
        is_shutting_down s = false ->
        put = fails e ->
        registration_failed e)
  /\ (forall e,
        construction_error (srv_is_using_tls s) env = Some e ->
        exists evs w',
          run = Some (s, w')
          /\ forallb is_rollback evs = true
          /\ trace w' = trace w ++ evs
                        ++ [ev_call (incoming_connection_failed s e);
                            ev_channel_shutdown ch e]).
Proof.
  intros a v run untouched registration_failed.
  assert (Hreg : forall code,
             construction_error (srv_is_using_tls s) env = None ->
             registration_error s put = Some code ->
             registration_failed code).
  { intros code Hok Hcode.
    destruct (accept_registration_failure extern s ch env put code w Hok Hcode)
      as (w2 & m & Htr & Hm & Hheap & Hrun).
    split; [now exists w2, m |].
    intros Hkeep. unfold run. rewrite Hrun.
    assert (Hc : heap w2 !! a = Some (connection_init v true ch)).
    { rewrite Hheap, Hkeep, Hm. apply lookup_insert_eq. }
    rewrite (bind_Some _ _ _ _ _ (release_last _ _ _ Hc eq_refl)).
    eexists. split; [reflexivity |]. split.
    - cbn. rewrite Htr. norm_app. reflexivity.
    - eexists. split; [apply lookup_insert_eq | reflexivity]. }
  split; [| split].
  - intros Hok Hsd. split; [| reflexivity].
    apply Hreg; [exact Hok |]. unfold registration_error. now rewrite Hsd.
  - intros e Hok Hsd ->.
    apply Hreg; [exact Hok |]. unfold registration_error. now rewrite Hsd.
  - intros e He. now apply accept_construction_failure.
Qed.

Lemma accept_failure_delivered_witness :
  exists w',
    s_server_bootstrap_on_accept_channel_setup extern_idle
      sample_server_shutting_down AWS_ERROR_SUCCESS (Some 7%positive)
      env_plain ok empty_world
    = Some (sample_server_shutting_down, w')
    /\ trace w'
       = [ev_on_channel_handler_installed 1%positive;
          ev_server_lock; ev_server_unlock;
          ev_call (call_on_incoming_connection 21%positive None
                     AWS_ERROR_HTTP_CONNECTION_CLOSED 300);
          ev_channel_shutdown 7%positive AWS_ERROR_HTTP_CONNECTION_CLOSED;
          ev_channel_shutdown 7%positive AWS_ERROR_SUCCESS;
          ev_channel_release_hold 7%positive].
Proof.
  destruct (accept_failure_delivered extern_idle sample_server_shutting_down
              7%positive env_plain ok empty_world) as [H _].
  destruct (H eq_refl eq_refl) as [[_ Hdone] _].
  destruct (Hdone (fun m => eq_refl)) as (w' & Hrun & Htr & _).
  exists w'. split; [exact Hrun |]. rewrite Htr. reflexivity.
Defined.

Lemma release_spec connection c w :
  heap w !! connection = Some c ->
  0 < refcount c < 2 ^ 64 ->
  aws_http_connection_release connection w
  = Some (tt, with_events (release_events c)
                (with_connection connection
                   (set_refcount (refcount c - 1) c) w)).
Proof.
  intros Hc Hr. unfold release_events.
  destruct (decide (refcount c = 1)) as [H1 | H1].
  - rewrite (release_last _ _ _ Hc H1), H1. reflexivity.
  - rewrite (release_not_last _ _ _ Hc ltac:(lia)).
    unfold with_events. cbn. now rewrite app_nil_r.
Qed.

(** *** Counting the calls of [on_incoming_connection] *)

Lemma bind_inv {A B} (m : M A) (k : A -> M B) w b w' :
  bind m k w = Some (b, w') ->
  exists a w1, m w = Some (a, w1) /\ k a w1 = Some (b, w').
Proof.
  unfold bind. destruct (m w) as [[a w1] |]; [| discriminate].
  intros H. now exists a, w1.
Qed.

Lemma occurrences_app P l1 l2 :
  occurrences P (l1 ++ l2) = (occurrences P l1 + occurrences P l2)%nat.
Proof. unfold occurrences. now rewrite List.filter_app, length_app. Qed.

Lemma calls_refl w : calls_incoming_connection 0 w w.
Proof. exists []. now rewrite app_nil_r. Qed.

Lemma calls_trans n m w w1 w2 :
  calls_incoming_connection n w w1 ->
  calls_incoming_connection m w1 w2 ->
  calls_incoming_connection (n + m) w w2.
Proof.
  intros (e1 & H1 & C1) (e2 & H2 & C2). exists (e1 ++ e2). split.
  - now rewrite H2, H1, app_assoc.
  - now rewrite occurrences_app, C1, C2.
Qed.

Lemma calls_with_events evs w :
  calls_incoming_connection (occurrences is_on_incoming_connection evs)
    w (with_events evs w).
Proof. now exists evs. Qed.

Lemma calls_same_trace n w w' e h :
  calls_incoming_connection n w w' ->
  calls_incoming_connection n w (mk_world e h (trace w')).
Proof. intros (evs & H & C). now exists evs. Qed.

Lemma calls_emit ev w u w' :
  emit ev w = Some (u, w') ->
  calls_incoming_connection (if is_on_incoming_connection ev then 1 else 0) w w'.
Proof.
  unfold emit. intros H. inversion H; subst. exists [ev]. split; [reflexivity |].
  unfold occurrences. cbn. now destruct (is_on_incoming_connection ev).
Qed.

Lemma calls_invoke extern c w r w' :
  invoke extern c w = Some (r, w') ->
  calls_incoming_connection
    (if is_on_incoming_connection (ev_call c) then 1 else 0) w w'.
Proof.
  rewrite invoke_spec. intros H. inversion H; subst.
  exists [ev_call c]. split; [reflexivity |].
  unfold occurrences. cbn -[is_on_incoming_connection].
  now destruct (is_on_incoming_connection (ev_call c)).
Qed.

Lemma calls_release connection w u w' :
  aws_http_connection_release connection w = Some (u, w') ->
  calls_incoming_connection 0 w w'.
Proof.
  unfold aws_http_connection_release, deref, store, emit, aws_assert, bind, ret, crash.
  destruct (heap w !! connection) as [c |]; [| discriminate].
  destruct (refcount c =? 1).
  - intros H. inversion H; subst.
    exists [ev_channel_shutdown (channel_slot c) AWS_ERROR_SUCCESS;
            ev_channel_release_hold (channel_slot c)].
    cbn. split; [now rewrite <- app_assoc | reflexivity].
  - destruct (negb (refcount c =? 0)); [| discriminate].
    intros H. inversion H; subst. exists []. cbn. now rewrite app_nil_r.
Qed.

Lemma calls_s_connection_new ch is_server is_using_tls env w r w' :
  s_connection_new ch is_server is_using_tls env w = Some (r, w') ->
  calls_incoming_connection 0 w w'.
Proof.
  destruct (construction_error is_using_tls env) as [e |] eqn:He.
  - destruct (s_connection_new_failure ch is_server _ _ _ w He)
      as (evs & -> & Hevs).
    intros H. inversion H; subst. exists evs. split; [reflexivity |].
    clear -Hevs. unfold occurrences.
    induction evs as [| ev evs IH]; [reflexivity |].
    cbn in Hevs. apply andb_prop in Hevs. destruct Hevs as [Hev Hevs].
    cbn. destruct ev; try discriminate Hev; cbn; auto.
  - rewrite (s_connection_new_ok _ _ _ _ w He).
    intros H. inversion H; subst.
    now exists [ev_on_channel_handler_installed (fresh (dom (heap w)))].
Qed.

Lemma calls_accept_channel_setup_error extern s e invoked ch connection w u w' :
  accept_channel_setup_error extern s e invoked ch connection w = Some (u, w') ->
  calls_incoming_connection (if invoked then 0 else 1) w w'.
Proof.
  unfold accept_channel_setup_error. intros H.
  apply bind_inv in H. destruct H as (code & w1 & Hcode & H).
  assert (w1 = w) as ->.
  { destruct (is_error e); unfold ret, aws_last_error in Hcode;
      now inversion Hcode. }
  apply bind_inv in H. destruct H as (u1 & w2 & Hcb & H).
  apply bind_inv in H. destruct H as (u2 & w3 & Hsh & H).
  assert (C1 : calls_incoming_connection (if invoked then 0 else 1) w w2).
  { destruct invoked.
    - unfold ret in Hcb. inversion Hcb; subst. apply calls_refl.
    - apply bind_inv in Hcb. destruct Hcb as (r & w2' & Hinv & Hret).
      unfold ret in Hret. inversion Hret; subst.
      apply calls_invoke in Hinv. exact Hinv. }
  assert (C2 : calls_incoming_connection 0 w2 w3).
  { destruct ch as [ch |].
    - apply calls_emit in Hsh. exact Hsh.
    - unfold ret in Hsh. inversion Hsh; subst. apply calls_refl. }
  assert (C3 : calls_incoming_connection 0 w3 w').
  { destruct connection as [connection |].
    - now apply calls_release in H.
    - unfold ret in H. inversion H; subst. apply calls_refl. }
  pose proof (calls_trans _ _ _ _ _ (calls_trans _ _ _ _ _ C1 C2) C3) as C.
  now rewrite !Nat.add_0_r in C.
Qed.

(** Every run of the accept callback that returns has called
    [on_incoming_connection] once. *)
Lemma accept_calls_once extern s error_code ch env put w s' w' :
  s_server_bootstrap_on_accept_channel_setup extern s error_code ch env put w
  = Some (s', w') ->
  calls_incoming_connection 1 w w'.
Proof.
  unfold s_server_bootstrap_on_accept_channel_setup.
  destruct (is_error error_code) eqn:Herr.
  { intros H. apply bind_inv in H. destruct H as (u & w1 & Hpath & Hret).
    unfold ret in Hret. inversion Hret; subst.
    now apply calls_accept_channel_setup_error in Hpath. }
  destruct ch as [ch |]; [| discriminate].
  intros H. apply bind_inv in H. destruct H as (connection & w1 & Hnew & H).
  apply calls_s_connection_new in Hnew.
  destruct connection as [connection |].
  2:{ apply bind_inv in H. destruct H as (u & w2 & Hpath & Hret).
      unfold ret in Hret. inversion Hret; subst.
      apply calls_accept_channel_setup_error in Hpath.
      exact (calls_trans _ _ _ _ _ Hnew Hpath). }
  apply bind_inv in H. destruct H as (u1 & w2 & Hlock & H).
  apply calls_emit in Hlock. cbn in Hlock.
  apply bind_inv in H. destruct H as (stored & w3 & Hput & H).
  assert (C3 : calls_incoming_connection 0 w2 w3).
  { destruct (is_shutting_down s); cbn in Hput.
    - unfold ret in Hput. inversion Hput; subst. apply calls_refl.
    - rewrite Herr in Hput. cbn in Hput. destruct put; cbn in Hput.
      + unfold ret in Hput. inversion Hput; subst. apply calls_refl.
      + inversion Hput; subst. exists []. cbn. now rewrite app_nil_r. }
  apply bind_inv in H. destruct H as (u2 & w4 & Hunlock & H).
  apply calls_emit in Hunlock. cbn in Hunlock.
  pose proof (calls_trans _ _ _ _ _
                (calls_trans _ _ _ _ _
                   (calls_trans _ _ _ _ _ Hnew Hlock) C3) Hunlock) as C4.
  cbn in C4.
  set (code := if is_shutting_down s then AWS_ERROR_HTTP_CONNECTION_CLOSED
               else error_code) in *.
  destruct (is_error code) eqn:Hcode.
  { apply bind_inv in H. destruct H as (u & w5 & Hpath & Hret).
    unfold ret in Hret. inversion Hret; subst.
    apply calls_accept_channel_setup_error in Hpath.
    exact (calls_trans _ _ _ _ _ C4 Hpath). }
  destruct (negb stored).
  { apply bind_inv in H. destruct H as (u & w5 & Hpath & Hret).
    unfold ret in Hret. inversion Hret; subst.
    apply calls_accept_channel_setup_error in Hpath.
    exact (calls_trans _ _ _ _ _ C4 Hpath). }
  apply bind_inv in H. destruct H as (r & w5 & Hcb & H).
  apply calls_invoke in Hcb. cbn in Hcb.
  pose proof (calls_trans _ _ _ _ _ C4 Hcb) as C5. cbn in C5.
  apply bind_inv in H. destruct H as (c & w6 & Hderef & H).
  assert (w6 = w5) as ->.
  { unfold deref in Hderef. destruct (heap w5 !! connection); now inversion Hderef. }
  destruct (server_data c) as [sd |]; [| discriminate].
  destruct (on_incoming_request sd).
  { unfold ret in H. inversion H; subst. exact C5. }
  apply bind_inv in H. destruct H as (r1 & w7 & Hraise & H).
  unfold aws_raise_error in Hraise. inversion Hraise; subst.
  apply bind_inv in H. destruct H as (u & w8 & Hpath & Hret).
  unfold ret in Hret. inversion Hret; subst.
  apply calls_accept_channel_setup_error in Hpath.
  destruct Hpath as (evs & Htr & Hn). cbn in Htr.
  destruct C5 as (evs5 & Htr5 & Hn5).
  exists (evs5 ++ evs). split.
  - now rewrite Htr, Htr5, app_assoc.
  - now rewrite occurrences_app, Hn5, Hn.
Qed.

(** The success callback ran and left the connection without a request
    handler. *)
Lemma accept_unconfigured extern s ch env put c2 sd w :
  let a := fresh (dom (heap w)) in
  let w1 := with_new_connection
              (version_for (srv_is_using_tls s) (reported_protocol env))
              true ch w in
  let cb := incoming_connection_established s a in
  construction_error (srv_is_using_tls s) env = None ->
  registration_error s put = None ->
  snd (extern_memory extern cb w1) !! a = Some c2 ->
  server_data c2 = Some sd ->
  on_incoming_request sd = None ->
  0 < refcount c2 < 2 ^ 64 ->
  exists w',
    s_server_bootstrap_on_accept_channel_setup extern s AWS_ERROR_SUCCESS
      (Some ch) env put w
    = Some (set_channel_to_connection_map
              (<[ch := a]> (channel_to_connection_map s)) s, w')
    /\ trace w' = trace w
                  ++ [ev_on_channel_handler_installed a;
                      ev_server_lock; ev_server_unlock;
                      ev_call cb;
                      ev_channel_shutdown ch AWS_ERROR_HTTP_REACTION_REQUIRED]
                  ++ release_events c2.
Proof.
  intros a w1 cb Hok Hreg Hc2 Hsd Hreq Hr.
  unfold s_server_bootstrap_on_accept_channel_setup. cbn [is_error].
  rewrite (bind_Some _ _ _ _ _ (s_connection_new_ok ch true _ env w Hok)).
  fold a. fold w1. unfold registration_error in Hreg.
  destruct (is_shutting_down s) eqn:Hshut; [discriminate |].
  destruct put; [| discriminate].
  unfold s_server_lock_synced_data, s_server_unlock_synced_data.
  unfold bind at 1. unfold emit at 1. cbn [is_error negb andb collaborator].
  unfold bind at 1. unfold ret at 1.
  unfold bind at 1. unfold emit at 1. cbn [negb].
  unfold bind at 1. rewrite invoke_spec.
  unfold bind at 1.
  match goal with
  | |- context [deref a ?w2] =>
      assert (Hd : deref a w2 = Some (c2, w2)) by (apply deref_Some; exact Hc2)
  end.
  rewrite Hd, Hsd, Hreq.
  unfold bind at 1. unfold aws_raise_error at 1.
  unfold bind at 1. rewrite accept_channel_setup_error_invoked.
  rewrite release_spec with (c := c2); [| exact Hc2 | exact Hr].
  eexists. split; [reflexivity |].
  cbn. rewrite <- !app_assoc. reflexivity.
Qed.

(** C9.  A run of the accept callback calls [on_incoming_connection] once,
    never twice.  In particular, when the callback was called with success
    and the connection then has no request handler, the channel is shut down
    with [AWS_ERROR_HTTP_REACTION_REQUIRED] and the reference is released,
    and the callback is not called again. *)
Theorem accept_calls_user_once
    (extern : foreign) (s : aws_http_server) (ch : channel)
    (env : channel_env) (put : outcome) (w : world)
    (c2 : aws_http_connection) (sd : aws_http_connection_server_data) :
  let a := fresh (dom (heap w)) in
  let w1 := with_new_connection
              (version_for (srv_is_using_tls s) (reported_protocol env))
              true ch w in
  let cb := incoming_connection_established s a in
  construction_error (srv_is_using_tls s) env = None ->
  registration_error s put = None ->
  snd (extern_memory extern cb w1) !! a = Some c2 ->
  server_data c2 = Some sd ->
  on_incoming_request sd = None ->
  0 < refcount c2 < 2 ^ 64 ->
  (exists s' w',
      s_server_bootstrap_on_accept_channel_setup extern s AWS_ERROR_SUCCESS
        (Some ch) env put w = Some (s', w')
      /\ trace w' = trace w
                    ++ [ev_on_channel_handler_installed a;
                        ev_server_lock; ev_server_unlock;
                        ev_call cb;
                        ev_channel_shutdown ch AWS_ERROR_HTTP_REACTION_REQUIRED]
                    ++ release_events c2
      /\ calls_incoming_connection 1 w w')
  /\ (forall error_code och env' put' w0 s' w',
        s_server_bootstrap_on_accept_channel_setup extern s error_code och
          env' put' w0 = Some (s', w') ->
        calls_incoming_connection 1 w0 w').
Proof.
  intros a w1 cb Hok Hreg Hc2 Hsd Hreq Hr. split.
  - destruct (accept_unconfigured extern s ch env put c2 sd w
                Hok Hreg Hc2 Hsd Hreq Hr) as (w' & Hrun & Htr).
    eexists _, w'. split; [exact Hrun |]. split; [exact Htr |].
    now apply accept_calls_once in Hrun.
  - intros error_code och env' put' w0 s' w' Hrun.
    now apply accept_calls_once in Hrun.
Qed.

Lemma accept_calls_user_once_witness :
  exists s' w',
    s_server_bootstrap_on_accept_channel_setup extern_idle sample_server
      AWS_ERROR_SUCCESS (Some 7%positive) env_plain ok empty_world
    = Some (s', w')
    /\ trace w'
       = [ev_on_channel_handler_installed 1%positive;
          ev_server_lock; ev_server_unlock;
          ev_call (call_on_incoming_connection 21%positive (Some 1%positive)
                     AWS_ERROR_SUCCESS 300);
          ev_channel_shutdown 7%positive AWS_ERROR_HTTP_REACTION_REQUIRED;
          ev_channel_shutdown 7%positive AWS_ERROR_SUCCESS;
          ev_channel_release_hold 7%positive].
Proof.
  destruct (accept_calls_user_once extern_idle sample_server 7%positive
              env_plain ok empty_world
              (connection_init AWS_HTTP_VERSION_1_1 true 7%positive)
              (mk_server_data None None)
              eq_refl eq_refl eq_refl eq_refl eq_refl ltac:(cbn; lia))
    as [(s' & w' & Hrun & Htr & _) _].
  exists s', w'. split; [exact Hrun |]. rewrite Htr. reflexivity.
Defined.

(** ** Releasing the server *)

Lemma shutdown_channels_spec chs w :
  shutdown_channels chs w
  = Some (tt, with_events
                ((fun kv => ev_channel_shutdown (fst kv)
                              AWS_ERROR_HTTP_CONNECTION_CLOSED) <$> chs) w).
Proof.
  revert w. induction chs as [| [ch c] chs IH]; intros w.
  - cbn. unfold ret, with_events. now rewrite app_nil_r, world_eta.
  - cbn [shutdown_channels]. unfold bind at 1. unfold emit at 1.
    rewrite IH. unfold with_events. cbn. now rewrite <- app_assoc.
Qed.

Lemma server_release_first s w :
  is_shutting_down s = false ->
  aws_http_server_release (Some s) w
  = Some (Some (set_is_shutting_down true s),
          with_events (first_release_events (channel_to_connection_map s)) w).
Proof.
  intros Hs. unfold aws_http_server_release. rewrite Hs. cbn [negb].
  unfold s_server_lock_synced_data, s_server_unlock_synced_data.
  unfold bind at 1. unfold emit at 1.
  unfold bind at 1. rewrite shutdown_channels_spec.
  unfold bind, emit, ret, with_events, first_release_events, broadcast_events.
  cbn. rewrite <- !app_assoc. reflexivity.
Qed.

Lemma server_release_again s w :
  is_shutting_down s = true ->
  aws_http_server_release (Some s) w
  = Some (Some s, with_events [ev_server_lock; ev_server_unlock] w).
Proof.
  intros Hs. unfold aws_http_server_release. rewrite Hs.
  unfold s_server_lock_synced_data, s_server_unlock_synced_data.
  unfold bind, emit, ret, with_events. cbn. now rewrite <- !app_assoc.
Qed.

Lemma server_release_times_again n : forall s w,
  is_shutting_down s = true ->
  server_release_times n s w
  = Some (s, with_events (later_release_events n) w).
Proof.
  induction n as [| n IH]; intros s w Hs.
  - cbn. unfold ret, with_events. now rewrite app_nil_r, world_eta.
  - cbn [server_release_times].
    rewrite (bind_Some _ _ _ _ _ (server_release_again s w Hs)).
    rewrite IH by exact Hs. unfold with_events. cbn.
    now rewrite <- app_assoc.
Qed.

Lemma server_release_times_first n s w :
  is_shutting_down s = false ->
  server_release_times (S n) s w
  = Some (set_is_shutting_down true s,
          with_events (first_release_events (channel_to_connection_map s)
                       ++ later_release_events n) w).
Proof.
  intros Hs. cbn [server_release_times].
  rewrite (bind_Some _ _ _ _ _ (server_release_first s w Hs)).
  rewrite server_release_times_again by reflexivity.
  unfold with_events. cbn [trace heap last_error].
  now rewrite <- app_assoc.
Qed.

Lemma broadcast_events_elem (m : gmap channel conn_id) ev :
  ev ∈ broadcast_events m
  <-> exists ch, ev = ev_channel_shutdown ch AWS_ERROR_HTTP_CONNECTION_CLOSED
                 /\ ch ∈ dom m.
Proof.
  unfold broadcast_events. rewrite list_elem_of_fmap. split.
  - intros ([ch c] & -> & Hin). exists ch. split; [reflexivity |].
    apply elem_of_map_to_list in Hin. apply elem_of_dom. now exists c.
  - intros (ch & -> & Hin). apply elem_of_dom in Hin. destruct Hin as [c Hc].
    exists (ch, c). split; [reflexivity |]. now apply elem_of_map_to_list.
Qed.

Lemma broadcast_events_NoDup (m : gmap channel conn_id) :
  NoDup (broadcast_events m).
Proof.
  unfold broadcast_events.
  replace ((fun kv : channel * conn_id =>
              ev_channel_shutdown (fst kv) AWS_ERROR_HTTP_CONNECTION_CLOSED)
           <$> map_to_list m)
    with ((fun ch => ev_channel_shutdown ch AWS_ERROR_HTTP_CONNECTION_CLOSED)
          <$> (map_to_list m).*1)
    by (now rewrite <- list_fmap_compose).
  apply NoDup_fmap_2; [| apply NoDup_fst_map_to_list].
  intros x y H. now inversion H.
Qed.

Lemma broadcast_events_length (m : gmap channel conn_id) :
  length (broadcast_events m) = size m.
Proof.
  unfold broadcast_events. rewrite length_fmap.
  apply length_map_to_list.
Qed.

Lemma occurrences_broadcast P (m : gmap channel conn_id) :
  (forall ch, P (ev_channel_shutdown ch AWS_ERROR_HTTP_CONNECTION_CLOSED) = false) ->
  occurrences P (broadcast_events m) = 0%nat.
Proof.
  intros HP. unfold broadcast_events, occurrences.
  induction (map_to_list m) as [| kv l IH]; [reflexivity |].
  cbn. now rewrite HP.
Qed.

Lemma occurrences_later_release P n :
  P ev_server_lock = false -> P ev_server_unlock = false ->
  occurrences P (later_release_events n) = 0%nat.
Proof.
  intros H1 H2. unfold occurrences.
  induction n as [| n IH]; [reflexivity |]. cbn. now rewrite H1, H2.
Qed.

Lemma destroy_socket_listener_once (m : gmap channel conn_id) n :
  occurrences is_destroy_socket_listener
    (first_release_events m ++ later_release_events n) = 1%nat.
Proof.
  unfold first_release_events. rewrite !occurrences_app.
  rewrite occurrences_broadcast by reflexivity.
  rewrite occurrences_later_release by reflexivity. reflexivity.
Qed.

Lemma server_released_trace extern n s w :
  is_shutting_down s = false ->
  exists w',
    server_released extern (S n) s w = Some (tt, w')
    /\ trace w' = trace w
                  ++ first_release_events (channel_to_connection_map s)
                  ++ later_release_events n
                  ++ destroy_complete_events s
                  ++ [ev_mem_release_server].
Proof.
  intros Hs. unfold server_released, get_trace.
  unfold bind at 1. unfold bind at 1.
  rewrite (server_release_times_first n s w Hs).
  unfold bind at 1. cbn [trace with_events].
  rewrite occurrences_app, Nat.add_comm, Nat.add_sub.
  rewrite destroy_socket_listener_once.
  cbn [listener_destroyed]. unfold s_server_bootstrap_on_server_listener_destroy.
  unfold s_http_server_clean_up, destroy_complete_events.
  cbn [srv_on_destroy_complete srv_user_data set_is_shutting_down].
  destruct (srv_on_destroy_complete s) as [f |].
  - unfold bind. rewrite invoke_spec. unfold ret, emit.
    eexists. split; [reflexivity |].
    cbn. norm_app. reflexivity.
  - unfold bind, ret, emit. eexists. split; [reflexivity |].
    cbn. norm_app. reflexivity.
Qed.

(** C5 as stated fails: a server may be created without
    [on_destroy_complete], and then no such call is made, however often the
    server is released. *)
Lemma server_released_without_destroy_callback :
  srv_on_destroy_complete sample_server_quiet = None
  /\ exists w',
       server_released extern_idle 2 sample_server_quiet empty_world
       = Some (tt, w')
       /\ occurrences is_channel_shutdown (trace w') = 2%nat
       /\ occurrences is_destroy_socket_listener (trace w') = 1%nat
       /\ occurrences is_on_destroy_complete (trace w') = 0%nat
       /\ occurrences is_on_destroy_complete (trace w') <> 1%nat.
Proof.
  split; [reflexivity |].
  eexists. split; [vm_compute; reflexivity |].
  cbn [trace]. repeat split; try reflexivity.
  vm_compute. discriminate.
Qed.

(** C5, amended.  However often a running server is released, it enters the
    shutting-down state once, in the first call and between taking and
    dropping the lock: that call requests the shutdown of every channel in
    the map, once each and with [AWS_ERROR_HTTP_CONNECTION_CLOSED], leaves
    the map as it is, and then starts the destruction of the listener.
    Every later call takes and drops the lock and does nothing else.  The
    listener is thus destroyed once, and [on_destroy_complete] is called
    once if the server was given one, and not at all otherwise. *)
Theorem server_release_idempotent
    (extern : foreign) (s : aws_http_server) (w : world) (n : nat) :
  is_shutting_down s = false ->
  let m := channel_to_connection_map s in
  let released := first_release_events m ++ later_release_events n in
  server_release_times (S n) s w
  = Some (set_is_shutting_down true s, with_events released w)
  /\ first_release_events m
     = [ev_server_lock] ++ broadcast_events m
       ++ [ev_server_unlock; ev_destroy_socket_listener]
  /\ channel_to_connection_map (set_is_shutting_down true s) = m
  /\ (forall ch, ch ∈ dom m <->
        ev_channel_shutdown ch AWS_ERROR_HTTP_CONNECTION_CLOSED
          ∈ broadcast_events m)
  /\ NoDup (broadcast_events m)
  /\ occurrences is_channel_shutdown released = size m
  /\ occurrences is_destroy_socket_listener released = 1%nat
  /\ exists w',
       server_released extern (S n) s w = Some (tt, w')
       /\ trace w' = trace w ++ released ++ destroy_complete_events s
                     ++ [ev_mem_release_server]
       /\ occurrences is_on_destroy_complete
            (released ++ destroy_complete_events s ++ [ev_mem_release_server])
          = match srv_on_destroy_complete s with
            | Some _ => 1%nat
            | None => 0%nat
            end.
Proof.
  intros Hs m released.
  split; [now apply server_release_times_first |].
  split; [reflexivity |]. split; [reflexivity |].
  split.
  { intros ch. rewrite broadcast_events_elem. split.
    - intros Hin. now exists ch.
    - intros (ch' & Heq & Hin). now inversion Heq. }
  split; [apply broadcast_events_NoDup |].
  split.
  { unfold released, first_release_events. rewrite !occurrences_app.
    rewrite occurrences_later_release by reflexivity.
    unfold occurrences at 1 3. cbn [List.filter is_channel_shutdown length].
    rewrite <- broadcast_events_length. unfold occurrences, broadcast_events.
    rewrite Nat.add_0_r. cbn [Nat.add]. f_equal.
    induction (map_to_list m) as [| kv l IH]; [reflexivity |].
    cbn. now rewrite IH. }
  split; [apply destroy_socket_listener_once |].
  destruct (server_released_trace extern n s w Hs) as (w' & Hrun & Htr).
  exists w'. split; [exact Hrun |]. split.
  { rewrite Htr. unfold released. now rewrite <- !app_assoc. }
  unfold released, first_release_events, destroy_complete_events.
  rewrite !occurrences_app.
  rewrite occurrences_broadcast by reflexivity.
  rewrite occurrences_later_release by reflexivity.
  now destruct (srv_on_destroy_complete s).
Qed.

Lemma server_release_idempotent_witness :
  is_shutting_down sample_server = false
  /\ server_release_times 3 sample_server empty_world
     = Some (sample_server_shutting_down,
             with_events
               [ev_server_lock; ev_server_unlock; ev_destroy_socket_listener;
                ev_server_lock; ev_server_unlock;
                ev_server_lock; ev_server_unlock] empty_world).
Proof.
  split; [reflexivity |].
  exact (proj1 (server_release_idempotent extern_idle sample_server
                  empty_world 2 eq_refl)).
Defined.

(** ** The client connect attempt *)

Lemma is_error_true e : e <> AWS_ERROR_SUCCESS -> is_error e = true.
Proof. now destruct e. Qed.

Lemma setup_failure_code_is_error reason :
  is_error (setup_failure_code reason) = true.
Proof. unfold setup_failure_code. now destruct reason. Qed.

Lemma rollback_is_construction evs :
  forallb is_rollback evs = true -> forallb is_construction evs = true.
Proof.
  induction evs as [| ev evs IH]; [reflexivity |]. cbn.
  intros H. apply andb_prop in H. destruct H as [H1 H2].
  rewrite (IH H2), andb_true_r. now destruct ev.
Qed.

Lemma client_shutdown_before_setup extern b f reason w :
  bs_on_setup b = Some f ->
  s_client_bootstrap_on_channel_shutdown extern b reason w
  = let cb := call_on_setup f None (setup_failure_code reason) (bs_user_data b) in
    Some (tt, mk_world (fst (extern_memory extern cb w))
                       (snd (extern_memory extern cb w))
                       (trace w ++ [ev_call cb; ev_mem_release_bootstrap])).
Proof.
  intros Hf. unfold s_client_bootstrap_on_channel_shutdown. rewrite Hf.
  unfold bind. rewrite invoke_spec. unfold ret, emit, setup_failure_code.
  destruct (is_error reason); cbn; now rewrite <- app_assoc.
Qed.

Lemma client_shutdown_after_setup extern b reason w :
  bs_on_setup b = None ->
  exists w',
    s_client_bootstrap_on_channel_shutdown extern b reason w = Some (tt, w')
    /\ trace w' = trace w ++ on_shutdown_events b (bs_connection b) reason
                  ++ [ev_mem_release_bootstrap].
Proof.
  intros Hf. unfold s_client_bootstrap_on_channel_shutdown, on_shutdown_events.
  rewrite Hf. destruct (bs_on_shutdown b) as [g |].
  - unfold bind. rewrite invoke_spec. unfold ret, emit.
    eexists. split; [reflexivity |]. cbn. now rewrite <- app_assoc.
  - unfold bind, ret, emit. eexists. split; reflexivity.
Qed.

Lemma client_attempt_transport_failure extern b f e w :
  bs_on_setup b = Some f ->
  is_error e = true ->
  exists w',
    client_connect_attempt extern b (transport_failure e) w = Some (tt, w')
    /\ trace w' = trace w
                  ++ [ev_call (call_on_setup f None e (bs_user_data b));
                      ev_mem_release_bootstrap].
Proof.
  intros Hf He. unfold client_connect_attempt, s_client_bootstrap_on_channel_setup.
  rewrite He, Hf. unfold invoke_ptr, aws_assert. cbn [eqb].
  unfold bind. unfold ret at 1. rewrite invoke_spec. unfold ret, emit.
  eexists. split; [reflexivity |]. cbn. now rewrite <- app_assoc.
Qed.

Lemma client_setup_failure extern b ch env monitor e w :
  setup_error b env monitor = Some e ->
  exists evs b' w',
    s_client_bootstrap_on_channel_setup extern b AWS_ERROR_SUCCESS (Some ch)
      env monitor w = Some (Some b', w')
    /\ bs_on_setup b' = bs_on_setup b
    /\ bs_user_data b' = bs_user_data b
    /\ forallb is_construction evs = true
    /\ trace w' = trace w ++ evs ++ [ev_channel_shutdown ch e].
Proof.
  intros He. unfold setup_error in He.
  unfold s_client_bootstrap_on_channel_setup.
  cbn [is_error eqb aws_assert]. mstep.
  destruct (construction_error (bs_is_using_tls b) env) as [e1 |] eqn:Hce.
  - inversion He; subst e1.
    destruct (s_connection_new_failure ch false _ env e w Hce)
      as (evs & Hnew & Hevs).
    exists evs. rewrite (bind_Some _ _ _ _ _ Hnew). repeat mstep.
    eexists _, _. split; [reflexivity |].
    split; [reflexivity |]. split; [reflexivity |].
    split; [now apply rollback_is_construction |].
    cbn. now rewrite <- app_assoc.
  - destruct (bs_monitoring_options_is_valid b) eqn:Hmon; [| discriminate].
    destruct monitor as [| e2]; [discriminate |]. inversion He; subst e2.
    exists [ev_on_channel_handler_installed (fresh (dom (heap w)))].
    rewrite (bind_Some _ _ _ _ _ (s_connection_new_ok ch false _ env w Hce)).
    cbn [bs_monitoring_options_is_valid set_bs_connection]. rewrite Hmon.
    cbn [collaborator]. repeat mstep. cbn [negb]. repeat mstep.
    eexists _, _. split; [reflexivity |].
    split; [reflexivity |]. split; [reflexivity |]. split; [reflexivity |].
    cbn. now rewrite <- app_assoc.
Qed.

Lemma client_setup_success extern b f ch env monitor w :
  bs_on_setup b = Some f ->
  setup_error b env monitor = None ->
  let a := fresh (dom (heap w)) in
  exists b' w',
    s_client_bootstrap_on_channel_setup extern b AWS_ERROR_SUCCESS (Some ch)
      env monitor w = Some (Some b', w')
    /\ bs_on_setup b' = None
    /\ bs_on_shutdown b' = bs_on_shutdown b
    /\ bs_user_data b' = bs_user_data b
    /\ bs_connection b' = Some a
    /\ trace w' = trace w
                  ++ [ev_on_channel_handler_installed a]
                  ++ statistics_events b ch
                  ++ [ev_call (call_on_setup f (Some a) AWS_ERROR_SUCCESS
                                 (bs_user_data b))].
Proof.
  intros Hf He a. unfold setup_error in He.
  unfold s_client_bootstrap_on_channel_setup, statistics_events.
  cbn [is_error eqb aws_assert]. mstep.
  destruct (construction_error (bs_is_using_tls b) env) as [e1 |] eqn:Hce;
    [discriminate |].
  rewrite (bind_Some _ _ _ _ _ (s_connection_new_ok ch false _ env w Hce)).
  fold a. cbn [bs_monitoring_options_is_valid set_bs_connection bs_on_setup
               bs_user_data bs_proxy_request_transform].
  rewrite Hf. unfold invoke_ptr.
  set (v := version_for _ _).
  assert (Hd : forall e tr,
             deref a (mk_world e (heap (with_new_connection v false ch w)) tr)
             = Some (connection_init v false ch,
                     mk_world e (heap (with_new_connection v false ch w)) tr)).
  { intros e tr. apply deref_Some. cbn. apply lookup_insert_eq. }
  destruct (bs_monitoring_options_is_valid b) eqn:Hmon.
  - destruct monitor as [| e2]; [| discriminate].
    cbn [collaborator]. repeat mstep. cbn [negb]. repeat mstep.
    unfold with_events. rewrite (bind_Some _ _ _ _ _ (Hd _ _)).
    repeat mstep.
    eexists _, _. split; [reflexivity |]. repeat (split; [reflexivity |]).
    cbn. norm_app. reflexivity.
  - repeat mstep. cbn [negb]. repeat mstep.
    unfold with_new_connection at 1.
    rewrite (bind_Some _ _ _ _ _ (Hd _ _)).
    repeat mstep.
    eexists _, _. split; [reflexivity |]. repeat (split; [reflexivity |]).
    cbn. norm_app. reflexivity.
Qed.

Lemma occurrences_construction P evs :
  (forall ev, is_construction ev = true -> P ev = false) ->
  forallb is_construction evs = true ->
  occurrences P evs = 0%nat.
Proof.
  intros HP. unfold occurrences.
  induction evs as [| ev evs IH]; [reflexivity |]. cbn.
  intros H. apply andb_prop in H. destruct H as [H1 H2].
  rewrite (HP ev H1). now apply IH.
Qed.

Lemma construction_not_on_setup ev :
  is_construction ev = true -> is_on_setup ev = false.
Proof. now destruct ev. Qed.

Lemma construction_not_on_setup_success ev :
  is_construction ev = true -> is_on_setup_success ev = false.
Proof. now destruct ev. Qed.

Lemma construction_not_on_setup_failure ev :
  is_construction ev = true -> is_on_setup_failure ev = false.
Proof. now destruct ev. Qed.

Lemma construction_not_on_shutdown ev :
  is_construction ev = true -> is_on_shutdown ev = false.
Proof. now destruct ev. Qed.

Lemma occurrences_statistics P b ch :
  P (ev_channel_set_statistics_handler ch) = false ->
  occurrences P (statistics_events b ch) = 0%nat.
Proof.
  intros HP. unfold statistics_events, occurrences.
  destruct (bs_monitoring_options_is_valid b); [| reflexivity].
  cbn. now rewrite HP.
Qed.

(** C1 as stated fails: [on_shutdown] is optional, and a bootstrap that has
    none reports a successful setup and then no shutdown. *)
Lemma client_connect_without_on_shutdown :
  bs_on_setup sample_bootstrap_no_shutdown = Some 31%positive
  /\ bs_on_shutdown sample_bootstrap_no_shutdown = None
  /\ exists w',
       client_connect_attempt extern_idle sample_bootstrap_no_shutdown
         (transport_success 7%positive env_plain ok AWS_ERROR_SUCCESS)
         empty_world = Some (tt, w')
       /\ occurrences is_on_setup_success (trace w') = 1%nat
       /\ occurrences is_on_shutdown (trace w') = 0%nat
       /\ ~ (occurrences is_on_shutdown (trace w') = 1%nat
             <-> occurrences is_on_setup_success (trace w') = 1%nat).
Proof.
  split; [reflexivity |]. split; [reflexivity |].
  eexists. split; [vm_compute; reflexivity |].
  cbn [trace]. split; [reflexivity |]. split; [reflexivity |].
  intros [_ H]. specialize (H eq_refl). vm_compute in H. discriminate H.
Qed.

(** C1, amended.  Take a connect attempt whose bootstrap has an [on_setup]
    callback, and any outcome: the transport fails, or it succeeds and the
    construction of the connection (or of its monitor) fails, or everything
    succeeds and the channel shuts down later.  Then [on_setup] is called
    once.  The call reports either success or a failure with a non-zero
    code; when the channel shut down with code zero before [on_setup] was
    called, the code reported is [AWS_ERROR_UNKNOWN].  [on_shutdown] is
    called once if the bootstrap has that callback and [on_setup] reported
    success, and is not called otherwise. *)
Theorem client_connect_notifications
    (extern : foreign) (b : aws_http_client_bootstrap) (f : fn_ptr)
    (t : transport_outcome) (w : world) :
  bs_on_setup b = Some f ->
  transport_contract t = true ->
  exists evs w',
    client_connect_attempt extern b t w = Some (tt, w')
    /\ trace w' = trace w ++ evs
    /\ occurrences is_on_setup evs = 1%nat
    /\ occurrences is_on_setup_success evs
       = (if setup_succeeds b t then 1 else 0)%nat
    /\ occurrences is_on_setup_failure evs
       = (if setup_succeeds b t then 0 else 1)%nat
    /\ occurrences is_on_shutdown evs
       = match bs_on_shutdown b with
         | Some _ => occurrences is_on_setup_success evs
         | None => 0%nat
         end
    /\ (forall ch env monitor,
          t = transport_success ch env monitor AWS_ERROR_SUCCESS ->
          setup_succeeds b t = false ->
          In (ev_call (call_on_setup f None AWS_ERROR_UNKNOWN (bs_user_data b)))
             evs).
Proof.
  intros Hf Ht. destruct t as [e | ch env monitor reason].
  - (* the transport failed *)
    cbn in Ht.
    destruct (client_attempt_transport_failure extern b f e w Hf Ht)
      as (w' & Hrun & Htr).
    eexists _, w'. split; [exact Hrun |]. split; [exact Htr |].
    unfold occurrences. cbn. rewrite Ht.
    destruct (bs_on_shutdown b); repeat split; try reflexivity; discriminate.
  - unfold client_connect_attempt. cbn [setup_succeeds].
    destruct (setup_error b env monitor) as [e |] eqn:He.
    + (* the connection could not be set up *)
      destruct (client_setup_failure extern b ch env monitor e w He)
        as (evs & b' & w1 & Hrun & Hf' & Hud & Hevs & Htr).
      rewrite (bind_Some _ _ _ _ _ Hrun).
      rewrite client_shutdown_before_setup with (f := f) by congruence.
      cbv zeta. rewrite Hud.
      eexists _, _. split; [reflexivity |].
      split; [cbn [trace]; rewrite Htr; norm_app; reflexivity |].
      rewrite !occurrences_app.
      rewrite (occurrences_construction _ _ construction_not_on_setup Hevs).
      rewrite (occurrences_construction _ _ construction_not_on_setup_success Hevs).
      rewrite (occurrences_construction _ _ construction_not_on_setup_failure Hevs).
      rewrite (occurrences_construction _ _ construction_not_on_shutdown Hevs).
      unfold occurrences. cbn. rewrite setup_failure_code_is_error.
      repeat split; try reflexivity.
      * now destruct (bs_on_shutdown b).
      * intros ch' env' monitor' Heq _. inversion Heq; subst.
        apply in_or_app. right. cbn. auto.
    + (* the connection was set up *)
      destruct (client_setup_success extern b f ch env monitor w Hf He)
        as (b' & w1 & Hrun & Hf' & Hsh & Hud & Hconn & Htr).
      rewrite (bind_Some _ _ _ _ _ Hrun).
      destruct (client_shutdown_after_setup extern b' reason w1 Hf')
        as (w' & Hdown & Htr').
      exists ([ev_on_channel_handler_installed (fresh (dom (heap w)))]
              ++ statistics_events b ch
              ++ [ev_call (call_on_setup f (Some (fresh (dom (heap w))))
                             AWS_ERROR_SUCCESS (bs_user_data b))]
              ++ on_shutdown_events b' (bs_connection b') reason
              ++ [ev_mem_release_bootstrap]), w'.
      split; [exact Hdown |].
      split; [rewrite Htr', Htr; norm_app; reflexivity |].
      rewrite !occurrences_app.
      rewrite !occurrences_statistics by reflexivity.
      unfold on_shutdown_events. rewrite Hsh.
      unfold occurrences.
      destruct (bs_on_shutdown b); cbn; repeat split; try reflexivity;
        discriminate.
Qed.

Lemma client_connect_notifications_witness :
  bs_on_setup sample_bootstrap = Some 31%positive
  /\ transport_contract
       (transport_success 7%positive env_plain ok AWS_ERROR_HTTP_CONNECTION_CLOSED)
     = true
  /\ exists w',
       client_connect_attempt extern_idle sample_bootstrap
         (transport_success 7%positive env_plain ok
            AWS_ERROR_HTTP_CONNECTION_CLOSED) empty_world
       = Some (tt, w')
       /\ occurrences is_on_setup (trace w') = 1%nat
       /\ occurrences is_on_shutdown (trace w') = 1%nat.
Proof.
  split; [reflexivity |]. split; [reflexivity |].
  destruct (client_connect_notifications extern_idle sample_bootstrap
              31%positive
              (transport_success 7%positive env_plain ok
                 AWS_ERROR_HTTP_CONNECTION_CLOSED)
              empty_world eq_refl eq_refl)
    as (evs & w' & Hrun & Htr & Hsetup & Hok & _ & Hdown & _).
  exists w'. split; [exact Hrun |]. rewrite Htr. cbn [empty_world trace app].
  split; [exact Hsetup |]. rewrite Hdown, Hok. reflexivity.
Defined.

(** ** Where servers and bootstraps come from *)

(** A server that [aws_http_server_new] returns is running, has an empty
    map, and has the callbacks of the options; [on_incoming_connection] is
    required, [on_destroy_complete] is not. *)
Lemma server_new_initial options env w s w' :
  aws_http_server_new options env w = Some (Some s, w') ->
  is_shutting_down s = false
  /\ channel_to_connection_map s = ∅
  /\ exists o, options = Some o
       /\ so_on_incoming_connection o = Some (srv_on_incoming_connection s)
       /\ srv_on_destroy_complete s = so_on_destroy_complete o.
Proof.
  unfold aws_http_server_new. destruct options as [o |]; [| discriminate].
  destruct (so_on_incoming_connection o) as [f |] eqn:Hf; [| discriminate].
  destruct (_ || _); [discriminate |].
  unfold collaborator, s_server_lock_synced_data, s_server_unlock_synced_data.
  destruct (env_mem_calloc env); [| discriminate].
  destruct (env_mutex_init env); [| discriminate].
  destruct (env_hash_table_init env); [| discriminate].
  destruct (env_new_socket_listener env); [| discriminate].
  intros H. inversion H; subst. repeat split. now exists o.
Qed.

Lemma server_new_sample :
  exists w',
    aws_http_server_new (Some sample_server_options)
      (mk_server_env ok ok ok ok) empty_world
    = Some (Some (mk_server false 300 21%positive None false ∅), w').
Proof. eexists. vm_compute. reflexivity. Qed.

(** A bootstrap that [aws_http_client_connect_internal] hands to the
    transport has an [on_setup] callback; [on_shutdown] is whatever the
    options hold, possibly nothing. *)
Lemma client_connect_internal_bootstrap options transform env w r b w' :
  aws_http_client_connect_internal options transform env w
  = Some ((r, Some b), w') ->
  r = AWS_OP_SUCCESS
  /\ exists o f, options = Some o
       /\ co_on_setup o = Some f
       /\ bs_on_setup b = Some f
       /\ bs_on_shutdown b = co_on_shutdown o
       /\ bs_connection b = None.
Proof.
  unfold aws_http_client_connect_internal. intros H.
  apply bind_inv in H. destruct H as (invalid & w1 & Hval & H).
  destruct (negb (invalid =? 0)) eqn:Hinv; [discriminate |].
  destruct options as [o |]; [| discriminate].
  assert (Hsetup : exists f, co_on_setup o = Some f).
  { unfold s_validate_http_client_connection_options in Hval.
    destruct (co_on_setup o) as [f |]; [now exists f |].
    repeat match type of Hval with
           | (if ?c then _ else _) _ = _ => destruct c
           end;
      unfold aws_raise_error in Hval; inversion Hval; subst; discriminate Hinv. }
  destruct Hsetup as [f Hf].
  unfold aws_assert, collaborator in H.
  destruct (negb (co_proxy_options o)); [| discriminate].
  destruct (env_string_new env); [| discriminate].
  destruct (env_mem_acquire_many env); [| discriminate].
  destruct (env_new_socket_channel env); [| discriminate].
  inversion H; subst. split; [reflexivity |].
  exists o, f. repeat split; assumption.
Qed.

Lemma client_connect_internal_sample :
  exists w',
    aws_http_client_connect_internal (Some sample_client_options) None
      (mk_connect_env ok ok ok) empty_world
    = Some ((AWS_OP_SUCCESS, Some sample_bootstrap_no_shutdown), w').
Proof. eexists. vm_compute. reflexivity. Qed.

(** The shutdown notification of a channel removes its entry from the map
    and changes nothing else of the server. *)
Lemma accept_channel_shutdown_removes extern s e ch w s' w' :
  s_server_bootstrap_on_accept_channel_shutdown extern s e ch w = Some (s', w') ->
  s' = set_channel_to_connection_map (delete ch (channel_to_connection_map s)) s
  /\ is_shutting_down s' = is_shutting_down s.
Proof.
  unfold s_server_bootstrap_on_accept_channel_shutdown,
    s_server_lock_synced_data, s_server_unlock_synced_data.
  rewrite !bind_emit.
  destruct (channel_to_connection_map s !! ch) as [connection |].
  - intros H. apply bind_inv in H. destruct H as (c & w1 & _ & H).
    destruct (server_data c) as [sd |]; [| discriminate].
    destruct (on_shutdown sd).
    + apply bind_inv in H. destruct H as (r & w2 & _ & H).
      unfold ret in H. inversion H; subst. now split.
    + unfold ret in H. inversion H; subst. now split.
  - unfold ret. intros H. inversion H; subst. now split.
Qed.

(** * Further properties of the file *)

(** ** [s_connection_new]: all or nothing *)

(** X1.  [s_connection_new] always returns.  When it returns NULL, no
    connection object is left behind and everything it did on the channel
    is rollback; when it returns a connection, that is one new object at an
    address that held none, of the asked role, on the given channel, of
    version HTTP/1.1 or HTTP/2 (the unsupported-version branch is never
    taken), with its installation hook called, and no error was raised. *)
Theorem s_connection_new_all_or_nothing
    (ch : channel) (is_server is_using_tls : bool) (env : channel_env)
    (w : world) :
  exists r w',
    s_connection_new ch is_server is_using_tls env w = Some (r, w')
    /\ match r with
       | None =>
           heap w' = heap w
           /\ exists evs, trace w' = trace w ++ evs
                          /\ forallb is_rollback evs = true
       | Some a =>
           heap w !! a = None
           /\ last_error w' = last_error w
           /\ trace w' = trace w ++ [ev_on_channel_handler_installed a]
           /\ exists c, heap w' = <[a := c]> (heap w)
                /\ channel_slot c = ch
                /\ aws_http_connection_is_server c = is_server
                /\ aws_http_connection_is_client c = negb is_server
                /\ (aws_http_connection_get_version c = AWS_HTTP_VERSION_1_1
                    \/ aws_http_connection_get_version c = AWS_HTTP_VERSION_2)
       end.
Proof.
  destruct (construction_error is_using_tls env) as [e |] eqn:He.
  - destruct (s_connection_new_failure ch is_server _ _ _ w He)
      as (evs & Hrun & Hevs).
    eexists None, _. split; [exact Hrun |]. split; [reflexivity |].
    now exists evs.
  - eexists (Some _), _. split; [apply (s_connection_new_ok _ _ _ _ w He) |].
    split; [apply fresh_not_live |]. split; [reflexivity |].
    split; [reflexivity |].
    eexists. split; [reflexivity |].
    split; [reflexivity |].
    split; [now destruct is_server |]. split; [now destruct is_server |].
    apply version_for_cases.
Qed.

(** X2.  With TLS in use and no TLS handler in the slot to the left,
    [s_connection_new] raises [AWS_ERROR_INVALID_STATE], removes the slot it
    had inserted and returns NULL; no constructor runs. *)
Theorem s_connection_new_without_tls_handler
    (ch : channel) (is_server : bool) (env : channel_env) (w : world) :
  env_slot_new env = ok ->
  env_slot_insert_end env = ok ->
  env_tls_protocol env = None ->
  s_connection_new ch is_server true env w
  = Some (None, mk_world AWS_ERROR_INVALID_STATE (heap w)
                  (trace w ++ [ev_channel_slot_remove ch])).
Proof.
  intros H1 H2 H3. unfold s_connection_new. rewrite H1, H2.
  cbn [collaborator]. rewrite !bind_ret. cbn [negb].
  unfold determine_http_version. rewrite H3. reflexivity.
Qed.

Lemma s_connection_new_without_tls_handler_witness :
  s_connection_new 7%positive true true env_plain empty_world
  = Some (None, mk_world AWS_ERROR_INVALID_STATE ∅
                  [ev_channel_slot_remove 7%positive]).
Proof.
  exact (s_connection_new_without_tls_handler 7%positive true env_plain
           empty_world eq_refl eq_refl eq_refl).
Defined.

(** ** Stream ids from any counter *)




(** X4.  Whatever 32-bit value the counter holds, a call never makes it
    wrap around: the counter stays where it is, with 0 returned, or moves up
    by 2, with the old value returned and no error raised; it stays a
    32-bit value. *)
Theorem get_next_stream_id_never_wraps
    (w : world) (connection : conn_id) (c : aws_http_connection) :
  heap w !! connection = Some c ->
  0 <= next_stream_id c < 2 ^ 32 ->
  exists id w' c',
    aws_http_connection_get_next_stream_id connection w = Some (id, w')
    /\ heap w' !! connection = Some c'
    /\ 0 <= next_stream_id c' < 2 ^ 32
    /\ ((id = 0 /\ MAX_STREAM_ID < next_stream_id c
         /\ next_stream_id c' = next_stream_id c
         /\ last_error w' = AWS_ERROR_HTTP_STREAM_IDS_EXHAUSTED)
        \/ (id = next_stream_id c /\ id <= MAX_STREAM_ID
            /\ next_stream_id c' = next_stream_id c + 2
            /\ last_error w' = last_error w)).
Proof.
  intros Hc Hr. pose proof MAX_STREAM_ID_eq as HM.
  destruct (Z.lt_ge_cases MAX_STREAM_ID (next_stream_id c)) as [Hlt | Hge].
  - eexists _, _, c. split; [now apply get_next_stream_id_exhausted with c |].
    split; [exact Hc |]. split; [exact Hr |]. left. now repeat split.
  - eexists _, _, _. split; [apply get_next_stream_id_valid; [exact Hc | lia] |].
    split; [apply lookup_insert_eq |]. cbn. split; [lia |]. right.
    repeat split; lia.
Qed.

Lemma get_next_stream_id_never_wraps_witness :
  heap sample_exhausted_world !! 1%positive = Some sample_exhausted_client
  /\ 0 <= next_stream_id sample_exhausted_client < 2 ^ 32
  /\ exists w', aws_http_connection_get_next_stream_id 1%positive
                  sample_exhausted_world = Some (0, w').
Proof.
  assert (H1 : heap sample_exhausted_world !! 1%positive
               = Some sample_exhausted_client) by reflexivity.
  assert (H2 : 0 <= next_stream_id sample_exhausted_client < 2 ^ 32)
    by (cbn; lia).
  split; [exact H1 |]. split; [exact H2 |].
  destruct (get_next_stream_id_never_wraps _ _ _ H1 H2)
    as (id & w' & c' & Hrun & _).
  exists w'. rewrite Hrun. vm_compute in Hrun. now inversion Hrun.
Defined.

(** ** Reference counting: round trips *)

(** X5.  [acquire] followed by [release] leaves the connection and the
    channel exactly as they were, and so does [release] followed by
    [acquire] while another reference is held. *)
Theorem acquire_release_round_trip
    (w : world) (connection : conn_id) (c : aws_http_connection) :
  heap w !! connection = Some c ->
  0 < refcount c < 2 ^ 64 - 1 ->
  (aws_http_connection_acquire connection ;;
   aws_http_connection_release connection) w = Some (tt, w)
  /\ (1 < refcount c ->
      (aws_http_connection_release connection ;;
       aws_http_connection_acquire connection) w = Some (tt, w)).
Proof.
  intros Hc Hr.
  assert (Hback : forall r c1,
             c1 = set_refcount r c ->
             with_connection connection (set_refcount (refcount c) c1)
               (with_connection connection c1 w) = w).
  { intros r c1 ->. unfold with_connection. cbn.
    rewrite insert_insert_eq.
    replace (set_refcount (refcount c) (set_refcount r c)) with c
      by now destruct c.
    rewrite insert_id by exact Hc. apply world_eta. }
  split.
  - rewrite (bind_Some _ _ _ _ _ (acquire_spec _ _ _ Hc)).
    rewrite size_t_small by lia.
    set (c1 := set_refcount (refcount c + 1) c).
    rewrite (release_not_last connection c1 _ (lookup_insert_eq _ _ _)
               ltac:(cbn; lia)).
    do 2 f_equal. cbn [refcount c1 set_refcount].
    replace (refcount c + 1 - 1) with (refcount c) by lia.
    now apply (Hback (refcount c + 1)).
  - intros H1.
    rewrite (bind_Some _ _ _ _ _ (release_not_last _ _ _ Hc ltac:(lia))).
    set (c1 := set_refcount (refcount c - 1) c).
    rewrite (acquire_spec connection c1 _ (lookup_insert_eq _ _ _)).
    do 2 f_equal. cbn [refcount c1 set_refcount].
    rewrite size_t_small by lia.
    replace (refcount c - 1 + 1) with (refcount c) by lia.
    now apply (Hback (refcount c - 1)).
Qed.

Lemma acquire_release_round_trip_witness :
  heap sample_client_world !! 1%positive = Some sample_client
  /\ 0 < refcount sample_client < 2 ^ 64 - 1
  /\ (aws_http_connection_acquire 1%positive ;;
      aws_http_connection_release 1%positive) sample_client_world
     = Some (tt, sample_client_world).
Proof.
  assert (H1 : heap sample_client_world !! 1%positive = Some sample_client)
    by reflexivity.
  assert (H2 : 0 < refcount sample_client < 2 ^ 64 - 1) by (cbn; lia).
  split; [exact H1 |]. split; [exact H2 |].
  exact (proj1 (acquire_release_round_trip _ _ _ H1 H2)).
Defined.

(** ** HTTP/2-only entry points on an HTTP/2 connection *)

(** X6.  On an HTTP/2 connection each of the seven entry points calls its
    vtable entry once, with the arguments it was given, and raises nothing
    itself.  The five entry points whose vtable entry returns [int] return
    what it returns; the two settings getters return [AWS_OP_SUCCESS]. *)
Theorem h2_entry_on_h2_dispatches
    (extern : foreign) (w : world) (connection : conn_id)
    (c : aws_http_connection) (e : h2_entry) :
  heap w !! connection = Some c ->
  http_version c = AWS_HTTP_VERSION_2 ->
  h2_entry_args_ok e = true ->
  let cl := call_vtable connection (vtable_op_of e) in
  run_h2_entry extern connection e w
  = Some (if h2_entry_is_void e then AWS_OP_SUCCESS
          else fst (extern cl (memory_of w)),
          mk_world (fst (extern_memory extern cl w))
                   (snd (extern_memory extern cl w))
                   (trace w ++ [ev_call cl])).
Proof.
  intros Hc Hv Hargs cl.
  pose proof (s_check_http2_connection_h2 _ _ _ Hc Hv) as Hcheck.
  destruct e; cbn [run_h2_entry h2_entry_is_void vtable_op_of] in *;
    unfold aws_http2_connection_change_settings, aws_http2_connection_ping,
      aws_http2_connection_send_goaway, aws_http2_connection_get_sent_goaway,
      aws_http2_connection_get_received_goaway,
      aws_http2_connection_get_local_settings,
      aws_http2_connection_get_remote_settings,
      h2_dispatch, h2_dispatch_void;
    try (cbn [h2_entry_args_ok] in Hargs; apply andb_prop in Hargs;
         destruct Hargs as [Hp Hq]; rewrite Hp, Hq; cbn [aws_assert];
         rewrite !bind_ret);
    rewrite (bind_Some _ _ _ _ _ Hcheck); cbn [Z.eqb AWS_OP_SUCCESS negb];
    try rewrite bind_invoke; try rewrite invoke_spec; reflexivity.
Qed.

Lemma h2_entry_on_h2_dispatches_witness :
  heap sample_h2_world !! 1%positive = Some sample_h2_client
  /\ http_version sample_h2_client = AWS_HTTP_VERSION_2
  /\ run_h2_entry extern_five 1%positive (get_local_settings 200) sample_h2_world
     = Some (AWS_OP_SUCCESS,
             with_events [ev_call (call_vtable 1%positive
                                     (vt_get_local_settings 200))]
               sample_h2_world)
  /\ run_h2_entry extern_five 1%positive (send_goaway 0 false None)
       sample_h2_world
     = Some (5,
             with_events [ev_call (call_vtable 1%positive
                                     (vt_send_goaway 0 false None))]
               sample_h2_world).
Proof.
  assert (H1 : heap sample_h2_world !! 1%positive = Some sample_h2_client)
    by reflexivity.
  split; [exact H1 |]. split; [reflexivity |]. split.
  - exact (h2_entry_on_h2_dispatches extern_five _ _ _
             (get_local_settings 200) H1 eq_refl eq_refl).
  - exact (h2_entry_on_h2_dispatches extern_five _ _ _
             (send_goaway 0 false None) H1 eq_refl eq_refl).
Defined.

(** ** Server configuration: what it leaves alone *)

(** X7.  [aws_http_connection_configure_server], with any arguments (NULL
    included), returns either [AWS_OP_SUCCESS] without raising an error, or
    [AWS_OP_ERR] with [AWS_ERROR_INVALID_ARGUMENT] or
    [AWS_ERROR_INVALID_STATE] raised and every object as it was.  It never
    acts on a channel, never touches another connection, and on its own
    connection never changes the version, the reference count, the stream
    id counter, the channel or the role. *)
Theorem configure_server_frame
    (connection : option conn_id)
    (options : option aws_http_server_connection_options) (w : world) :
  (forall a, connection = Some a -> is_Some (heap w !! a)) ->
  exists r w',
    aws_http_connection_configure_server connection options w = Some (r, w')
    /\ trace w' = trace w
    /\ ((r = AWS_OP_SUCCESS /\ last_error w' = last_error w)
        \/ (r = AWS_OP_ERR /\ heap w' = heap w
            /\ (last_error w' = AWS_ERROR_INVALID_ARGUMENT
                \/ last_error w' = AWS_ERROR_INVALID_STATE)))
    /\ forall a c, heap w !! a = Some c ->
         exists c', heap w' !! a = Some c'
           /\ http_version c' = http_version c
           /\ refcount c' = refcount c
           /\ next_stream_id c' = next_stream_id c
           /\ channel_slot c' = channel_slot c
           /\ aws_http_connection_is_server c' = aws_http_connection_is_server c
           /\ (connection <> Some a -> c' = c).
Proof.
  intros Hlive.
  assert (Hsame : forall e a c, heap (with_last_error e w) !! a = Some c ->
            exists c', heap (with_last_error e w) !! a = Some c'
              /\ http_version c' = http_version c
              /\ refcount c' = refcount c
              /\ next_stream_id c' = next_stream_id c
              /\ channel_slot c' = channel_slot c
              /\ aws_http_connection_is_server c' = aws_http_connection_is_server c
              /\ (connection <> Some a -> c' = c)).
  { intros e a c Ha. exists c. now repeat split. }
  assert (Hfail : forall e,
            e = AWS_ERROR_INVALID_ARGUMENT \/ e = AWS_ERROR_INVALID_STATE ->
            exists r w',
              Some (AWS_OP_ERR, with_last_error e w) = Some (r, w')
              /\ trace w' = trace w
              /\ ((r = AWS_OP_SUCCESS /\ last_error w' = last_error w)
                  \/ (r = AWS_OP_ERR /\ heap w' = heap w
                      /\ (last_error w' = AWS_ERROR_INVALID_ARGUMENT
                          \/ last_error w' = AWS_ERROR_INVALID_STATE)))
              /\ forall a c, heap w !! a = Some c ->
                   exists c', heap w' !! a = Some c'
                     /\ http_version c' = http_version c
                     /\ refcount c' = refcount c
                     /\ next_stream_id c' = next_stream_id c
                     /\ channel_slot c' = channel_slot c
                     /\ aws_http_connection_is_server c'
                        = aws_http_connection_is_server c
                     /\ (connection <> Some a -> c' = c)).
  { intros e He. eexists _, _. split; [reflexivity |]. split; [reflexivity |].
    split; [right; now repeat split |]. intros a c Ha. now apply (Hsame e). }
  unfold aws_http_connection_configure_server.
  destruct connection as [a0 |]; [| apply Hfail; now left].
  destruct options as [o |]; [| apply Hfail; now left].
  destruct (opt_on_incoming_request o) as [handler |]; [| apply Hfail; now left].
  destruct (Hlive a0 eq_refl) as [c0 Hc0].
  rewrite (bind_Some _ _ _ _ _ (deref_Some _ _ _ Hc0)).
  destruct (server_data c0) as [sd |] eqn:Hsd; [| apply Hfail; now right].
  destruct (on_incoming_request sd); [apply Hfail; now right |].
  rewrite bind_store. unfold ret.
  eexists _, _. split; [reflexivity |]. split; [reflexivity |].
  split; [left; now split |].
  intros a c Ha. cbn [heap with_connection].
  destruct (decide (a0 = a)) as [-> | Hne].
  - rewrite lookup_insert_eq. eexists. split; [reflexivity |].
    assert (c = c0) as -> by congruence.
    unfold aws_http_connection_is_server. rewrite Hsd. cbn.
    repeat split; try reflexivity. intros Hneq. now contradiction Hneq.
  - rewrite lookup_insert_ne by exact Hne. exists c. now repeat split.
Qed.

Lemma configure_server_frame_witness :
  exists w',
    aws_http_connection_configure_server None (Some sample_options)
      sample_server_world = Some (AWS_OP_ERR, w')
    /\ heap w' = heap sample_server_world
    /\ last_error w' = AWS_ERROR_INVALID_ARGUMENT.
Proof.
  destruct (configure_server_frame None (Some sample_options)
              sample_server_world ltac:(discriminate))
    as (r & w' & Hrun & _ & Hres & _).
  exists w'. vm_compute in Hrun. inversion Hrun; subst r w'.
  repeat split.
Defined.

(** ** [aws_http_server_new] *)

(** X8.  When the options are NULL or lack a required field (size,
    allocator, bootstrap, socket options, endpoint, incoming-connection
    callback), [aws_http_server_new] raises [AWS_ERROR_INVALID_ARGUMENT] and
    returns NULL before it allocates or locks anything. *)
Theorem server_new_invalid_options
    (options : option aws_http_server_options) (env : server_env) (w : world) :
  server_options_valid options = false ->
  aws_http_server_new options env w
  = Some (None, with_last_error AWS_ERROR_INVALID_ARGUMENT w).
Proof.
  unfold server_options_valid, aws_http_server_new. intros Hv.
  destruct options as [o |]; [| reflexivity].
  destruct (so_on_incoming_connection o); [| reflexivity].
  destruct (so_self_size o =? 0), (so_allocator o), (so_bootstrap o),
    (so_socket_options o), (so_endpoint o); try discriminate Hv; reflexivity.
Qed.

Lemma server_new_invalid_options_witness :
  aws_http_server_new
    (Some (mk_server_options 64 true true false true false 300
             (Some 21%positive) None))
    (mk_server_env ok ok ok ok) empty_world
  = Some (None, with_last_error AWS_ERROR_INVALID_ARGUMENT empty_world).
Proof.
  exact (server_new_invalid_options
           (Some (mk_server_options 64 true true false true false 300
                    (Some 21%positive) None))
           (mk_server_env ok ok ok ok) empty_world eq_refl).
Defined.

(** X9.  With valid options [aws_http_server_new] returns a server exactly
    when the allocation, the mutex, the hash table and the listener all
    succeed; that server is running, with an empty map and the callbacks of
    the options.  When a later step fails after the allocation succeeded,
    the server's memory is released once; it is never released otherwise.
    The lock is dropped as often as it is taken, no callback is called, and
    no connection object is touched. *)
Theorem server_new_outcome
    (o : aws_http_server_options) (env : server_env) (w : world) :
  server_options_valid (Some o) = true ->
  exists r w' evs,
    aws_http_server_new (Some o) env w = Some (r, w')
    /\ trace w' = trace w ++ evs
    /\ heap w' = heap w
    /\ (match r with
        | Some s =>
            is_ok (env_mem_calloc env) && is_ok (env_mutex_init env)
            && is_ok (env_hash_table_init env)
            && is_ok (env_new_socket_listener env) = true
            /\ is_shutting_down s = false
            /\ channel_to_connection_map s = ∅
            /\ so_on_incoming_connection o = Some (srv_on_incoming_connection s)
            /\ srv_on_destroy_complete s = so_on_destroy_complete o
            /\ srv_user_data s = so_server_user_data o
            /\ last_error w' = last_error w
        | None =>
            is_ok (env_mem_calloc env) && is_ok (env_mutex_init env)
            && is_ok (env_hash_table_init env)
            && is_ok (env_new_socket_listener env) = false
        end)
    /\ occurrences is_mem_release_server evs
       = (match r with
          | Some _ => 0
          | None => if is_ok (env_mem_calloc env) then 1 else 0
          end)%nat
    /\ occurrences is_server_lock evs = occurrences is_server_unlock evs
    /\ occurrences is_call evs = 0%nat.
Proof.
  unfold server_options_valid, aws_http_server_new. intros Hv.
  destruct (so_on_incoming_connection o) as [f |];
    [| now rewrite andb_false_r in Hv].
  rewrite andb_true_r in Hv.
  assert (Hguard : (so_self_size o =? 0) || negb (so_allocator o)
                   || negb (so_bootstrap o) || negb (so_socket_options o)
                   || negb (so_endpoint o) = false).
  { destruct (so_self_size o =? 0), (so_allocator o), (so_bootstrap o),
      (so_socket_options o), (so_endpoint o); try discriminate Hv; reflexivity. }
  rewrite Hguard.
  unfold s_server_lock_synced_data, s_server_unlock_synced_data, collaborator.
  destruct (env_mem_calloc env) as [| e1].
  2:{ repeat mstep. cbn [negb]. eexists None, _, []. rewrite app_nil_r.
      repeat split. }
  destruct (env_mutex_init env) as [| e2].
  2:{ repeat mstep. cbn [negb]. repeat mstep. cbn [negb]. repeat mstep.
      eexists None, _, [ev_mem_release_server]. repeat split. }
  destruct (env_hash_table_init env) as [| e3].
  2:{ repeat mstep. cbn [negb]. repeat mstep. cbn [negb]. repeat mstep.
      eexists None, _, [ev_mem_release_server]. repeat split. }
  destruct (env_new_socket_listener env) as [| e4].
  2:{ repeat mstep. cbn [negb]. repeat mstep. cbn [negb]. repeat mstep.
      eexists None, _, [ev_server_lock; ev_server_unlock; ev_mem_release_server].
      repeat split. cbn. now norm_app. }
  repeat mstep. cbn [negb]. repeat mstep. cbn [negb]. repeat mstep.
  eexists (Some _), _, [ev_server_lock; ev_server_unlock].
  repeat split. cbn. now norm_app.
Qed.

Lemma server_new_outcome_witness :
  server_options_valid (Some sample_server_options) = true
  /\ exists w',
       aws_http_server_new (Some sample_server_options)
         (mk_server_env ok ok (fails (AWS_ERROR_OTHER 1)) ok) empty_world
       = Some (None, w')
       /\ trace w' = [ev_mem_release_server].
Proof.
  split; [reflexivity |].
  destruct (server_new_outcome sample_server_options
              (mk_server_env ok ok (fails (AWS_ERROR_OTHER 1)) ok) empty_world
              eq_refl) as (r & w' & evs & Hrun & Htr & _).
  exists w'. vm_compute in Hrun. inversion Hrun; subst r w'.
  split; reflexivity.
Defined.

(** ** Shapes of traces *)

Lemma appends_refl P w : appends P w w.
Proof. exists []. now rewrite app_nil_r. Qed.

Lemma appends_trans P w w1 w2 :
  appends P w w1 -> appends P w1 w2 -> appends P w w2.
Proof.
  intros (e1 & H1 & P1) (e2 & H2 & P2). exists (e1 ++ e2). split.
  - now rewrite H2, H1, app_assoc.
  - now rewrite forallb_app, P1, P2.
Qed.

Lemma appends_emit P ev w u w' :
  P ev = true -> emit ev w = Some (u, w') -> appends P w w'.
Proof.
  intros HP H. unfold emit in H. inversion H; subst.
  exists [ev]. cbn. now rewrite HP.
Qed.

Lemma appends_invoke P extern c w r w' :
  P (ev_call c) = true -> invoke extern c w = Some (r, w') -> appends P w w'.
Proof.
  intros HP H. rewrite invoke_spec in H. inversion H; subst.
  exists [ev_call c]. cbn. now rewrite HP.
Qed.

Lemma appends_release connection w u w' :
  aws_http_connection_release connection w = Some (u, w') ->
  appends is_notification w w'.
Proof.
  unfold aws_http_connection_release, deref, store, emit, aws_assert, bind,
    ret, crash.
  destruct (heap w !! connection) as [c |]; [| discriminate].
  destruct (refcount c =? 1).
  - intros H. inversion H; subst.
    exists [ev_channel_shutdown (channel_slot c) AWS_ERROR_SUCCESS;
            ev_channel_release_hold (channel_slot c)].
    cbn. split; [now rewrite <- app_assoc | reflexivity].
  - destruct (negb (refcount c =? 0)); [| discriminate].
    intros H. inversion H; subst. exists []. cbn. now rewrite app_nil_r.
Qed.

Lemma appends_s_connection_new ch is_server is_using_tls env w r w' :
  s_connection_new ch is_server is_using_tls env w = Some (r, w') ->
  appends is_construction w w'.
Proof.
  destruct (construction_error is_using_tls env) as [e |] eqn:He.
  - destruct (s_connection_new_failure ch is_server _ _ _ w He)
      as (evs & -> & Hevs).
    intros H. inversion H; subst. exists evs. split; [reflexivity |].
    now apply rollback_is_construction.
  - rewrite (s_connection_new_ok _ _ _ _ w He).
    intros H. inversion H; subst.
    now exists [ev_on_channel_handler_installed (fresh (dom (heap w)))].
Qed.

Lemma appends_accept_channel_setup_error
    extern s e invoked ch connection w u w' :
  accept_channel_setup_error extern s e invoked ch connection w = Some (u, w') ->
  appends is_notification w w'.
Proof.
  unfold accept_channel_setup_error. intros H.
  apply bind_inv in H. destruct H as (code & w1 & Hcode & H).
  assert (w1 = w) as ->.
  { destruct (is_error e); unfold ret, aws_last_error in Hcode;
      now inversion Hcode. }
  apply bind_inv in H. destruct H as (u1 & w2 & Hcb & H).
  apply bind_inv in H. destruct H as (u2 & w3 & Hsh & H).
  assert (A1 : appends is_notification w w2).
  { destruct invoked.
    - unfold ret in Hcb. inversion Hcb; subst. apply appends_refl.
    - apply bind_inv in Hcb. destruct Hcb as (r & w2' & Hinv & Hret).
      unfold ret in Hret. inversion Hret; subst.
      apply (appends_invoke is_notification _ _ _ _ _) with (2 := Hinv).
      reflexivity. }
  assert (A2 : appends is_notification w2 w3).
  { destruct ch as [ch |].
    - apply (appends_emit is_notification _ _ _ _) with (2 := Hsh).
      reflexivity.
    - unfold ret in Hsh. inversion Hsh; subst. apply appends_refl. }
  assert (A3 : appends is_notification w3 w').
  { destruct connection as [connection |].
    - now apply appends_release in H.
    - unfold ret in H. inversion H; subst. apply appends_refl. }
  exact (appends_trans _ _ _ _ (appends_trans _ _ _ _ A1 A2) A3).
Qed.

(** Every run of the accept callback that returns: first what
    [s_connection_new] did, then at most one critical section, with nothing
    inside, then notifications; the server is as before or has the one new
    entry. *)
Lemma accept_shape extern s error_code och env put w s' w' :
  s_server_bootstrap_on_accept_channel_setup extern s error_code och env put w
  = Some (s', w') ->
  exists cons mid post,
    trace w' = trace w ++ cons ++ mid ++ post
    /\ forallb is_construction cons = true
    /\ (mid = [] \/ mid = [ev_server_lock; ev_server_unlock])
    /\ forallb is_notification post = true
    /\ (s' = s
        \/ exists ch a,
             och = Some ch
             /\ is_shutting_down s = false
             /\ s' = set_channel_to_connection_map
                       (<[ch := a]> (channel_to_connection_map s)) s).
Proof.
  unfold s_server_bootstrap_on_accept_channel_setup.
  destruct (is_error error_code) eqn:Herr.
  { intros H. apply bind_inv in H. destruct H as (u & w1 & Hpath & Hret).
    unfold ret in Hret. inversion Hret; subst.
    apply appends_accept_channel_setup_error in Hpath.
    destruct Hpath as (post & Htr & Hpost).
    exists [], [], post. cbn. repeat split; auto. }
  destruct och as [ch |]; [| discriminate].
  intros H. apply bind_inv in H. destruct H as (connection & w1 & Hnew & H).
  apply appends_s_connection_new in Hnew. destruct Hnew as (cons & Htr1 & Hcons).
  destruct connection as [connection |].
  2:{ apply bind_inv in H. destruct H as (u & w2 & Hpath & Hret).
      unfold ret in Hret. inversion Hret; subst.
      apply appends_accept_channel_setup_error in Hpath.
      destruct Hpath as (post & Htr & Hpost).
      exists cons, [], post. cbn. rewrite Htr, Htr1, <- app_assoc.
      repeat split; auto. }
  unfold s_server_lock_synced_data, s_server_unlock_synced_data in H.
  rewrite bind_emit in H.
  apply bind_inv in H. destruct H as (stored & w3 & Hput & H).
  rewrite bind_emit in H.
  assert (Htr3 : trace w3 = trace w1 ++ [ev_server_lock]).
  { destruct (is_shutting_down s); cbn in Hput.
    - unfold ret in Hput. now inversion Hput.
    - rewrite Herr in Hput. cbn in Hput. destruct put; cbn in Hput.
      + unfold ret in Hput. now inversion Hput.
      + now inversion Hput. }
  set (w4 := with_events [ev_server_unlock] w3) in *.
  assert (Htr4 : trace w4 = trace w ++ cons ++ [ev_server_lock; ev_server_unlock]).
  { unfold w4. cbn. rewrite Htr3, Htr1. now norm_app. }
  set (code := if is_shutting_down s then AWS_ERROR_HTTP_CONNECTION_CLOSED
               else error_code) in *.
  assert (Hfinish : forall post s1,
             (s1 = s \/ exists ch0 a, Some ch = Some ch0
                          /\ is_shutting_down s = false
                          /\ s1 = set_channel_to_connection_map
                                    (<[ch0 := a]> (channel_to_connection_map s)) s) ->
             forallb is_notification post = true ->
             forall wf, trace wf = trace w4 ++ post ->
             exists cons0 mid post0,
               trace wf = trace w ++ cons0 ++ mid ++ post0
               /\ forallb is_construction cons0 = true
               /\ (mid = [] \/ mid = [ev_server_lock; ev_server_unlock])
               /\ forallb is_notification post0 = true
               /\ (s1 = s \/ exists ch0 a, Some ch = Some ch0
                       /\ is_shutting_down s = false
                       /\ s1 = set_channel_to_connection_map
                                 (<[ch0 := a]> (channel_to_connection_map s)) s)).
  { intros post s1 Hs1 Hpost wf Hwf.
    exists cons, [ev_server_lock; ev_server_unlock], post.
    rewrite Hwf, Htr4. norm_app. repeat split; auto. }
  destruct (is_error code) eqn:Hcode.
  { cbn [negb andb] in H.
    apply bind_inv in H. destruct H as (u & w5 & Hpath & Hret).
    unfold ret in Hret. inversion Hret; subst.
    apply appends_accept_channel_setup_error in Hpath.
    destruct Hpath as (post & Htr & Hpost).
    apply (Hfinish post); auto. }
  assert (Hshut : is_shutting_down s = false).
  { unfold code in Hcode. now destruct (is_shutting_down s). }
  cbn [negb andb] in H.
  destruct stored; cbn [negb] in H.
  2:{ apply bind_inv in H. destruct H as (u & w5 & Hpath & Hret).
      unfold ret in Hret. inversion Hret; subst.
      apply appends_accept_channel_setup_error in Hpath.
      destruct Hpath as (post & Htr & Hpost).
      apply (Hfinish post); auto. }
  assert (Hins : set_channel_to_connection_map
                   (<[ch := connection]> (channel_to_connection_map s)) s = s
                 \/ exists ch0 a, Some ch = Some ch0
                      /\ is_shutting_down s = false
                      /\ set_channel_to_connection_map
                           (<[ch := connection]> (channel_to_connection_map s)) s
                         = set_channel_to_connection_map
                             (<[ch0 := a]> (channel_to_connection_map s)) s).
  { right. now exists ch, connection. }
  apply bind_inv in H. destruct H as (r & w5 & Hcb & H).
  assert (Hcb' : appends is_notification w4 w5)
    by (apply (appends_invoke is_notification _ _ _ _ _) with (2 := Hcb);
        reflexivity).
  clear Hcb. rename Hcb' into Hcb.
  apply bind_inv in H. destruct H as (c & w6 & Hderef & H).
  assert (w6 = w5) as ->.
  { unfold deref in Hderef. destruct (heap w5 !! connection); now inversion Hderef. }
  destruct (server_data c) as [sd |]; [| discriminate].
  destruct (on_incoming_request sd).
  { unfold ret in H. inversion H; subst.
    destruct Hcb as (post & Htr & Hpost). apply (Hfinish post); auto. }
  rewrite bind_raise in H.
  apply bind_inv in H. destruct H as (u & w8 & Hpath & Hret).
  unfold ret in Hret. inversion Hret; subst.
  apply appends_accept_channel_setup_error in Hpath.
  assert (Hraise : appends is_notification w5
                     (with_last_error AWS_ERROR_HTTP_REACTION_REQUIRED w5))
    by (exists []; cbn; now rewrite app_nil_r).
  destruct (appends_trans _ _ _ _ Hcb (appends_trans _ _ _ _ Hraise Hpath))
    as (post & Htr & Hpost).
  apply (Hfinish post); auto.
Qed.

(** ** The accept callback: the other paths *)

(** X10.  When the transport reports a failed accept (a non-zero error
    code), the accept callback builds nothing: it calls
    [on_incoming_connection] with no connection and that code, shuts the
    channel down with the same code if there is a channel, and leaves the
    server and its map as they are. *)
Theorem accept_transport_failure
    (extern : foreign) (s : aws_http_server) (e : error_code)
    (och : option channel) (env : channel_env) (put : outcome) (w : world) :
  is_error e = true ->
  let cb := incoming_connection_failed s e in
  s_server_bootstrap_on_accept_channel_setup extern s e och env put w
  = Some (s, mk_world (fst (extern_memory extern cb w))
                      (snd (extern_memory extern cb w))
                      (trace w ++ ev_call cb
                       :: match och with
                          | Some ch => [ev_channel_shutdown ch e]
                          | None => []
                          end)).
Proof.
  intros He cb. unfold s_server_bootstrap_on_accept_channel_setup.
  rewrite He. unfold accept_channel_setup_error. rewrite He.
  repeat mstep. fold cb.
  destruct och as [ch |]; repeat mstep; unfold ret, with_events; cbn;
    rewrite <- ?app_assoc; reflexivity.
Qed.

Lemma accept_transport_failure_witness :
  s_server_bootstrap_on_accept_channel_setup extern_idle sample_server
    (AWS_ERROR_OTHER 9) None env_plain ok empty_world
  = Some (sample_server,
          with_events [ev_call (call_on_incoming_connection 21%positive None
                                  (AWS_ERROR_OTHER 9) 300)] empty_world).
Proof.
  exact (accept_transport_failure extern_idle sample_server (AWS_ERROR_OTHER 9)
           None env_plain ok empty_world eq_refl).
Defined.

(** X11.  When the connection is built, the server is running, the
    insertion succeeds and the user configures the connection inside the
    callback, the accept callback puts (channel, connection) into the map,
    calls [on_incoming_connection] once with the connection and success,
    and does nothing after it: no channel shutdown, no release, and the
    objects are as the callback left them. *)
Theorem accept_success_registers
    (extern : foreign) (s : aws_http_server) (ch : channel)
    (env : channel_env) (put : outcome) (w : world)
    (c2 : aws_http_connection) (sd : aws_http_connection_server_data)
    (handler : fn_ptr) :
  let a := fresh (dom (heap w)) in
  let w1 := with_new_connection
              (version_for (srv_is_using_tls s) (reported_protocol env))
              true ch w in
  let cb := incoming_connection_established s a in
  construction_error (srv_is_using_tls s) env = None ->
  registration_error s put = None ->
  snd (extern_memory extern cb w1) !! a = Some c2 ->
  server_data c2 = Some sd ->
  on_incoming_request sd = Some handler ->
  s_server_bootstrap_on_accept_channel_setup extern s AWS_ERROR_SUCCESS
    (Some ch) env put w
  = Some (set_channel_to_connection_map
            (<[ch := a]> (channel_to_connection_map s)) s,
          mk_world (fst (extern_memory extern cb w1))
                   (snd (extern_memory extern cb w1))
                   (trace w ++ [ev_on_channel_handler_installed a;
                                ev_server_lock; ev_server_unlock;
                                ev_call cb])).
Proof.
  intros a w1 cb Hok Hreg Hc2 Hsd Hreq.
  unfold s_server_bootstrap_on_accept_channel_setup. cbn [is_error].
  rewrite (bind_Some _ _ _ _ _ (s_connection_new_ok ch true _ env w Hok)).
  fold a. fold w1. unfold registration_error in Hreg.
  destruct (is_shutting_down s) eqn:Hshut; [discriminate |].
  destruct put; [| discriminate].
  unfold s_server_lock_synced_data, s_server_unlock_synced_data.
  cbn [is_error negb andb collaborator]. repeat mstep. cbn [negb].
  repeat mstep.
  erewrite bind_Some; [| apply deref_Some; exact Hc2].
  rewrite Hsd, Hreq.
  unfold ret. do 2 f_equal. cbn. f_equal. now norm_app.
Qed.

Lemma accept_success_registers_witness :
  exists w',
    s_server_bootstrap_on_accept_channel_setup extern_configure sample_server
      AWS_ERROR_SUCCESS (Some 7%positive) env_plain ok empty_world
    = Some (set_channel_to_connection_map {[ 7%positive := 1%positive ]}
              sample_server, w')
    /\ trace w'
       = [ev_on_channel_handler_installed 1%positive;
          ev_server_lock; ev_server_unlock;
          ev_call (call_on_incoming_connection 21%positive (Some 1%positive)
                     AWS_ERROR_SUCCESS 300)].
Proof.
  eexists. split.
  - rewrite (accept_success_registers extern_configure sample_server 7%positive
               env_plain ok empty_world
               (configured sample_options 11%positive
                  (connection_init AWS_HTTP_VERSION_1_1 true 7%positive))
               (mk_server_data (Some 11%positive) (Some 12%positive))
               11%positive eq_refl eq_refl eq_refl eq_refl eq_refl).
    reflexivity.
  - reflexivity.
Defined.

(** ** The shutdown notification of an accepted channel *)

Lemma set_channel_to_connection_map_id s :
  set_channel_to_connection_map (channel_to_connection_map s) s = s.
Proof. now destruct s. Qed.

(** X12.  The shutdown notification of a channel takes the channel's entry
    out of the map, inside one critical section.  For a channel that is not
    in the map (its setup failed) nothing else happens and the server is
    unchanged.  For a channel that is in the map, the connection's own
    [on_shutdown] callback, if it has one, is called once, after the lock
    is dropped, with the connection, the channel's error code and the
    connection's user data. *)
Theorem accept_channel_shutdown_notifies
    (extern : foreign) (s : aws_http_server) (e : error_code) (ch : channel)
    (w : world) :
  let run := s_server_bootstrap_on_accept_channel_shutdown extern s e ch w in
  let left := with_events [ev_server_lock; ev_server_unlock] w in
  let s' := set_channel_to_connection_map
              (delete ch (channel_to_connection_map s)) s in
  (channel_to_connection_map s !! ch = None -> run = Some (s, left))
  /\ (forall a c sd,
        channel_to_connection_map s !! ch = Some a ->
        heap w !! a = Some c ->
        server_data c = Some sd ->
        channel_to_connection_map s' !! ch = None
        /\ match on_shutdown sd with
           | None => run = Some (s', left)
           | Some f =>
               let cb := call_connection_on_shutdown f a e (user_data c) in
               run = Some (s', mk_world (fst (extern_memory extern cb left))
                                        (snd (extern_memory extern cb left))
                                        (trace w ++ [ev_server_lock;
                                                     ev_server_unlock;
                                                     ev_call cb]))
           end).
Proof.
  intros run left s'. unfold run, s_server_bootstrap_on_accept_channel_shutdown,
    s_server_lock_synced_data, s_server_unlock_synced_data.
  rewrite !bind_emit. split.
  - intros Hnone. rewrite Hnone. unfold ret.
    rewrite delete_id by exact Hnone.
    rewrite set_channel_to_connection_map_id. unfold left, with_events. cbn.
    now rewrite <- app_assoc.
  - intros a c sd Hin Hc Hsd. split; [apply lookup_delete_eq |].
    rewrite Hin.
    assert (Hleft : with_events [ev_server_unlock]
                      (with_events [ev_server_lock] w) = left).
    { unfold left, with_events. cbn. now rewrite <- app_assoc. }
    rewrite Hleft.
    rewrite (bind_Some _ _ _ _ _ (deref_Some a c left Hc)), Hsd.
    destruct (on_shutdown sd) as [f |]; [| reflexivity].
    cbv zeta. rewrite bind_invoke. unfold ret. do 2 f_equal.
    unfold left. cbn. f_equal. now norm_app.
Qed.

Lemma accept_channel_shutdown_notifies_witness :
  channel_to_connection_map sample_server !! 7%positive = None
  /\ s_server_bootstrap_on_accept_channel_shutdown extern_idle sample_server
       AWS_ERROR_HTTP_CONNECTION_CLOSED 7%positive empty_world
     = Some (sample_server,
             with_events [ev_server_lock; ev_server_unlock] empty_world).
Proof.
  split; [reflexivity |].
  exact (proj1 (accept_channel_shutdown_notifies extern_idle sample_server
                  AWS_ERROR_HTTP_CONNECTION_CLOSED 7%positive empty_world)
           eq_refl).
Defined.

(** X13.  Accepting a channel and then receiving its shutdown notification
    brings the map back to what it was, whichever path the accept took, as
    long as the channel was not in the map before; the shutting-down flag
    is untouched by both. *)
Theorem accept_then_shutdown_restores_map
    (extern : foreign) (s s1 s2 : aws_http_server) (e1 e2 : error_code)
    (ch : channel) (env : channel_env) (put : outcome) (w w1 w2 : world) :
  channel_to_connection_map s !! ch = None ->
  s_server_bootstrap_on_accept_channel_setup extern s e1 (Some ch) env put w
  = Some (s1, w1) ->
  s_server_bootstrap_on_accept_channel_shutdown extern s1 e2 ch w1
  = Some (s2, w2) ->
  s2 = s.
Proof.
  intros Hnone Hup Hdown.
  apply accept_shape in Hup.
  destruct Hup as (_ & _ & _ & _ & _ & _ & _ & Hs1).
  apply accept_channel_shutdown_removes in Hdown. destruct Hdown as [-> _].
  destruct Hs1 as [-> | (ch0 & a & Hch & _ & ->)].
  - rewrite delete_id by exact Hnone. apply set_channel_to_connection_map_id.
  - inversion Hch; subst ch0. unfold set_channel_to_connection_map. cbn.
    rewrite delete_insert_id by exact Hnone. now destruct s.
Qed.

Lemma accept_then_shutdown_restores_map_witness :
  exists s1 w1 w2,
    s_server_bootstrap_on_accept_channel_setup extern_configure sample_server
      AWS_ERROR_SUCCESS (Some 7%positive) env_plain ok empty_world
    = Some (s1, w1)
    /\ channel_to_connection_map s1 !! 7%positive = Some 1%positive
    /\ s_server_bootstrap_on_accept_channel_shutdown extern_configure s1
         AWS_ERROR_SUCCESS 7%positive w1
       = Some (sample_server, w2).
Proof.
  destruct (s_server_bootstrap_on_accept_channel_setup extern_configure
              sample_server AWS_ERROR_SUCCESS (Some 7%positive) env_plain ok
              empty_world) as [[s1 w1] |] eqn:Hup;
    [| vm_compute in Hup; discriminate Hup].
  destruct (s_server_bootstrap_on_accept_channel_shutdown extern_configure s1
              AWS_ERROR_SUCCESS 7%positive w1) as [[s2 w2] |] eqn:Hdown.
  - exists s1, w1, w2. split; [reflexivity |]. split.
    + vm_compute in Hup. inversion Hup. reflexivity.
    + rewrite Hdown.
      now rewrite (accept_then_shutdown_restores_map extern_configure
                     sample_server s1 s2 _ _ 7%positive env_plain ok
                     empty_world w1 w2 eq_refl Hup Hdown).
  - vm_compute in Hup. inversion Hup; subst s1 w1.
    vm_compute in Hdown. discriminate Hdown.
Defined.

(** ** The server over its whole life *)

Lemma occurrences_forallb (P Q : event -> bool) evs :
  (forall ev, P ev = true -> Q ev = false) ->
  forallb P evs = true ->
  occurrences Q evs = 0%nat.
Proof.
  intros HPQ. unfold occurrences.
  induction evs as [| ev evs IH]; [reflexivity |]. cbn.
  intros H. apply andb_prop in H. destruct H as [H1 H2].
  rewrite (HPQ ev H1). now apply IH.
Qed.

Lemma lock_discipline_app held evs1 evs2 :
  lock_discipline held (evs1 ++ evs2)
  = match lock_discipline held evs1 with
    | Some held' => lock_discipline held' evs2
    | None => None
    end.
Proof.
  revert held. induction evs1 as [| ev evs1 IH]; intros held; [reflexivity |].
  destruct ev as [c | | | | | | | | | | |]; cbn; try apply IH;
    destruct held; try reflexivity; apply IH.
Qed.

(** Without the lock held, events other than the lock's own change
    nothing. *)
Lemma lock_discipline_unlocked evs :
  forallb (fun ev => negb (is_lock_event ev)) evs = true ->
  lock_discipline false evs = Some false.
Proof.
  induction evs as [| ev evs IH]; [reflexivity |]. cbn.
  intros H. apply andb_prop in H. destruct H as [H1 H2].
  destruct ev; try discriminate H1; cbn; now apply IH.
Qed.

(** With the lock held, events that are neither the lock's own nor calls of
    foreign code change nothing. *)
Lemma lock_discipline_locked evs :
  forallb (fun ev => negb (is_lock_event ev) && negb (is_call ev)) evs = true ->
  lock_discipline true evs = Some true.
Proof.
  induction evs as [| ev evs IH]; [reflexivity |]. cbn.
  intros H. apply andb_prop in H. destruct H as [H1 H2].
  destruct ev; try discriminate H1; cbn; now apply IH.
Qed.

Lemma forallb_weaken (P Q : event -> bool) evs :
  (forall ev, P ev = true -> Q ev = true) ->
  forallb P evs = true -> forallb Q evs = true.
Proof.
  intros HPQ. induction evs as [| ev evs IH]; [reflexivity |]. cbn.
  intros H. apply andb_prop in H. destruct H as [H1 H2].
  now rewrite (HPQ ev H1), IH.
Qed.

Lemma broadcast_events_quiet (m : gmap channel conn_id) :
  forallb (fun ev => negb (is_lock_event ev) && negb (is_call ev))
    (broadcast_events m) = true.
Proof.
  unfold broadcast_events.
  induction (map_to_list m) as [| kv l IH]; [reflexivity |]. cbn. exact IH.
Qed.

Lemma accept_channel_shutdown_shape extern s e ch w s' w' :
  s_server_bootstrap_on_accept_channel_shutdown extern s e ch w = Some (s', w') ->
  exists post,
    trace w' = trace w ++ [ev_server_lock; ev_server_unlock] ++ post
    /\ forallb is_call post = true.
Proof.
  unfold s_server_bootstrap_on_accept_channel_shutdown,
    s_server_lock_synced_data, s_server_unlock_synced_data.
  rewrite !bind_emit.
  destruct (channel_to_connection_map s !! ch) as [connection |].
  - intros H. apply bind_inv in H. destruct H as (c & w1 & Hd & H).
    assert (w1 = with_events [ev_server_unlock] (with_events [ev_server_lock] w))
      as ->.
    { unfold deref in Hd.
      destruct (heap _ !! connection); now inversion Hd. }
    destruct (server_data c) as [sd |]; [| discriminate].
    destruct (on_shutdown sd) as [f |].
    + rewrite bind_invoke in H. unfold ret in H. inversion H; subst.
      eexists [_]. cbn. split; [now norm_app | reflexivity].
    + unfold ret in H. inversion H; subst.
      exists []. cbn. split; [now norm_app | reflexivity].
  - unfold ret. intros H. inversion H; subst.
    exists []. cbn. split; [now norm_app | reflexivity].
Qed.

(** One step in the life of a server. *)
Lemma server_op_step extern op s w s' w' :
  run_server_op extern op s w = Some (s', w') ->
  exists evs,
    trace w' = trace w ++ evs
    /\ is_shutting_down s' = is_shutting_down s || is_server_release op
    /\ occurrences is_destroy_socket_listener evs
       = (if negb (is_shutting_down s) && is_server_release op then 1 else 0)%nat
    /\ (is_shutting_down s = true ->
        dom (channel_to_connection_map s') ⊆ dom (channel_to_connection_map s))
    /\ lock_discipline false evs = Some false.
Proof.
  destruct op as [| e och env put | e ch]; cbn [run_server_op is_server_release].
  - (* release *)
    destruct (is_shutting_down s) eqn:Hs.
    + rewrite (bind_Some _ _ _ _ _ (server_release_again s w Hs)).
      unfold ret. intros H. inversion H; subst.
      exists [ev_server_lock; ev_server_unlock]. now repeat split.
    + rewrite (bind_Some _ _ _ _ _ (server_release_first s w Hs)).
      unfold ret. intros H. inversion H; subst.
      exists (first_release_events (channel_to_connection_map s)).
      split; [reflexivity |]. split; [reflexivity |].
      split; [pose proof (destroy_socket_listener_once
                            (channel_to_connection_map s) 0) as Hd;
              cbn [later_release_events] in Hd; now rewrite app_nil_r in Hd |].
      split; [discriminate |].
      unfold first_release_events. cbn [app lock_discipline].
      rewrite lock_discipline_app.
      now rewrite (lock_discipline_locked _ (broadcast_events_quiet _)).
  - (* a channel is accepted *)
    intros H. apply accept_shape in H.
    destruct H as (cons & mid & post & Htr & Hcons & Hmid & Hpost & Hs').
    exists (cons ++ mid ++ post). split; [exact Htr |].
    rewrite andb_false_r, orb_false_r.
    split; [destruct Hs' as [-> | (? & ? & _ & _ & ->)]; reflexivity |].
    split.
    { rewrite !occurrences_app.
      rewrite (occurrences_forallb is_construction _ cons) by
        (try exact Hcons; intros ev; now destruct ev).
      rewrite (occurrences_forallb is_notification _ post) by
        (try exact Hpost; intros ev; now destruct ev).
      now destruct Hmid as [-> | ->]. }
    split.
    { intros Hshut. destruct Hs' as [-> | (? & ? & _ & Hrun & _)];
        [reflexivity | congruence]. }
    assert (Hm : lock_discipline false mid = Some false)
      by now destruct Hmid as [-> | ->].
    rewrite lock_discipline_app.
    rewrite (lock_discipline_unlocked cons)
      by (apply (forallb_weaken is_construction); [| exact Hcons];
          intros ev; now destruct ev).
    rewrite lock_discipline_app, Hm.
    apply lock_discipline_unlocked.
    apply (forallb_weaken is_notification); [| exact Hpost].
    intros ev; now destruct ev.
  - (* a channel has shut down *)
    intros H. destruct (accept_channel_shutdown_shape _ _ _ _ _ _ _ H)
      as (post & Htr & Hpost).
    apply accept_channel_shutdown_removes in H. destruct H as [-> Hflag].
    exists ([ev_server_lock; ev_server_unlock] ++ post).
    split; [exact Htr |]. rewrite andb_false_r, orb_false_r.
    split; [reflexivity |]. split.
    { rewrite occurrences_app.
      rewrite (occurrences_forallb is_call _ post) by
        (try exact Hpost; intros ev; now destruct ev).
      reflexivity. }
    split.
    { intros _. cbn. rewrite dom_delete_L.
      intros x Hx. apply elem_of_difference in Hx. now destruct Hx. }
    cbn [app lock_discipline].
    apply lock_discipline_unlocked.
    apply (forallb_weaken is_call); [| exact Hpost].
    intros ev; now destruct ev.
Qed.

(** Any number of steps. *)
Lemma server_ops_invariant extern ops : forall s w s' w',
  run_server_ops extern ops s w = Some (s', w') ->
  exists evs,
    trace w' = trace w ++ evs
    /\ is_shutting_down s' = is_shutting_down s || existsb is_server_release ops
    /\ occurrences is_destroy_socket_listener evs
       = (if negb (is_shutting_down s) && existsb is_server_release ops
          then 1 else 0)%nat
    /\ (is_shutting_down s = true ->
        dom (channel_to_connection_map s') ⊆ dom (channel_to_connection_map s))
    /\ lock_discipline false evs = Some false.
Proof.
  induction ops as [| op ops IH]; intros s w s' w' H.
  - cbn in H. unfold ret in H. inversion H; subst.
    exists []. rewrite app_nil_r, orb_false_r, andb_false_r. now repeat split.
  - cbn [run_server_ops] in H. apply bind_inv in H.
    destruct H as (s1 & w1 & Hstep & Hrest).
    apply server_op_step in Hstep.
    destruct Hstep as (e1 & Htr1 & Hf1 & Hd1 & Hm1 & Hl1).
    apply IH in Hrest.
    destruct Hrest as (e2 & Htr2 & Hf2 & Hd2 & Hm2 & Hl2).
    exists (e1 ++ e2). split; [now rewrite Htr2, Htr1, app_assoc |].
    cbn [existsb]. split; [rewrite Hf2, Hf1; now rewrite orb_assoc |].
    split.
    { rewrite occurrences_app, Hd1, Hd2, Hf1.
      destruct (is_shutting_down s), (is_server_release op),
        (existsb is_server_release ops); reflexivity. }
    split.
    { intros Hs. specialize (Hm1 Hs).
      assert (Hs1 : is_shutting_down s1 = true) by (rewrite Hf1, Hs; reflexivity).
      specialize (Hm2 Hs1). intros x Hx. apply Hm1, Hm2, Hx. }
    now rewrite lock_discipline_app, Hl1.
Qed.

(** X14.  Over any sequence of releases, accepted channels and channel
    shutdowns that a server goes through, the shutting-down flag is set by
    the first release and never cleared; the destruction of the listener is
    requested once, by that release, and never if the server was already
    shutting down; and from the moment the server is shutting down its map
    gets no new channel. *)
Theorem server_shutdown_is_one_way
    (extern : foreign) (ops : list server_op) (s s' : aws_http_server)
    (w w' : world) :
  run_server_ops extern ops s w = Some (s', w') ->
  exists evs,
    trace w' = trace w ++ evs
    /\ is_shutting_down s' = is_shutting_down s || existsb is_server_release ops
    /\ occurrences is_destroy_socket_listener evs
       = (if negb (is_shutting_down s) && existsb is_server_release ops
          then 1 else 0)%nat
    /\ (is_shutting_down s = true ->
        dom (channel_to_connection_map s') ⊆ dom (channel_to_connection_map s)).
Proof.
  intros H. apply server_ops_invariant in H.
  destruct H as (evs & Htr & Hf & Hd & Hm & _). now exists evs.
Qed.

Lemma server_shutdown_is_one_way_witness :
  exists s' w',
    run_server_ops extern_configure sample_server_life sample_server empty_world
    = Some (s', w')
    /\ is_shutting_down s' = true
    /\ channel_to_connection_map s' = ∅
    /\ occurrences is_destroy_socket_listener (trace w') = 1%nat.
Proof.
  destruct (run_server_ops extern_configure sample_server_life sample_server
              empty_world) as [[s' w'] |] eqn:Hrun;
    [| vm_compute in Hrun; discriminate Hrun].
  exists s', w'. split; [reflexivity |].
  destruct (server_shutdown_is_one_way _ _ _ _ _ _ Hrun)
    as (evs & Htr & Hflag & Hcount & _).
  split; [exact Hflag |]. split.
  - vm_compute in Hrun. inversion Hrun. reflexivity.
  - rewrite Htr. exact Hcount.
Defined.

(** X15.  Over any such sequence, the server's lock is taken and dropped in
    turn and is free at the end, and no user callback runs while it is
    held: [on_incoming_connection] and a connection's [on_shutdown] are
    always called after the critical section is left. *)
Theorem server_callbacks_outside_lock
    (extern : foreign) (ops : list server_op) (s s' : aws_http_server)
    (w w' : world) :
  run_server_ops extern ops s w = Some (s', w') ->
  exists evs,
    trace w' = trace w ++ evs
    /\ lock_discipline false evs = Some false.
Proof.
  intros H. apply server_ops_invariant in H.
  destruct H as (evs & Htr & _ & _ & _ & Hl). now exists evs.
Qed.

Lemma server_callbacks_outside_lock_witness :
  exists s' w',
    run_server_ops extern_configure sample_server_life sample_server empty_world
    = Some (s', w')
    /\ lock_discipline false (trace w') = Some false
    /\ occurrences is_call (trace w') = 3%nat.
Proof.
  destruct (run_server_ops extern_configure sample_server_life sample_server
              empty_world) as [[s' w'] |] eqn:Hrun;
    [| vm_compute in Hrun; discriminate Hrun].
  exists s', w'. split; [reflexivity |].
  destruct (server_callbacks_outside_lock _ _ _ _ _ _ Hrun)
    as (evs & Htr & Hlock).
  split; [rewrite Htr; exact Hlock |].
  vm_compute in Hrun. inversion Hrun. reflexivity.
Defined.

(** ** Starting a client connection *)

Lemma validate_client_options_spec options w :
  s_validate_http_client_connection_options options w
  = Some (if client_options_valid options then (AWS_OP_SUCCESS, w)
          else (AWS_OP_ERR, with_last_error AWS_ERROR_INVALID_ARGUMENT w)).
Proof.
  unfold s_validate_http_client_connection_options, client_options_valid.
  destruct options as [o |]; [| reflexivity].
  destruct (co_self_size o =? 0); [reflexivity |].
  destruct (co_allocator o); [| reflexivity].
  destruct (Nat.eqb (String.length (co_host_name o)) 0); [reflexivity |].
  destruct (co_socket_options o); [| reflexivity].
  destruct (co_on_setup o); [| reflexivity].
  cbn [negb andb].
  destruct (co_http2_options o) as [[num array] |]; cbn [fst snd].
  - destruct (num =? 0), array; cbn [negb andb orb]; try reflexivity;
      destruct (co_monitoring_options o) as [[] |]; reflexivity.
  - cbn. destruct (co_monitoring_options o) as [[] |]; reflexivity.
Qed.

(** X16.  [aws_http_client_connect_internal] fails or succeeds on the spot
    and never calls a user callback itself.  It hands a bootstrap to the
    transport exactly when it returns [AWS_OP_SUCCESS], which takes valid
    options and a successful host-name copy, allocation and channel start;
    that bootstrap carries the callbacks and user data of the options and
    no connection yet.  Invalid options raise
    [AWS_ERROR_INVALID_ARGUMENT] and touch nothing.  The bootstrap's memory
    is released by this function only when it was allocated and the
    channel could not be started. *)
Theorem client_connect_internal_outcome
    (options : option aws_http_client_connection_options)
    (transform : option fn_ptr) (env : connect_env) (w : world) :
  (forall o, options = Some o -> co_proxy_options o = false) ->
  exists r ob w' evs,
    aws_http_client_connect_internal options transform env w
    = Some ((r, ob), w')
    /\ trace w' = trace w ++ evs
    /\ heap w' = heap w
    /\ occurrences is_call evs = 0%nat
    /\ (client_options_valid options = false ->
        r = AWS_OP_ERR /\ ob = None /\ evs = []
        /\ last_error w' = AWS_ERROR_INVALID_ARGUMENT)
    /\ match ob with
       | Some b =>
           r = AWS_OP_SUCCESS /\ evs = [] /\ last_error w' = last_error w
           /\ client_options_valid options = true
           /\ is_ok (env_string_new env) && is_ok (env_mem_acquire_many env)
              && is_ok (env_new_socket_channel env) = true
           /\ bs_connection b = None
           /\ bs_proxy_request_transform b = transform
           /\ exists o, options = Some o
                /\ bs_on_setup b = co_on_setup o
                /\ bs_on_shutdown b = co_on_shutdown o
                /\ bs_user_data b = co_user_data o
                /\ bs_is_using_tls b = co_tls_options o
       | None =>
           r = AWS_OP_ERR
           /\ occurrences is_mem_release_bootstrap evs
              = (if client_options_valid options && is_ok (env_string_new env)
                    && is_ok (env_mem_acquire_many env)
                 then 1 else 0)%nat
       end.
Proof.
  intros Hproxy. unfold aws_http_client_connect_internal.
  pose proof (validate_client_options_spec options w) as Hval.
  destruct (client_options_valid options) eqn:Hvalid;
    rewrite (bind_Some _ _ _ _ _ Hval); clear Hval.
  2:{ cbn. unfold ret. eexists _, None, _, []. rewrite app_nil_r.
      split; [reflexivity |]. repeat split. }
  cbn [fst snd Z.eqb AWS_OP_SUCCESS negb].
  destruct options as [o |]; [| discriminate Hvalid].
  rewrite (Hproxy o eq_refl). cbn [negb aws_assert]. rewrite bind_ret.
  unfold collaborator.
  destruct (env_string_new env) as [| e1].
  2:{ repeat mstep. cbn [negb]. unfold ret. eexists _, None, _, [].
      rewrite app_nil_r. split; [reflexivity |].
      repeat split; discriminate. }
  destruct (env_mem_acquire_many env) as [| e2].
  2:{ repeat mstep. cbn [negb]. repeat mstep. cbn [negb]. unfold ret.
      eexists _, None, _, []. rewrite app_nil_r. split; [reflexivity |].
      repeat split; discriminate. }
  destruct (env_new_socket_channel env) as [| e3].
  2:{ repeat mstep. cbn [negb]. repeat mstep. cbn [negb]. repeat mstep.
      cbn [negb]. repeat mstep. unfold ret.
      eexists _, None, _, [ev_mem_release_bootstrap].
      split; [reflexivity |]. repeat split; discriminate. }
  repeat mstep. cbn [negb]. repeat mstep. cbn [negb]. repeat mstep.
  cbn [negb]. unfold ret.
  eexists _, (Some _), _, []. rewrite app_nil_r. split; [reflexivity |].
  repeat split; try discriminate. now exists o.
Qed.

Lemma client_connect_internal_outcome_witness :
  client_options_valid (Some sample_client_options_bad_monitor) = false
  /\ aws_http_client_connect_internal (Some sample_client_options_bad_monitor)
       None (mk_connect_env ok ok ok) empty_world
     = Some ((AWS_OP_ERR, None),
             with_last_error AWS_ERROR_INVALID_ARGUMENT empty_world).
Proof.
  split; [reflexivity |].
  destruct (client_connect_internal_outcome
              (Some sample_client_options_bad_monitor) None
              (mk_connect_env ok ok ok) empty_world
              ltac:(intros o Ho; inversion Ho; reflexivity))
    as (r & ob & w' & evs & Hrun & _).
  rewrite Hrun. vm_compute in Hrun. inversion Hrun. reflexivity.
Defined.

(** ** The client setup callback *)

(** X17.  On the successful path of the client setup callback, the new
    connection already carries the bootstrap's user data and proxy
    transform when [on_setup] is called, the statistics handler (if
    monitoring is on) is installed before that call, and afterwards the
    bootstrap holds the connection and has its [on_setup] cleared, so the
    shutdown callback will report a shutdown and not a failed setup. *)
Theorem client_setup_success_state
    (extern : foreign) (b : aws_http_client_bootstrap) (f : fn_ptr)
    (ch : channel) (env : channel_env) (monitor : outcome) (w : world) :
  bs_on_setup b = Some f ->
  setup_error b env monitor = None ->
  let a := fresh (dom (heap w)) in
  let c := set_user_data (bs_user_data b)
             (set_proxy_request_transform (bs_proxy_request_transform b)
                (connection_init
                   (version_for (bs_is_using_tls b) (reported_protocol env))
                   false ch)) in
  let cb := call_on_setup f (Some a) AWS_ERROR_SUCCESS (bs_user_data b) in
  let before := mk_world (last_error w) (<[a := c]> (heap w))
                  (trace w ++ [ev_on_channel_handler_installed a]
                   ++ statistics_events b ch) in
  s_client_bootstrap_on_channel_setup extern b AWS_ERROR_SUCCESS (Some ch)
    env monitor w
  = Some (Some (set_bs_on_setup None (set_bs_connection (Some a) b)),
          mk_world (fst (extern_memory extern cb before))
                   (snd (extern_memory extern cb before))
                   (trace before ++ [ev_call cb])).
Proof.
  intros Hf He a c cb before. unfold setup_error in He.
  unfold s_client_bootstrap_on_channel_setup.
  cbn [is_error eqb aws_assert]. mstep.
  destruct (construction_error (bs_is_using_tls b) env) as [e1 |] eqn:Hce;
    [discriminate |].
  rewrite (bind_Some _ _ _ _ _ (s_connection_new_ok ch false _ env w Hce)).
  fold a. cbn [bs_monitoring_options_is_valid set_bs_connection bs_on_setup
               bs_user_data bs_proxy_request_transform].
  rewrite Hf. unfold invoke_ptr.
  set (v := version_for _ _) in *.
  assert (Hd : forall e tr,
             deref a (mk_world e (heap (with_new_connection v false ch w)) tr)
             = Some (connection_init v false ch,
                     mk_world e (heap (with_new_connection v false ch w)) tr)).
  { intros e tr. apply deref_Some. cbn. apply lookup_insert_eq. }
  assert (Hheap : <[a := c]> (heap (with_new_connection v false ch w))
                  = <[a := c]> (heap w)).
  { cbn. fold a. apply insert_insert_eq. }
  unfold before, statistics_events.
  destruct (bs_monitoring_options_is_valid b) eqn:Hmon.
  - destruct monitor as [| e2]; [| discriminate].
    cbn [collaborator]. repeat mstep. cbn [negb]. repeat mstep.
    unfold with_events. rewrite (bind_Some _ _ _ _ _ (Hd _ _)).
    repeat mstep. unfold ret, with_connection, extern_memory, memory_of.
    cbn [last_error heap trace]. fold c. rewrite Hheap.
    do 2 f_equal. f_equal. cbn. now norm_app.
  - repeat mstep. cbn [negb]. repeat mstep.
    unfold with_new_connection at 1.
    rewrite (bind_Some _ _ _ _ _ (Hd _ _)).
    repeat mstep. unfold ret, with_connection, extern_memory, memory_of.
    cbn [last_error heap trace]. fold c. rewrite Hheap.
    do 2 f_equal; try (f_equal; cbn; now norm_app).
Qed.

Lemma client_setup_success_state_witness :
  exists w',
    s_client_bootstrap_on_channel_setup extern_idle sample_bootstrap
      AWS_ERROR_SUCCESS (Some 7%positive) env_plain ok empty_world
    = Some (Some (set_bs_on_setup None
                    (set_bs_connection (Some 1%positive) sample_bootstrap)), w')
    /\ exists c, heap w' !! 1%positive = Some c /\ user_data c = 400.
Proof.
  eexists. split.
  - rewrite (client_setup_success_state extern_idle sample_bootstrap 31%positive
               7%positive env_plain ok empty_world eq_refl eq_refl).
    reflexivity.
  - eexists. split; [vm_compute; reflexivity | reflexivity].
Defined.

(** X18.  The client setup callback aborts exactly when the transport
    breaks its contract, that is when it reports an error together with a
    channel or success without one; in every other case it returns. *)
Theorem client_setup_contract
    (extern : foreign) (b : aws_http_client_bootstrap) (f : fn_ptr)
    (e : error_code) (och : option channel) (env : channel_env)
    (monitor : outcome) (w : world) :
  bs_on_setup b = Some f ->
  (s_client_bootstrap_on_channel_setup extern b e och env monitor w = None
   <-> is_error e = match och with Some _ => true | None => false end).
Proof.
  intros Hf. destruct (is_error e) eqn:He, och as [ch |].
  - (* an error and a channel *)
    split; [reflexivity |]. intros _.
    unfold s_client_bootstrap_on_channel_setup. now rewrite He.
  - (* an error and no channel *)
    split; [| discriminate]. intros Hrun. exfalso.
    assert (Hsome : exists r,
               s_client_bootstrap_on_channel_setup extern b e None env monitor w
               = Some r).
    { unfold s_client_bootstrap_on_channel_setup.
      rewrite He, Hf. unfold invoke_ptr. cbn [eqb aws_assert].
      repeat mstep. unfold ret. eexists. reflexivity. }
    destruct Hsome as [r Hr]. congruence.
  - (* success and a channel *)
    split; [| discriminate]. intros Hrun. exfalso.
    assert (e = AWS_ERROR_SUCCESS) as -> by now destruct e.
    destruct (setup_error b env monitor) as [e1 |] eqn:Hse.
    + destruct (client_setup_failure extern b ch env monitor e1 w Hse)
        as (evs & b' & w' & Hok & _). congruence.
    + destruct (client_setup_success extern b f ch env monitor w Hf Hse)
        as (b' & w' & Hok & _). congruence.
  - (* success and no channel *)
    split; [reflexivity |]. intros _.
    unfold s_client_bootstrap_on_channel_setup. now rewrite He.
Qed.

Lemma client_setup_contract_witness :
  bs_on_setup sample_bootstrap = Some 31%positive
  /\ s_client_bootstrap_on_channel_setup extern_idle sample_bootstrap
       AWS_ERROR_SUCCESS None env_plain ok empty_world = None
  /\ s_client_bootstrap_on_channel_setup extern_idle sample_bootstrap
       AWS_ERROR_UNKNOWN (Some 7%positive) env_plain ok empty_world = None.
Proof.
  split; [reflexivity |]. split.
  - apply (client_setup_contract extern_idle sample_bootstrap 31%positive
             AWS_ERROR_SUCCESS None env_plain ok empty_world eq_refl).
    reflexivity.
  - apply (client_setup_contract extern_idle sample_bootstrap 31%positive
             AWS_ERROR_UNKNOWN (Some 7%positive) env_plain ok empty_world
             eq_refl).
    reflexivity.
Defined.

(** X19.  When the connection or its monitor cannot be built on a channel
    that was set up, the client setup callback tells the user nothing yet:
    it requests the shutdown of the channel with the error that was raised,
    calls no callback, keeps the bootstrap and its pending [on_setup], and
    leaves the notification to the shutdown callback. *)
Theorem client_setup_failure_defers
    (extern : foreign) (b : aws_http_client_bootstrap) (ch : channel)
    (env : channel_env) (monitor : outcome) (e : error_code) (w : world) :
  setup_error b env monitor = Some e ->
  exists evs b' w',
    s_client_bootstrap_on_channel_setup extern b AWS_ERROR_SUCCESS (Some ch)
      env monitor w = Some (Some b', w')
    /\ trace w' = trace w ++ evs ++ [ev_channel_shutdown ch e]
    /\ occurrences is_call evs = 0%nat
    /\ occurrences is_channel_shutdown evs = 0%nat
    /\ occurrences is_mem_release_bootstrap evs = 0%nat
    /\ bs_on_setup b' = bs_on_setup b
    /\ bs_user_data b' = bs_user_data b.
Proof.
  intros He.
  destruct (client_setup_failure extern b ch env monitor e w He)
    as (evs & b' & w' & Hrun & Hf & Hud & Hevs & Htr).
  exists evs, b', w'. split; [exact Hrun |]. split; [exact Htr |].
  repeat split; try assumption;
    apply (occurrences_forallb is_construction); try exact Hevs;
    intros ev; now destruct ev.
Qed.

Lemma client_setup_failure_defers_witness :
  setup_error sample_bootstrap
    (mk_channel_env ok ok None (fails (AWS_ERROR_OTHER 3)) ok false) ok
  = Some (AWS_ERROR_OTHER 3)
  /\ exists b' w',
       s_client_bootstrap_on_channel_setup extern_idle sample_bootstrap
         AWS_ERROR_SUCCESS (Some 7%positive)
         (mk_channel_env ok ok None (fails (AWS_ERROR_OTHER 3)) ok false) ok
         empty_world = Some (Some b', w')
       /\ trace w' = [ev_channel_slot_remove 7%positive;
                      ev_channel_shutdown 7%positive (AWS_ERROR_OTHER 3)].
Proof.
  split; [reflexivity |].
  destruct (client_setup_failure_defers extern_idle sample_bootstrap 7%positive
              (mk_channel_env ok ok None (fails (AWS_ERROR_OTHER 3)) ok false)
              ok (AWS_ERROR_OTHER 3) empty_world eq_refl)
    as (evs & b' & w' & Hrun & _).
  exists b', w'. split; [exact Hrun |].
  vm_compute in Hrun. inversion Hrun. reflexivity.
Defined.

(** X20.  Over every connect attempt that keeps the transport's contract,
    whatever its outcome, the bootstrap's memory is released once, and that
    is the last thing the attempt does: no callback runs, and no channel is
    touched, after the bootstrap is gone. *)
Theorem client_bootstrap_released_last
    (extern : foreign) (b : aws_http_client_bootstrap) (f : fn_ptr)
    (t : transport_outcome) (w : world) :
  bs_on_setup b = Some f ->
  transport_contract t = true ->
  exists evs w',
    client_connect_attempt extern b t w = Some (tt, w')
    /\ trace w' = trace w ++ evs ++ [ev_mem_release_bootstrap]
    /\ occurrences is_mem_release_bootstrap evs = 0%nat.
Proof.
  intros Hf Ht. destruct t as [e | ch env monitor reason].
  - cbn in Ht.
    destruct (client_attempt_transport_failure extern b f e w Hf Ht)
      as (w' & Hrun & Htr).
    eexists [_], w'. split; [exact Hrun |]. split; [exact Htr | reflexivity].
  - unfold client_connect_attempt.
    destruct (setup_error b env monitor) as [e |] eqn:He.
    + destruct (client_setup_failure extern b ch env monitor e w He)
        as (evs & b' & w1 & Hrun & Hf' & Hud & Hevs & Htr).
      rewrite (bind_Some _ _ _ _ _ Hrun).
      rewrite client_shutdown_before_setup with (f := f) by congruence.
      cbv zeta.
      eexists (evs ++ [ev_channel_shutdown ch e; ev_call _]), _.
      split; [reflexivity |].
      split; [cbn [trace]; rewrite Htr; now norm_app |].
      rewrite occurrences_app.
      rewrite (occurrences_forallb is_construction _ evs)
        by (try exact Hevs; intros ev; now destruct ev).
      reflexivity.
    + destruct (client_setup_success extern b f ch env monitor w Hf He)
        as (b' & w1 & Hrun & Hf' & Hsh & Hud & Hconn & Htr).
      rewrite (bind_Some _ _ _ _ _ Hrun).
      destruct (client_shutdown_after_setup extern b' reason w1 Hf')
        as (w' & Hdown & Htr').
      exists ([ev_on_channel_handler_installed (fresh (dom (heap w)))]
              ++ statistics_events b ch
              ++ [ev_call (call_on_setup f (Some (fresh (dom (heap w))))
                             AWS_ERROR_SUCCESS (bs_user_data b))]
              ++ on_shutdown_events b' (bs_connection b') reason), w'.
      split; [exact Hdown |].
      split; [rewrite Htr', Htr; now norm_app |].
      rewrite !occurrences_app.
      rewrite occurrences_statistics by reflexivity.
      unfold on_shutdown_events.
      now destruct (bs_on_shutdown b').
Qed.

Lemma client_bootstrap_released_last_witness :
  bs_on_setup sample_bootstrap = Some 31%positive
  /\ transport_contract (transport_failure AWS_ERROR_UNKNOWN) = true
  /\ exists w',
       client_connect_attempt extern_idle sample_bootstrap
         (transport_failure AWS_ERROR_UNKNOWN) empty_world = Some (tt, w')
       /\ trace w' = [ev_call (call_on_setup 31%positive None AWS_ERROR_UNKNOWN 400);
                      ev_mem_release_bootstrap].
Proof.
  split; [reflexivity |]. split; [reflexivity |].
  destruct (client_bootstrap_released_last extern_idle sample_bootstrap
              31%positive (transport_failure AWS_ERROR_UNKNOWN) empty_world
              eq_refl eq_refl) as (evs & w' & Hrun & _).
  exists w'. split; [exact Hrun |].
  vm_compute in Hrun. inversion Hrun. reflexivity.
Defined.
